(** * Garden Simulator v4.1: the cultivation and spatial-economy engine

    A shallow embedding of [src/main.py] (footprints, growth, placement and
    harvest search, tool tiers, the sell-value table) and the properties of
    its specification.

    Conventions of the embedding.
    - Python [float] quantities (money, seed costs, times, multipliers) are
      exact rationals [Q]; integers (tile coordinates, sizes, tiers,
      quantities) are [Z].
    - A Python exception is a [Raise] result; a call that completes is [Ok].
    - Reads of [time.time()] and the draws of [random] are explicit
      arguments of the functions that perform them.
    - Objects mutated through several references ([Plant] instances stored
      under several tile keys) live in a heap indexed by locations.
    - Drawing, camera, minimap and dialog code does not affect the
      simulation and is not embedded; neither are the colour fields. *)

From Stdlib Require Import ZArith QArith Qround Lia Lqa List String Permutation.
From stdpp Require Import base option list gmap strings.

#[local] Open Scope string_scope.
#[local] Open Scope Z_scope.

(** ** Python runtime: exceptions, lists, ranges, insertion-ordered dicts *)

Inductive exn := IndexError | KeyError | ZeroDivisionError | TypeError.

Inductive result (A : Type) :=
| Ok (a : A)
| Raise (e : exn).
Arguments Ok {A} a.
Arguments Raise {A} e.

#[global] Instance result_ret : MRet result := fun _ a => Ok a.
#[global] Instance result_bind : MBind result := fun _ _ f r =>
  match r with
  | Ok a => f a
  | Raise e => Raise e
  end.

Definition is_Ok {A} (r : result A) : Prop := ∃ a, r = Ok a.

(** [range(n)] and [range(a, b)]. *)
Definition range (n : Z) : list Z :=
  List.map Z.of_nat (seq 0 (Z.to_nat n)).

Definition range2 (a b : Z) : list Z :=
  List.map (fun i => a + Z.of_nat i) (seq 0 (Z.to_nat (b - a))).

(** [l[i]]: negative indices count from the end, anything else out of range
    raises [IndexError]. *)
Definition list_getitem {A} (l : list A) (i : Z) : result A :=
  let n := Z.of_nat (length l) in
  let j := if i <? 0 then i + n else i in
  if (j <? 0) || (n <=? j) then Raise IndexError
  else match nth_error l (Z.to_nat j) with
       | Some a => Ok a
       | None => Raise IndexError
       end.

(** [max(a, b)] and [min(a, b)]: Python returns the first argument unless
    the second is strictly greater (smaller). *)
Definition pymax (a b : Q) : Q := if Qlt_le_dec a b then b else a.
Definition pymin (a b : Q) : Q := if Qlt_le_dec b a then b else a.

(** [max(0, v)]: Python returns the first argument unless the second is
    strictly greater. *)
Definition max0 (v : Q) : Q := if Qlt_le_dec 0 v then v else 0%Q.

Module PyDict.
Section dict.
Context {K V : Type} `{EqDecision K}.

Definition t := list (K * V).

Definition empty : t := [].

Fixpoint get (d : t) (k : K) : option V :=
match d with
| [] => None
| (k', v) :: d' => if decide (k = k') then Some v else get d' k
end.

Definition contains (d : t) (k : K) : bool :=
match get d k with Some _ => true | None => false end.

(** [d[k] = v]: an existing key keeps its position. *)
Fixpoint set (d : t) (k : K) (v : V) : t :=
match d with
| [] => [(k, v)]
| (k', v') :: d' =>
  if decide (k = k') then (k, v) :: d' else (k', v') :: set d' k v
end.

Fixpoint del (d : t) (k : K) : t :=
match d with
| [] => []
| (k', v') :: d' =>
  if decide (k = k') then d' else (k', v') :: del d' k
end.

(** [d[k]] raises [KeyError] on a missing key. *)
Definition getitem (d : t) (k : K) : result V :=
match get d k with Some v => Ok v | None => Raise KeyError end.

(** [dict(zip(keys, values))] and [d.update(other)]: later bindings
override earlier ones. *)
Definition update (d other : t) : t :=
fold_left (fun acc kv => set acc kv.1 kv.2) other d.

Definition of_list (l : list (K * V)) : t := update empty l.
End dict.
Arguments t : clear implicits.
End PyDict.

(** ** Plant types and growth stages *)

Inductive Shape := rectangle | circle | star | curved.

#[global] Instance Shape_eq_dec : EqDecision Shape.
Proof. solve_decision. Defined.

(** [sell_value] is [None] when the table lookup of the catalog builder
    returned Python's [None]. *)
Record PlantType := {
  name : string;
  seed_cost : Q;
  sell_value : option Q;
  growth_time : Q;
  size : Z * Z;
  shape : Shape;
}.

(** [PlantType.__init__] with its defaults [size=(1, 1)] and
    [shape='rectangle']. *)
Definition PlantType_init (name : string) (seed_cost : Q) (sell_value : option Q)
    (growth_time : Q) (size : option (Z * Z)) (shape : option Shape) : PlantType :=
  {| name := name; seed_cost := seed_cost; sell_value := sell_value;
     growth_time := growth_time;
     size := default (1, 1) size;
     shape := default rectangle shape |}.

Inductive PlantGrowthStage := SEED | SPROUT | YOUNG | MATURE | HARVESTABLE.

Definition stage_value (s : PlantGrowthStage) : Z :=
  match s with
  | SEED => 0 | SPROUT => 1 | YOUNG => 2 | MATURE => 3 | HARVESTABLE => 4
  end.

Inductive TileKind := water | soil | grass | stone | sell_area.

#[global] Instance TileKind_eq_dec : EqDecision TileKind.
Proof. solve_decision. Defined.

(** ** Plant: growth and footprint *)

Module Plant.

Record t := {
plant_type : PlantType;
x : Z;
y : Z;
planted_time : Q;
stage : PlantGrowthStage;
harvestable : bool;
time_remaining : Q;
last_update : Q;
}.

(** [Plant.__init__]; [now] stands for its two successive readings of
  [time.time()] ([planted_time] is not read again). *)
Definition init (pt : PlantType) (x y : Z) (now : Q) : t :=
{| plant_type := pt; x := x; y := y; planted_time := now;
   stage := SEED; harvestable := false;
   time_remaining := growth_time pt; last_update := now |}.

Definition soil_multiplier (tile_type : TileKind) : Q :=
if decide (tile_type = soil) then 11 # 10 else 1.

(** The stage chosen by the [if]/[elif] chain at the end of [update]. *)
Definition stage_of (time_remaining progress : Q) : PlantGrowthStage :=
if Qle_bool time_remaining 0 then HARVESTABLE
else if Qle_bool (8 # 10) progress then MATURE
else if Qle_bool (5 # 10) progress then YOUNG
else if Qle_bool (2 # 10) progress then SPROUT
else SEED.

(** [Plant.update]; [current_time] is the reading of [time.time()].  The
  division by [growth_time] raises when it is zero. *)
Definition update (p : t) (current_time : Q)
  (weather_multiplier fertilizer_multiplier : Q) (tile_type : TileKind)
  : result t :=
if harvestable p then Ok p
else
  let elapsed := (current_time - last_update p)%Q in
  let total_multiplier :=
    (weather_multiplier * fertilizer_multiplier * soil_multiplier tile_type)%Q in
  let time_reduction := (elapsed * total_multiplier)%Q in
  let time_remaining' := max0 (time_remaining p - time_reduction) in
  if Qeq_bool (growth_time (plant_type p)) 0 then Raise ZeroDivisionError
  else
    let progress := (1 - time_remaining' / growth_time (plant_type p))%Q in
    let stage' := stage_of time_remaining' progress in
    Ok {| plant_type := plant_type p; x := x p; y := y p;
          planted_time := planted_time p;
          stage := stage';
          harvestable := if Qle_bool time_remaining' 0 then true
                         else harvestable p;
          time_remaining := time_remaining';
          last_update := current_time |}.

(** [Plant.get_time_remaining]; the multipliers are not used. *)
Definition get_time_remaining (p : t) (weather_multiplier fertilizer_multiplier : Q) : Q :=
if harvestable p then 0%Q else pymax 0 (time_remaining p).

(** [Plant.get_occupied_tiles]. *)
Definition star_points : list (Z * Z) :=
[(1, 0); (0, 1); (2, 1); (0, 2); (2, 2); (1, 1); (1, 2)].

Definition get_occupied_tiles (p : t) : list (Z * Z) :=
let '(w, h) := size (plant_type p) in
match shape (plant_type p) with
| rectangle =>
    dy ← range h; dx ← range w; [(x p + dx, y p + dy)]
| circle =>
    let center_x := x p + w / 2 in
    let center_y := y p + h / 2 in
    let radius := Z.min w h / 2 in
    dy ← range2 (- radius) (radius + 1);
    dx ← range2 (- radius) (radius + 1);
    if dx * dx + dy * dy <=? radius * radius
    then [(center_x + dx, center_y + dy)] else []
| star =>
    '(dx, dy) ← star_points; [(x p + dx, y p + dy)]
| curved =>
    let corners := [(0, 0); (w - 1, 0); (0, h - 1); (w - 1, h - 1)] in
    dy ← range h; dx ← range w;
    if bool_decide ((dx, dy) ∈ corners) then []
    else [(x p + dx, y p + dy)]
end.

(** Cultivars: the plants the game creates ([growth_time] positive, as for
  every seed of the catalog) and what [update] makes of them. *)
Inductive cultivar : t → Prop :=
| cultivar_init pt x y now :
  (0 < growth_time pt)%Q → cultivar (init pt x y now)
| cultivar_update p now w f tile p' :
  cultivar p →
  (last_update p <= now)%Q → (0 <= w)%Q → (0 <= f)%Q →
  update p now w f tile = Ok p' →
  cultivar p'.


End Plant.

(** ** Inventory *)

Module Inventory.

Record t := {
seeds : PyDict.t string Z;
items : PyDict.t string Z;
}.

Definition init : t := {| seeds := PyDict.empty; items := PyDict.empty |}.

Definition add_seeds (inv : t) (plant_name : string) (quantity : Z) : t :=
{| seeds := PyDict.set (seeds inv) plant_name
              (default 0 (PyDict.get (seeds inv) plant_name) + quantity);
   items := items inv |}.

Definition use_seed (inv : t) (plant_name : string) : bool * t :=
let n := default 0 (PyDict.get (seeds inv) plant_name) in
if 0 <? n then
  let seeds1 := PyDict.set (seeds inv) plant_name (n - 1) in
  let seeds2 := if n - 1 =? 0 then PyDict.del seeds1 plant_name else seeds1 in
  (true, {| seeds := seeds2; items := items inv |})
else (false, inv).

Definition add_item (inv : t) (item_name : string) (quantity : Z) : t :=
{| seeds := seeds inv;
   items := PyDict.set (items inv) item_name
              (default 0 (PyDict.get (items inv) item_name) + quantity) |}.

(** [Inventory.remove_item]; the subscript assignment raises [KeyError]
  when the test passes for an item that has no entry. *)
Definition remove_item (inv : t) (item_name : string) (quantity : Z) : result (bool * t) :=
if quantity <=? default 0 (PyDict.get (items inv) item_name) then
  n ← PyDict.getitem (items inv) item_name;
  let items1 := PyDict.set (items inv) item_name (n - quantity) in
  let items2 := if n - quantity =? 0 then PyDict.del items1 item_name else items1 in
  Ok (true, {| seeds := seeds inv; items := items2 |})
else Ok (false, inv).

End Inventory.

(** ** Constants *)

Definition TILE_SIZE : Z := 48.
Definition MAP_WIDTH : Z := 150.
Definition MAP_HEIGHT : Z := 150.


(** ** Map *)

Module Map.

Record t := {
width : Z;
height : Z;
tiles : list (list TileKind);
sell_area_center : Z * Z;
}.

(** One cell of [generate_map]; [noise_val] is the value of the
  trigonometric noise expression at the cell. *)
Definition generate_tile (width height : Z) (noise : Z → Z → Q) (x y : Z) : TileKind :=
let center_x := MAP_WIDTH / 2 in
let center_y := MAP_HEIGHT / 2 in
if (x <? 8) || (width - 8 <=? x) || (y <? 8) || (height - 8 <=? y) then water
else if (Z.abs (x - center_x) <=? 2) && (Z.abs (y - center_y) <=? 2) then sell_area
else
  let noise_val := noise x y in
  if Qlt_le_dec noise_val (- (3 # 10)) then water
  else if Qlt_le_dec noise_val (1 # 10) then soil
  else if Qlt_le_dec noise_val (5 # 10) then grass
  else stone.

Definition generate_map (width height : Z) (noise : Z → Z → Q) : list (list TileKind) :=
List.map (fun y => List.map (fun x => generate_tile width height noise x y) (range width))
         (range height).

Definition init (noise : Z → Z → Q) : t :=
{| width := MAP_WIDTH; height := MAP_HEIGHT;
   tiles := generate_map MAP_WIDTH MAP_HEIGHT noise;
   sell_area_center := (MAP_WIDTH / 2, MAP_HEIGHT / 2) |}.

(** [self.tiles[y][x]]. *)
Definition tile_at (m : t) (x y : Z) : result TileKind :=
row ← list_getitem (tiles m) y; list_getitem row x.

Definition is_walkable (m : t) (x y : Z) : result bool :=
if (x <? 0) || (width m <=? x) || (y <? 0) || (height m <=? y) then Ok false
else k ← tile_at m x y; Ok (negb (bool_decide (k = water))).

Definition is_tillable (m : t) (x y : Z) : result bool :=
if (x <? 0) || (width m <=? x) || (y <? 0) || (height m <=? y) then Ok false
else k ← tile_at m x y; Ok (bool_decide (k ∈ [soil; grass])).

Definition is_sell_area (m : t) (x y : Z) : result bool :=
k ← tile_at m x y; Ok (bool_decide (k = sell_area)).

End Map.

(** ** Player *)

Record Keys := {
  key_shift : bool;
  key_left : bool;
  key_right : bool;
  key_up : bool;
  key_down : bool;
}.

Module Player.

Record t := {
x : Q;
y : Q;
speed : Q;
money : Q;
inventory : Inventory.t;
fertilizer_level : Z;
hoe_level : Z;
shovel_level : Z;
}.

Definition init (x y : Q) : t :=
{| x := x; y := y; speed := 160%Q; money := 10%Q;
   inventory := Inventory.init;
   fertilizer_level := 0; hoe_level := 0; shovel_level := 0 |}.

(** The first [def get_fertilizer_multiplier] of the class body. *)
Definition get_fertilizer_multiplier_1 (p : t) : result Q :=
list_getitem [1; 25 # 10; 50; 500]%Q (fertilizer_level p).

Definition get_planting_range (p : t) : result Z :=
list_getitem [2; 8; 20; 100] (hoe_level p).

Definition get_harvest_range (p : t) : result Z :=
list_getitem [1; 4; 8; 15] (shovel_level p).

(** The second [def get_fertilizer_multiplier] of the class body. *)
Definition get_fertilizer_multiplier_2 (p : t) : result Q :=
list_getitem [1; 2; 10; 100]%Q (fertilizer_level p).

(** The class body binds its names in order, a later [def] replacing an
  earlier one of the same name; the attribute a call resolves is the
  binding left in the class namespace. *)
Definition class_body : list (string * (t → result Q)) :=
[("get_fertilizer_multiplier", get_fertilizer_multiplier_1);
 ("get_fertilizer_multiplier", get_fertilizer_multiplier_2)].

Definition namespace : PyDict.t string (t → result Q) :=
PyDict.of_list class_body.

Definition get_fertilizer_multiplier (p : t) : result Q :=
m ← PyDict.getitem namespace "get_fertilizer_multiplier"; m p.

(** [Player.update]: [keys] are the pressed movement keys. *)
Definition update (p : t) (dt : Q) (keys : Keys) (map_obj : Map.t) : result t :=
let speed_multiplier := (if key_shift keys then 3 else 1)%Q in
let current_speed := (speed p * speed_multiplier)%Q in
let dx := 0%Q in
let dx := if key_left keys then (- current_speed * dt)%Q else dx in
let dx := if key_right keys then (current_speed * dt)%Q else dx in
let dy := 0%Q in
let dy := if key_up keys then (- current_speed * dt)%Q else dy in
let dy := if key_down keys then (current_speed * dt)%Q else dy in
let new_x := pymax 0 (pymin (inject_Z (MAP_WIDTH * TILE_SIZE - TILE_SIZE)) (x p + dx)) in
let new_y := pymax 0 (pymin (inject_Z (MAP_HEIGHT * TILE_SIZE - TILE_SIZE)) (y p + dy)) in
let tile_x := Qfloor (new_x / inject_Z TILE_SIZE) in
let tile_y := Qfloor (new_y / inject_Z TILE_SIZE) in
walkable ← Map.is_walkable map_obj tile_x tile_y;
if walkable : bool then
  Ok {| x := new_x; y := new_y; speed := speed p; money := money p;
        inventory := inventory p;
        fertilizer_level := fertilizer_level p;
        hoe_level := hoe_level p; shovel_level := shovel_level p |}
else Ok p.

Definition get_tile_position (p : t) : Z * Z :=
(Qfloor (x p / inject_Z TILE_SIZE), Qfloor (y p / inject_Z TILE_SIZE)).

End Player.

(** ** Strings: the [in] test and [split] *)

Fixpoint str_in (needle hay : string) : bool :=
  String.prefix needle hay ||
  match hay with
  | EmptyString => false
  | String _ hay' => str_in needle hay'
  end.

Definition is_space (c : Ascii.ascii) : bool :=
  let n := Ascii.nat_of_ascii c in
  ((9 <=? n) && (n <=? 13))%nat || (n =? 32)%nat.

(** [s.split()]: the maximal runs of non-whitespace characters. *)
Fixpoint split_from (cur : string) (s : string) : list string :=
  match s with
  | EmptyString => if decide (cur = "") then [] else [cur]
  | String c s' =>
      if is_space c then
        if decide (cur = "") then split_from "" s' else cur :: split_from "" s'
      else split_from (cur +:+ String c "") s'
  end.

Definition split (s : string) : list string := split_from "" s.

#[global] Instance Q_eq_dec : EqDecision Q.
Proof. solve_decision. Defined.

(** ** Shop: the catalog and the economy transactions *)

Record Category := {
  cat_name : string;
  plants : PyDict.t string PlantType;
}.

(** [random.choice(seq)] for the draw [r]. *)
Definition choice {A} (r : nat) (l : list A) (d : A) : A :=
  nth (r mod length l) l d.

Module Shop.

Record t := {
plant_categories : list Category;
}.

(** The parallel tables of [calculate_sell_value]. *)
Definition keys : list Q :=
[
 1; 2; 3; 5; 8; 15;
 20; 25; 30; 35; 40; 50;
 60; 80; 100; 120; 150; 180;
 200; 250; 280; 300; 320; 350;
 380; 400; 420; 450; 480; 500;
 500; 750; 1000; 1250; 1500; 1750;
 2000; 2250; 2500; 2750; 3000; 3250;
 3500; 3750; 4000; 4250; 4500; 4750;
 5000; 5000; 10000; 15000; 20000; 25000;
 30000; 35000; 40000; 45000; 50000; 55000;
 60000; 65000; 70000; 75000; 80000; 85000;
 90000; 95000; 100000; 200000; 1000000; 3000000;
 5000000; 10000000
]%Q.

Definition values : list Q :=
[
 101 # 100; 206 # 100; 310 # 100; 630 # 100; 11; 26;
 32; 40; 40; 55; 52; 68;
 68; 120; 130; 228; 250; 240;
 320; 411; 515; 570; 614; 676;
 737; 780; 882; 945; 1027; 1080;
 1090; 1725; 2350; 3063; 3720; 4393;
 5000; 5648; 6425; 7233; 7950; 8938;
 9730; 10463; 11240; 11985; 12780; 13538;
 14450; 14750; 30000; 45750; 68000; 90000;
 113700; 136500; 160000; 184500; 210000; 236500;
 261000; 284050; 308000; 331500; 355200; 379100;
 403200; 427500; 451000; 1200000; 7000000; 25500000;
 500000000; 12000000000
]%Q.

Definition plants_data : list (string * Q * Q) :=
[
 ("Radish", 1, 5);
 ("Lettuce", 2, 6);
 ("Spinach", 3, 4);
 ("Herbs", 5, 7);
 ("Green Onion", 8, 8);
 ("Carrot", 15, 15);
 ("Tomato", 20, 20);
 ("Potato", 25, 25);
 ("Corn", 30, 30);
 ("Broccoli", 35, 35);
 ("Cabbage", 40, 40);
 ("Pepper", 50, 45);
 ("Cucumber", 60, 50);
 ("Eggplant", 80, 60);
 ("Sunflower", 100, 70);
 ("Pumpkin", 120, 80);
 ("Strawberry", 150, 90);
 ("Blueberry", 180, 100);
 ("Apple Tree", 200, 120);
 ("Orange Tree", 250, 140);
 ("Cherry Tree", 280, 160);
 ("Peach Tree", 300, 180);
 ("Pear Tree", 320, 200);
 ("Grape Vine", 350, 220);
 ("Avocado Tree", 380, 240);
 ("Mango Tree", 400, 260);
 ("Coconut Palm", 420, 280);
 ("Lemon Tree", 450, 300);
 ("Lime Tree", 480, 320);
 ("Banana Tree", 500, 340)
]%Q.

Definition rare_data : list (string * Q * Q) :=
[
 ("Dragon Fruit", 500, 360);
 ("Golden Apple", 750, 420);
 ("Rainbow Rose", 1000, 480);
 ("Crystal Lotus", 1250, 540);
 ("Starfruit", 1500, 600);
 ("Phoenix Flower", 1750, 660);
 ("Moonberry", 2000, 720);
 ("Thunder Melon", 2250, 780);
 ("Ice Mint", 2500, 840);
 ("Fire Pepper", 2750, 900);
 ("Wind Blossom", 3000, 960);
 ("Solar Orchid", 3250, 1020);
 ("Storm Lily", 3500, 1080);
 ("Earth Root", 3750, 1140);
 ("Void Berry", 4000, 1200);
 ("Light Sage", 4250, 1260);
 ("Shadow Thorn", 4500, 1320);
 ("Time Blossom", 4750, 1380);
 ("Space Fruit", 5000, 1440)
]%Q.

Definition mythic_data : list (string * Q * Q) :=
[
 ("Eternal Fruit", 5000, 1800);
 ("Mystic Herb", 10000, 2400);
 ("Cosmic Berry", 15000, 3000);
 ("Divine Rose", 20000, 3600);
 ("Celestial Apple", 25000, 4200);
 ("Quantum Melon", 30000, 4800);
 ("Infinity Bloom", 35000, 5400);
 ("Galaxy Grape", 40000, 6000);
 ("Universe Berry", 45000, 6600);
 ("Reality Stone Fruit", 50000, 7200);
 ("Time Crystal Plant", 55000, 7800);
 ("Power Gem Flower", 60000, 8400);
 ("Mind Stone Herb", 65000, 9000);
 ("Soul Stone Berry", 70000, 9600);
 ("Space Stone Vine", 75000, 10200);
 ("Dimensional Fruit", 80000, 10800);
 ("Multiverse Bloom", 85000, 11400);
 ("Omniversal Plant", 90000, 12000);
 ("Creator Seed", 95000, 12600);
 ("God Tier Fruit", 100000, 13200)
]%Q.

Definition legendary_data : list (string * Q * Q) :=
[
 ("World Tree Sapling", 200000, 14400);
 ("Universe Heart", 1000000, 25600);
 ("Infinity Garden", 3000000, 106800);
 ("Creation Essence", 5000000, 280000);
 ("Omnipotent Bloom", 10000000, 1900200)
]%Q.

Definition tools : PyDict.t string PlantType :=
PyDict.of_list [
 ("Iron Fertilizer", PlantType_init "Iron Fertilizer" 10000 (Some 0) 0 None None);
 ("Gold Fertilizer", PlantType_init "Gold Fertilizer" 150000 (Some 0) 0 None None);
 ("Diamond Fertilizer", PlantType_init "Diamond Fertilizer" 2500000 (Some 0) 0 None None);
 ("Iron Hoe", PlantType_init "Iron Hoe" 5000 (Some 0) 0 None None);
 ("Gold Hoe", PlantType_init "Gold Hoe" 50000 (Some 0) 0 None None);
 ("Diamond Hoe", PlantType_init "Diamond Hoe" 250000 (Some 0) 0 None None);
 ("Iron Shovel", PlantType_init "Iron Shovel" 20000 (Some 0) 0 None None);
 ("Gold Shovel", PlantType_init "Gold Shovel" 100000 (Some 0) 0 None None);
 ("Diamond Shovel", PlantType_init "Diamond Shovel" 500000 (Some 0) 0 None None)
]%Q.

(** [dict(zip(keys, values))]; float keys compare by value, so the
  dictionary is keyed by reduced fractions. *)
Definition library : PyDict.t Q Q := PyDict.of_list (combine keys values).

(** [Shop.calculate_sell_value]: the result of [library.get(seed_cost)]. *)
Definition calculate_sell_value (seed_cost growth_time : Q) : option Q :=
PyDict.get library (Qred seed_cost).

Definition rare_sizes : list (Z * Z) := [(3, 3); (2, 1); (3, 2); (3, 1)].
Definition mythic_sizes : list (Z * Z) :=
[(1, 1); (2, 1); (1, 2); (2, 2); (3, 1); (1, 3); (3, 3); (4, 3); (3, 4)].

(** One iteration of the loops that fill a category: the sell value is
  looked up and the [PlantType] constructed, whatever the lookup gave. *)
Definition make_plant (plant_data : string * Q * Q) (size : Z * Z) : result PlantType :=
let '(name, cost, time) := plant_data in
let sell_value := calculate_sell_value cost time in
Ok (PlantType_init name cost sell_value time (Some size) None).

Definition fill (data : list (string * Q * Q)) (size_of : nat → Z * Z)
  : result (PyDict.t string PlantType) :=
foldl (fun acc '(i, plant_data) =>
         d ← acc;
         pt ← make_plant plant_data (size_of i);
         Ok (PyDict.set d plant_data.1.1 pt))
      (Ok PyDict.empty)
      (combine (seq 0 (length data)) data).

(** [Shop.create_plant_categories]; [draws] are the outcomes of the
  successive [random.choice] calls. *)
Definition create_plant_categories (draws : nat → nat) : result (list Category) :=
common_plants ← fill plants_data (fun _ => (1, 1));
rare_plants ← fill rare_data (fun i => choice (draws i) rare_sizes (1, 1));
mythic_plants ←
  fill mythic_data
       (fun i => choice (draws (length rare_data + i)%nat) mythic_sizes (1, 1));
legendary_plants ← fill legendary_data (fun _ => (4, 4));
Ok [ {| cat_name := "COMMON SEEDS"; plants := common_plants |};
     {| cat_name := "RARE SEEDS"; plants := rare_plants |};
     {| cat_name := "MYTHIC SEEDS"; plants := mythic_plants |};
     {| cat_name := "LEGENDARY SEEDS"; plants := legendary_plants |};
     {| cat_name := "TOOLS"; plants := tools |} ].

Definition init (draws : nat → nat) : result t :=
cats ← create_plant_categories draws;
Ok {| plant_categories := cats |}.

Definition get_all_plant_types (s : t) : PyDict.t string PlantType :=
foldl (fun all_plants category => PyDict.update all_plants (plants category))
      PyDict.empty (plant_categories s).

Inductive ToolType := fertilizer | hoe | shovel.

Definition level_map : PyDict.t string Z :=
PyDict.of_list [("Iron", 1); ("Gold", 2); ("Diamond", 3)].

Definition set_money (p : Player.t) (m : Q) : Player.t :=
{| Player.x := Player.x p; Player.y := Player.y p; Player.speed := Player.speed p;
   Player.money := m; Player.inventory := Player.inventory p;
   Player.fertilizer_level := Player.fertilizer_level p;
   Player.hoe_level := Player.hoe_level p;
   Player.shovel_level := Player.shovel_level p |}.

Definition set_inventory (p : Player.t) (inv : Inventory.t) : Player.t :=
{| Player.x := Player.x p; Player.y := Player.y p; Player.speed := Player.speed p;
   Player.money := Player.money p; Player.inventory := inv;
   Player.fertilizer_level := Player.fertilizer_level p;
   Player.hoe_level := Player.hoe_level p;
   Player.shovel_level := Player.shovel_level p |}.

Definition set_level (p : Player.t) (tool : ToolType) (level : Z) : Player.t :=
{| Player.x := Player.x p; Player.y := Player.y p; Player.speed := Player.speed p;
   Player.money := Player.money p; Player.inventory := Player.inventory p;
   Player.fertilizer_level :=
     match tool with fertilizer => level | _ => Player.fertilizer_level p end;
   Player.hoe_level :=
     match tool with hoe => level | _ => Player.hoe_level p end;
   Player.shovel_level :=
     match tool with shovel => level | _ => Player.shovel_level p end |}.

Definition get_level (p : Player.t) (tool : ToolType) : Z :=
match tool with
| fertilizer => Player.fertilizer_level p
| hoe => Player.hoe_level p
| shovel => Player.shovel_level p
end.

(** [Shop.buy_seeds]: the result is the returned flag and the player
  after the call. *)
Definition buy_seeds (s : t) (player : Player.t) (plant_name : string) (quantity : Z)
  : result (bool * Player.t) :=
let all_plants := get_all_plant_types s in
if negb (PyDict.contains all_plants plant_name) then Ok (false, player)
else if existsb (fun tool => str_in tool plant_name) ["Fertilizer"; "Hoe"; "Shovel"] then
  let tool_type :=
    if str_in "Fertilizer" plant_name then fertilizer
    else if str_in "Hoe" plant_name then hoe
    else shovel in
  let current_level := get_level player tool_type in
  level_name ← list_getitem (split plant_name) 0;
  required_level ← PyDict.getitem level_map level_name;
  if required_level <=? current_level then Ok (false, player)
  else if negb (current_level =? required_level - 1) then Ok (false, player)
  else
    pt ← PyDict.getitem all_plants plant_name;
    let total_cost := seed_cost pt in
    if Qle_bool total_cost (Player.money player) then
      Ok (true, set_level (set_money player (Player.money player - total_cost)%Q)
                          tool_type required_level)
    else Ok (false, player)
else
  pt ← PyDict.getitem all_plants plant_name;
  let total_cost := (seed_cost pt * inject_Z quantity)%Q in
  if Qle_bool total_cost (Player.money player) then
    Ok (true, set_inventory (set_money player (Player.money player - total_cost)%Q)
                (Inventory.add_seeds (Player.inventory player) plant_name quantity))
  else Ok (false, player).

(** [sell_value * quantity] raises [TypeError] on a [None] sell value. *)
Definition value_of (pt : PlantType) (quantity : Z) : result Q :=
match sell_value pt with
| Some v => Ok (v * inject_Z quantity)%Q
| None => Raise TypeError
end.


(** [Shop.sell_all_items]: the loop runs over a snapshot of the items. *)
Definition sell_all_items (s : t) (player : Player.t) : result (Q * Player.t) :=
let all_plants := get_all_plant_types s in
let items_to_sell := Inventory.items (Player.inventory player) in
foldl (fun acc '(item_name, quantity) =>
         '(total_earned, player) ← acc;
         match PyDict.get all_plants item_name with
         | Some pt =>
             value ← value_of pt quantity;
             let inv := Player.inventory player in
             Ok ((total_earned + value)%Q,
                 set_inventory (set_money player (Player.money player + value)%Q)
                   {| Inventory.seeds := Inventory.seeds inv;
                      Inventory.items := PyDict.del (Inventory.items inv) item_name |})
         | None => Ok (total_earned, player)
         end)
      (Ok (0%Q, player)) items_to_sell.

End Shop.

(** The page fields of [Shop]: [current_page], and [max_page] as
    [Shop.__init__] computes it from the categories. *)
Module ShopPage.

Record t := {
current_page : Z;
max_page : Z;
}.

Definition init (s : Shop.t) : t :=
{| current_page := 0;
   max_page := Z.of_nat (length (Shop.plant_categories s)) - 1 |}.

Definition next_page (p : t) : t :=
if current_page p <? max_page p
then {| current_page := current_page p + 1; max_page := max_page p |}
else p.

Definition prev_page (p : t) : t :=
if 0 <? current_page p
then {| current_page := current_page p - 1; max_page := max_page p |}
else p.

(** The category [Shop.draw] shows: [plant_categories[current_page]]. *)
Definition current_category (s : Shop.t) (p : t) : result Category :=
list_getitem (Shop.plant_categories s) (current_page p).

End ShopPage.

(** ** Weather *)

Inductive WeatherType := SUNNY | CLOUDY | RAINY | SNOWING.

Module Weather.

Record t := {
current_weather : WeatherType;
weather_timer : Q;
weather_duration : Q;
current_special_duration : Q;
}.

Definition init : t :=
{| current_weather := SUNNY; weather_timer := 0;
   weather_duration := 85; current_special_duration := 0 |}.

(** The draws one call of [update] may consume. *)
Record Draws := {
normal_choice : bool;   (* [random.choice([SUNNY, CLOUDY])]: true for SUNNY *)
chance : Q;             (* [random.random()] *)
special_choice : bool;  (* [random.choice([RAINY, SNOWING])]: true for RAINY *)
duration : Q;           (* [random.uniform(80, 180)] *)
}.

Definition is_special (w : WeatherType) : bool :=
match w with RAINY | SNOWING => true | _ => false end.

Definition update (s : t) (dt : Q) (r : Draws) : t :=
let timer := (weather_timer s + dt)%Q in
let special := (if is_special (current_weather s)
                then current_special_duration s - dt
                else current_special_duration s)%Q in
if is_special (current_weather s) && Qle_bool special 0 then
  {| current_weather := if normal_choice r then SUNNY else CLOUDY;
     weather_timer := 0; weather_duration := weather_duration s;
     current_special_duration := special |}
else if Qle_bool (weather_duration s) timer then
  if negb (is_special (current_weather s)) then
    if Qle_bool (4 # 10) (chance r) then
      {| current_weather :=
           match current_weather s with SUNNY => CLOUDY | _ => SUNNY end;
         weather_timer := 0; weather_duration := weather_duration s;
         current_special_duration := special |}
    else
      {| current_weather := if special_choice r then RAINY else SNOWING;
         weather_timer := 0; weather_duration := weather_duration s;
         current_special_duration := duration r |}
  else
    {| current_weather := current_weather s;
       weather_timer := 0; weather_duration := weather_duration s;
       current_special_duration := special |}
else
  {| current_weather := current_weather s;
     weather_timer := timer; weather_duration := weather_duration s;
     current_special_duration := special |}.

Definition get_growth_multiplier (s : t) : Q :=
match current_weather s with
| RAINY => 2
| SNOWING => 75 # 100
| _ => 1
end.

End Weather.

(** ** Day and night *)

(** [int(v)]: truncation toward zero. *)
Definition py_int (v : Q) : Z := if Qlt_le_dec v 0 then Qceiling v else Qfloor v.

Module DayNightCycle.

Record t := {
time_of_day : Q;
day_length : Q;
}.

Definition init : t := {| time_of_day := 1 # 2; day_length := 600 |}.

Definition update (s : t) (dt : Q) : result t :=
if Qeq_bool (day_length s) 0 then Raise ZeroDivisionError
else
  let time_of_day' := (time_of_day s + dt / day_length s)%Q in
  Ok {| time_of_day := if Qle_bool 1 time_of_day' then 0%Q else time_of_day';
        day_length := day_length s |}.

Definition darkness (s : t) : Q :=
let tod := time_of_day s in
if Qle_bool tod (2 # 10) || Qle_bool (8 # 10) tod then 6 # 10
else if (negb (Qle_bool tod (2 # 10)) && Qle_bool tod (3 # 10))
        || (Qle_bool (7 # 10) tod && negb (Qle_bool (8 # 10) tod)) then
  let progress :=
    (if Qle_bool tod (3 # 10) then (tod - (2 # 10)) / (1 # 10)
     else 1 - (tod - (7 # 10)) / (1 # 10))%Q in
  ((6 # 10) - progress * (6 # 10))%Q
else 0%Q.

Definition get_lighting_alpha (s : t) : Z := py_int (darkness s * 255).

End DayNightCycle.

(** ** GameWorld: the field index and the player transactions *)

Definition loc := nat.

Module GameWorld.

(** [plants] maps a tile to the [Plant] object registered there; the
  objects themselves are in [heap], [next_loc] being the next fresh
  location. *)
Record t := {
map : Map.t;
player : Player.t;
plants : gmap (Z * Z) loc;
heap : loc → Plant.t;
next_loc : loc;
weather : Weather.t;
shop : Shop.t;
error_message : string;
error_timer : Q;
}.

(** Locations at or above [next_loc] hold a placeholder no tile refers to. *)
Definition unallocated : Plant.t :=
Plant.init (PlantType_init "" 0 None 0 None None) 0 0 0.

Definition init (noise : Z → Z → Q) (draws : nat → nat) : result t :=
s ← Shop.init draws;
Ok {| map := Map.init noise;
      player := Player.init (inject_Z (TILE_SIZE * MAP_WIDTH / 2))
                            (inject_Z (TILE_SIZE * MAP_HEIGHT / 2));
      plants := ∅;
      heap := fun _ => unallocated;
      next_loc := O;
      weather := Weather.init;
      shop := s;
      error_message := "";
      error_timer := 0 |}.

Definition set_player (w : t) (p : Player.t) : t :=
{| map := map w; player := p; plants := plants w; heap := heap w;
   next_loc := next_loc w; weather := weather w; shop := shop w;
   error_message := error_message w; error_timer := error_timer w |}.

Definition set_weather (w : t) (s : Weather.t) : t :=
{| map := map w; player := player w; plants := plants w; heap := heap w;
   next_loc := next_loc w; weather := s; shop := shop w;
   error_message := error_message w; error_timer := error_timer w |}.

Definition set_heap (w : t) (h : loc → Plant.t) : t :=
{| map := map w; player := player w; plants := plants w; heap := h;
   next_loc := next_loc w; weather := weather w; shop := shop w;
   error_message := error_message w; error_timer := error_timer w |}.

Definition show_error (w : t) (message : string) : t :=
{| map := map w; player := player w; plants := plants w; heap := heap w;
   next_loc := next_loc w; weather := weather w; shop := shop w;
   error_message := message; error_timer := 3 |}.


(** The tiles visited by the loop nest of [can_plant_at]. *)
Definition checked_tiles (x y : Z) (size : Z * Z) : list (Z * Z) :=
let '(width, height) := size in
dy ← range height; dx ← range width; [(x + dx, y + dy)].

(** The three tests of the loop body; [false] is the early [return False]. *)
Definition tile_free (w : t) (c : Z * Z) : result bool :=
let '(check_x, check_y) := c in
if (check_x <? 0) || (MAP_WIDTH <=? check_x) || (check_y <? 0) || (MAP_HEIGHT <=? check_y)
then Ok false
else
  tillable ← Map.is_tillable (map w) check_x check_y;
  if negb tillable then Ok false
  else if bool_decide (is_Some (plants w !! (check_x, check_y))) then Ok false
  else Ok true.

Fixpoint all_free (w : t) (cs : list (Z * Z)) : result bool :=
match cs with
| [] => Ok true
| c :: cs' => free ← tile_free w c; if free : bool then all_free w cs' else Ok false
end.

Definition can_plant_at (w : t) (x y : Z) (size : Z * Z) : result bool :=
all_free w (checked_tiles x y size).

(** The candidate origins of one radius of [find_planting_spot]. *)
Definition ring (player_x player_y radius : Z) : list (Z * Z) :=
if radius =? 0 then [(player_x, player_y)]
else
  dx ← range2 (- radius) (radius + 1);
  dy ← range2 (- radius) (radius + 1);
  if (Z.abs dx =? radius) || (Z.abs dy =? radius)
  then [(player_x + dx, player_y + dy)] else [].

Fixpoint first_valid (w : t) (size : Z * Z) (positions : list (Z * Z))
  : result (option (Z * Z)) :=
match positions with
| [] => Ok None
| (x, y) :: rest =>
    ok ← can_plant_at w x y size;
    if ok : bool then Ok (Some (x, y)) else first_valid w size rest
end.

(** The loop over the radii; [shuffle radius] is the permutation that
  [random.shuffle] applies at that radius. *)
Fixpoint search_rings (w : t) (shuffle : Z → list (Z * Z) → list (Z * Z))
  (player_x player_y : Z) (size : Z * Z) (radii : list Z)
  : result (option (Z * Z)) :=
match radii with
| [] => Ok None
| radius :: rest =>
    found ← first_valid w size (shuffle radius (ring player_x player_y radius));
    match found with
    | Some spot => Ok (Some spot)
    | None => search_rings w shuffle player_x player_y size rest
    end
end.

(** The search of [find_planting_spot] for a given planting range. *)
Definition find_planting_spot_within (w : t) (shuffle : Z → list (Z * Z) → list (Z * Z))
  (planting_range player_x player_y : Z) (size : Z * Z) : result (option (Z * Z)) :=
search_rings w shuffle player_x player_y size (range (planting_range + 1)).

Definition find_planting_spot (w : t) (shuffle : Z → list (Z * Z) → list (Z * Z))
  (player_x player_y : Z) (size : Z * Z) : result (option (Z * Z)) :=
planting_range ← Player.get_planting_range (player w);
find_planting_spot_within w shuffle planting_range player_x player_y size.

(** [GameWorld.handle_planting]. *)
Definition handle_planting (w : t) (shuffle : Z → list (Z * Z) → list (Z * Z)) (now : Q)
  : result t :=
let '(player_tile_x, player_tile_y) := Player.get_tile_position (player w) in
match List.find (fun '(_, quantity) => 0 <? quantity)
                (Inventory.seeds (Player.inventory (player w))) with
| Some (plant_name, _) =>
    plant_type ← PyDict.getitem (Shop.get_all_plant_types (shop w)) plant_name;
    planting_spot ← find_planting_spot w shuffle player_tile_x player_tile_y (size plant_type);
    match planting_spot with
    | None => Ok (show_error w "Error: Not enough space to place that seed here")
    | Some (plant_x, plant_y) =>
        let new_plant := Plant.init plant_type plant_x plant_y now in
        let l := next_loc w in
        Ok {| map := map w;
              player := Shop.set_inventory (player w)
                          (Inventory.use_seed (Player.inventory (player w)) plant_name).2;
              plants := foldl (fun m tile => <[tile := l]> m) (plants w)
                              (Plant.get_occupied_tiles new_plant);
              heap := fun l' => if decide (l' = l) then new_plant else heap w l';
              next_loc := S l;
              weather := weather w; shop := shop w;
              error_message := error_message w; error_timer := error_timer w |}
    end
| None => Ok (show_error w "No seeds in inventory!")
end.

(** The offsets scanned by [handle_harvesting], rows first. *)
Definition scan_offsets (harvest_range : Z) : list (Z * Z) :=
dy ← range2 (- harvest_range) (harvest_range + 1);
dx ← range2 (- harvest_range) (harvest_range + 1);
[(dx, dy)].

(** One iteration of the scan; [math.sqrt(dx*dx + dy*dy) <= harvest_range]
  is the comparison of the squares. *)
Definition harvest_at (h : loc → Plant.t) (player_tile_x player_tile_y harvest_range : Z)
  (st : gmap (Z * Z) loc * Inventory.t) (d : Z * Z) : gmap (Z * Z) loc * Inventory.t :=
let '(dx, dy) := d in
let check_x := player_tile_x + dx in
let check_y := player_tile_y + dy in
if dx * dx + dy * dy <=? harvest_range * harvest_range then
  match st.1 !! (check_x, check_y) with
  | Some l =>
      let plant := h l in
      if Plant.harvestable plant then
        (foldl (fun m tile => delete tile m) st.1 (Plant.get_occupied_tiles plant),
         Inventory.add_item st.2 (name (Plant.plant_type plant)) 1)
      else st
  | None => st
  end
else st.

Definition harvest_scan (h : loc → Plant.t) (player_tile_x player_tile_y harvest_range : Z)
  (st : gmap (Z * Z) loc * Inventory.t) : gmap (Z * Z) loc * Inventory.t :=
foldl (harvest_at h player_tile_x player_tile_y harvest_range) st
      (scan_offsets harvest_range).

(** [GameWorld.handle_harvesting]. *)
Definition handle_harvesting (w : t) : result t :=
let '(player_tile_x, player_tile_y) := Player.get_tile_position (player w) in
harvest_range ← Player.get_harvest_range (player w);
let '(plants', inv') :=
  harvest_scan (heap w) player_tile_x player_tile_y harvest_range
               (plants w, Player.inventory (player w)) in
Ok {| map := map w; player := Shop.set_inventory (player w) inv';
      plants := plants'; heap := heap w; next_loc := next_loc w;
      weather := weather w; shop := shop w;
      error_message := error_message w; error_timer := error_timer w |}.

Definition is_in_sell_area (w : t) : result bool :=
let '(player_tile_x, player_tile_y) := Player.get_tile_position (player w) in
Map.is_sell_area (map w) player_tile_x player_tile_y.

(** The "Update plants" loop of [GameWorld.update]: one [Plant.update]
  per tile key, each on the object the key refers to; [clock i] is the
  reading of [time.time()] in the [i]-th iteration. *)
Fixpoint update_plants_loop (m : Map.t) (weather_multiplier fertilizer_multiplier : Q)
  (clock : nat → Q) (i : nat) (refs : list loc) (h : loc → Plant.t)
  : result (loc → Plant.t) :=
match refs with
| [] => Ok h
| l :: refs' =>
    let plant := h l in
    tile_type ← Map.tile_at m (Plant.x plant) (Plant.y plant);
    plant' ← Plant.update plant (clock i) weather_multiplier fertilizer_multiplier tile_type;
    update_plants_loop m weather_multiplier fertilizer_multiplier clock (S i) refs'
      (fun l' => if decide (l' = l) then plant' else h l')
end.

Definition update_plants (w : t) (clock : nat → Q) : result t :=
let weather_multiplier := Weather.get_growth_multiplier (weather w) in
fertilizer_multiplier ← Player.get_fertilizer_multiplier (player w);
h ← update_plants_loop (map w) weather_multiplier fertilizer_multiplier clock O
       (map_to_list (plants w)).*2 (heap w);
Ok (set_heap w h).

(** What can happen to the world between two frames. *)
Inductive event :=
| Move (dt : Q) (keys : Keys)
| WeatherTick (dt : Q) (r : Weather.Draws)
| Grow (clock : nat → Q)
| PlantKey (shuffle : Z → list (Z * Z) → list (Z * Z)) (now : Q)
| HarvestKey
| Buy (plant_name : string) (quantity : Z)
| SellAllKey.

Definition step (w : t) (e : event) : result t :=
match e with
| Move dt keys => p ← Player.update (player w) dt keys (map w); Ok (set_player w p)
| WeatherTick dt r => Ok (set_weather w (Weather.update (weather w) dt r))
| Grow clock => update_plants w clock
| PlantKey shuffle now => handle_planting w shuffle now
| HarvestKey => handle_harvesting w
| Buy plant_name quantity =>
    r ← Shop.buy_seeds (shop w) (player w) plant_name quantity;
    Ok (set_player w r.2)
| SellAllKey =>
    inside ← is_in_sell_area w;
    if inside : bool then
      r ← Shop.sell_all_items (shop w) (player w); Ok (set_player w r.2)
    else Ok w
end.

Fixpoint run (w : t) (es : list event) : result t :=
match es with
| [] => Ok w
| e :: es' => w' ← step w e; run w' es'
end.

End GameWorld.


(** * Vocabulary of the statements *)

(** What the game maintains about each of its plants. *)
Record plant_inv (p : Plant.t) : Prop := {
  inv_growth_time : (0 < growth_time (Plant.plant_type p))%Q;
  inv_remaining : (0 <= Plant.time_remaining p)%Q;
  inv_stage : Plant.stage p = Plant.stage_of (Plant.time_remaining p)
                          (1 - Plant.time_remaining p / growth_time (Plant.plant_type p))%Q;
  inv_flag : Plant.harvestable p = Qle_bool (Plant.time_remaining p) 0%Q;
  inv_frozen : Plant.harvestable p = true → Plant.time_remaining p = 0%Q;
}.


(** The grid has [height] rows of [width] tiles. *)
Record map_wf (m : Map.t) : Prop := {
  wf_width : 0 <= Map.width m;
  wf_height : 0 <= Map.height m;
  wf_rows : Z.of_nat (length (Map.tiles m)) = Map.height m;
  wf_cols : Forall (fun row => Z.of_nat (length row) = Map.width m) (Map.tiles m);
}.

(** Catalogs all of whose entries have the default shape. *)
Definition all_rectangle (d : PyDict.t string PlantType) : Prop :=
  Forall (fun kv => shape kv.2 = rectangle) d.




(** Chebyshev distance of [(x, y)] from [(px, py)]. *)
Definition chebyshev (px py x y : Z) : Z := Z.max (Z.abs (x - px)) (Z.abs (y - py)).

(** What the three tests of [can_plant_at] establish for one tile: it is
    inside the grid, tillable and unclaimed. *)
Definition plantable (w : GameWorld.t) (c : Z * Z) : Prop :=
  (0 <= c.1 < MAP_WIDTH ∧ 0 <= c.2 < MAP_HEIGHT) ∧
  Map.is_tillable (GameWorld.map w) c.1 c.2 = Ok true ∧
  GameWorld.plants w !! c = None.

(** The invariant of the field index: every key refers to a plant whose
    footprint contains it, and every footprint tile of a referenced plant
    refers to that plant. *)
Record field_wf (plants : gmap (Z * Z) loc) (h : loc → Plant.t) : Prop := {
  wf_covers : ∀ k l, plants !! k = Some l → k ∈ Plant.get_occupied_tiles (h l);
  wf_registered : ∀ k l k',
    plants !! k = Some l → k' ∈ Plant.get_occupied_tiles (h l) → plants !! k' = Some l;
}.

(** A live cultivar is a plant some tile refers to. *)
Definition live (plants : gmap (Z * Z) loc) (l : loc) : Prop :=
  ∃ k, plants !! k = Some l.

(** The field without the plants of [log]. *)
Definition without (log : list loc) (plants : gmap (Z * Z) loc) : gmap (Z * Z) loc :=
  filter (fun kv => kv.2 ∉ log) plants.

(** Crediting one unit of the item of each plant of [log], in order. *)
Definition credit (h : loc → Plant.t) (inv : Inventory.t) (log : list loc) : Inventory.t :=
  foldl (fun inv l => Inventory.add_item inv (name (Plant.plant_type (h l))) 1) inv log.

(** Tiles at Euclidean distance at most [r] from [(px, py)]. *)
Definition within (px py r : Z) (k : Z * Z) : Prop :=
  (k.1 - px) * (k.1 - px) + (k.2 - py) * (k.2 - py) <= r * r.

(** The plants a scan over [ds] harvests from the field [P]. *)
Definition scanned (h : loc → Plant.t) (px py r : Z) (P : gmap (Z * Z) loc)
    (ds : list (Z * Z)) (l : loc) : Prop :=
  Plant.harvestable (h l) = true ∧
  ∃ d, d ∈ ds ∧ d.1 * d.1 + d.2 * d.2 <= r * r ∧ P !! (px + d.1, py + d.2) = Some l.

(** What every world of a game keeps true: the field index is well formed,
    the catalog is the one built at start-up, and the plants referred to
    were allocated before [next_loc]. *)
Record world_inv (s0 : Shop.t) (w : GameWorld.t) : Prop := {
  inv_field : field_wf (GameWorld.plants w) (GameWorld.heap w);
  inv_shop : GameWorld.shop w = s0;
  inv_fresh : ∀ k l, GameWorld.plants w !! k = Some l → (l < GameWorld.next_loc w)%nat;
}.

(** A world on an all-soil map, the player standing on tile (85, 75) with
    the basic tools; used to instantiate the theorems below. *)
Definition soil_world : GameWorld.t :=
  {| GameWorld.map := Map.init (fun _ _ => 0%Q);
     GameWorld.player := Player.init 4080 3600;
     GameWorld.plants := ∅;
     GameWorld.heap := fun _ => GameWorld.unallocated;
     GameWorld.next_loc := O;
     GameWorld.weather := Weather.init;
     GameWorld.shop := {| Shop.plant_categories := [] |};
     GameWorld.error_message := "";
     GameWorld.error_timer := 0 |}.

(** A ripe radish at (85, 76), next to the player of [soil_world]. *)
Definition ripe_radish : Plant.t :=
  {| Plant.plant_type := PlantType_init "Radish" 1 (Some (101 # 100)%Q) 5 None None;
     Plant.x := 85; Plant.y := 76; Plant.planted_time := 0;
     Plant.stage := HARVESTABLE; Plant.harvestable := true;
     Plant.time_remaining := 0; Plant.last_update := 10 |}.

Definition radish_world : GameWorld.t :=
  {| GameWorld.map := GameWorld.map soil_world;
     GameWorld.player := GameWorld.player soil_world;
     GameWorld.plants := {[ (85, 76) := O ]};
     GameWorld.heap := fun _ => ripe_radish;
     GameWorld.next_loc := 1%nat;
     GameWorld.weather := Weather.init;
     GameWorld.shop := GameWorld.shop soil_world;
     GameWorld.error_message := "";
     GameWorld.error_timer := 0 |}.

(** A short game on an all-soil map: run to tile (85, 75), buy two radish
    seeds, plant one, let it ripen, plant the other, harvest. *)
Definition demo_events : list GameWorld.event :=
  [GameWorld.Move 1 {| key_shift := true; key_left := false; key_right := true;
                       key_up := false; key_down := false |};
   GameWorld.Buy "Radish" 2;
   GameWorld.PlantKey (fun _ l => l) 0;
   GameWorld.Grow (fun _ => 10%Q);
   GameWorld.PlantKey (fun _ l => rev l) 10;
   GameWorld.HarvestKey].

(** A plant type of circular shape on a 2 x 2 box. *)
Definition round_shrub : PlantType :=
  PlantType_init "Round Shrub" 1 None 10 (Some (2, 2)) (Some circle).

(** The star shape on its 3 x 3 box. *)
Definition star_bush : PlantType :=
  PlantType_init "Star Bush" 1 None 10 (Some (3, 3)) (Some star).

(** A dictionary of counts as the inventory keeps it: no key twice and
    every count positive. *)
Definition counts_wf (d : PyDict.t string Z) : Prop :=
  NoDup d.*1 ∧ Forall (fun kv => 0 < kv.2) d.

(** The count of a name, 0 when it has no entry. *)
Definition count (d : PyDict.t string Z) (k : string) : Z :=
  default 0 (PyDict.get d k).

(** The test by which [buy_seeds] tells a tool from a seed. *)
Definition is_tool (plant_name : string) : bool :=
  existsb (fun tool => str_in tool plant_name) ["Fertilizer"; "Hoe"; "Shovel"].

(** The tier [buy_seeds] reads off the first word of a tool name. *)
Definition tool_tier (plant_name : string) : result Z :=
  level_name ← list_getitem (split plant_name) 0;
  PyDict.getitem Shop.level_map level_name.

(** What holds of every entry [plant_name ↦ pt] of the catalog: the key is
    the name, the shape is the default, the box is between 1 x 1 and 4 x 4,
    the cost is at least 1 and the sell value defined and not negative; a
    seed has a
    positive growth time and sells for more than it costs, a tool names
    one of its three tiers. *)
Definition entry_ok (plant_name : string) (pt : PlantType) : bool :=
  bool_decide (name pt = plant_name) && bool_decide (shape pt = rectangle) &&
  (1 <=? (size pt).1) && ((size pt).1 <=? 4) &&
  (1 <=? (size pt).2) && ((size pt).2 <=? 4) &&
  Qle_bool 1 (seed_cost pt) &&
  match sell_value pt with
  | Some v =>
      Qle_bool 0 v &&
      if is_tool plant_name then
        match tool_tier plant_name with
        | Ok tier => (1 <=? tier) && (tier <=? 3)
        | Raise _ => false
        end
      else negb (Qle_bool (growth_time pt) 0) && negb (Qle_bool v (seed_cost pt))
  | None => false
  end.

(** What [sell_all_items] earns on a dictionary of items. *)
Definition earnings (all_plants : PyDict.t string PlantType) (items : PyDict.t string Z) : Q :=
  fold_right
    (fun kv acc =>
       (match PyDict.get all_plants kv.1 with
        | Some pt => default 0 (sell_value pt) * inject_Z kv.2
        | None => 0
        end + acc)%Q)
    0%Q items.

(** Every entry the data tables can produce, at any size of the category,
    passes [entry_ok]. *)
Definition data_ok (data : list (string * Q * Q)) (sizes : list (Z * Z)) : bool :=
  forallb (fun pd : string * Q * Q =>
             forallb (fun sz =>
                        entry_ok pd.1.1
                          (PlantType_init pd.1.1 pd.1.2
                             (Shop.calculate_sell_value pd.1.2 pd.2) pd.2 (Some sz) None))
                     sizes)
          data.


(** The body of the loop of [sell_all_items]. *)
Definition sell_step (all_plants : PyDict.t string PlantType)
    (acc : result (Q * Player.t)) (kv : string * Z) : result (Q * Player.t) :=
  let '(item_name, quantity) := kv in
  '(total_earned, player) ← acc;
  match PyDict.get all_plants item_name with
  | Some pt =>
      value ← Shop.value_of pt quantity;
      let inv := Player.inventory player in
      Ok ((total_earned + value)%Q,
          Shop.set_inventory
            (Shop.set_money player (Player.money player + value)%Q)
            {| Inventory.seeds := Inventory.seeds inv;
               Inventory.items := PyDict.del (Inventory.items inv) item_name |})
  | None => Ok (total_earned, player)
  end.

(** The water border of the generated map. *)
Definition on_border (x y : Z) : Prop :=
  x < 8 ∨ MAP_WIDTH - 8 <= x ∨ y < 8 ∨ MAP_HEIGHT - 8 <= y.

(** The largest pixel coordinate [Player.update] lets the player reach. *)
Definition MAX_PIXEL : Q := inject_Z (MAP_WIDTH * TILE_SIZE - TILE_SIZE).

(** The events of a game: the shop sells one or more units at a time
    ([handle_shop_click] asks for the default quantity, 1). *)
Definition playable (e : GameWorld.event) : Prop :=
  match e with
  | GameWorld.Buy _ quantity => 1 <= quantity
  | _ => True
  end.

(** A seed of the catalog [s0]: an entry that is not a tool. *)
Definition seed_of (s0 : Shop.t) (k : string) : Prop :=
  ∃ pt, PyDict.get (Shop.get_all_plant_types s0) k = Some pt ∧ is_tool k = false.

(** A tool tier the game knows: basic, Iron, Gold or Diamond. *)
Definition tier_ok (level : Z) : Prop := 0 <= level <= 3.

(** What holds of every world a game reaches from its start-up. *)
Record game_inv (noise : Z → Z → Q) (s0 : Shop.t) (w : GameWorld.t) : Prop := {
  g_world : world_inv s0 w;
  g_map : GameWorld.map w = Map.init noise;
  g_pos : (0 <= Player.x (GameWorld.player w) <= MAX_PIXEL)%Q ∧
          (0 <= Player.y (GameWorld.player w) <= MAX_PIXEL)%Q;
  g_stand : Map.is_walkable (GameWorld.map w)
              (Player.get_tile_position (GameWorld.player w)).1
              (Player.get_tile_position (GameWorld.player w)).2 = Ok true;
  g_levels : tier_ok (Player.fertilizer_level (GameWorld.player w)) ∧
             tier_ok (Player.hoe_level (GameWorld.player w)) ∧
             tier_ok (Player.shovel_level (GameWorld.player w));
  g_money : (0 <= Player.money (GameWorld.player w))%Q;
  g_seeds : counts_wf (Inventory.seeds (Player.inventory (GameWorld.player w))) ∧
            ∀ k, k ∈ (Inventory.seeds (Player.inventory (GameWorld.player w))).*1 →
                 seed_of s0 k;
  g_items : counts_wf (Inventory.items (Player.inventory (GameWorld.player w))) ∧
            ∀ k, k ∈ (Inventory.items (Player.inventory (GameWorld.player w))).*1 →
                 seed_of s0 k;
  g_ground : ∀ k l, GameWorld.plants w !! k = Some l →
               (0 <= k.1 < MAP_WIDTH ∧ 0 <= k.2 < MAP_HEIGHT) ∧
               Map.is_tillable (GameWorld.map w) k.1 k.2 = Ok true;
  g_plants : ∀ k l, GameWorld.plants w !! k = Some l →
               PyDict.get (Shop.get_all_plant_types s0)
                          (name (Plant.plant_type (GameWorld.heap w l)))
                 = Some (Plant.plant_type (GameWorld.heap w l)) ∧
               is_tool (name (Plant.plant_type (GameWorld.heap w l))) = false ∧
               plant_inv (GameWorld.heap w l);
}.

(** The weather after a run of frames, each with its frame time and the
    random draws it may consume. *)
Definition weather_run (s : Weather.t) (steps : list (Q * Weather.Draws)) : Weather.t :=
  foldl (fun s st => Weather.update s st.1 st.2) s steps.

(** A frame time that is not negative and a duration as
    [random.uniform(80, 180)] draws it. *)
Definition fair_draw (st : Q * Weather.Draws) : Prop :=
  (0 <= st.1)%Q ∧ (80 <= Weather.duration st.2 <= 180)%Q.

(** What the weather keeps true from start-up on. *)
Definition weather_ok (s : Weather.t) : Prop :=
  Weather.weather_duration s = 85%Q ∧
  (0 <= Weather.weather_timer s < 85)%Q ∧
  (Weather.is_special (Weather.current_weather s) = true →
   (0 < Weather.current_special_duration s <= 180)%Q).

(** The day/night cycle after a run of frames. *)
Definition day_run (s : DayNightCycle.t) (dts : list Q) : result DayNightCycle.t :=
  foldl (fun acc dt => s ← acc; DayNightCycle.update s dt) (Ok s) dts.

(** The page after a run of clicks on the navigation buttons: [true] for
    "next", [false] for "prev". *)
Definition page_run (p : ShopPage.t) (clicks : list bool) : ShopPage.t :=
  foldl (fun p next => if next : bool then ShopPage.next_page p else ShopPage.prev_page p)
        p clicks.

(** * Properties *)

(** ** Growth *)

Section growth.
#[local] Open Scope Q_scope.
Import Plant.

Lemma max0_nonneg v : 0 <= max0 v.
Proof. unfold max0. destruct (Qlt_le_dec 0 v); lra. Qed.

Lemma max0_pos v : 0 < v → max0 v = v.
Proof. intros. unfold max0. destruct (Qlt_le_dec 0 v); [done | lra]. Qed.

Lemma max0_nonpos v : v <= 0 → max0 v = 0.
Proof. intros. unfold max0. destruct (Qlt_le_dec 0 v); [lra | done]. Qed.

Lemma Qle_bool_false a b : Qle_bool a b = false ↔ b < a.
Proof.
  split; intros H.
  - apply Qnot_le_lt. intros Hle. apply Qle_bool_iff in Hle. congruence.
  - destruct (Qle_bool a b) eqn:E; [|done].
    apply Qle_bool_iff in E. lra.
Qed.

Lemma Qeq_bool_false a b : Qeq_bool a b = false ↔ ¬ a == b.
Proof.
  split; intros H.
  - intros Heq. apply Qeq_bool_iff in Heq. congruence.
  - destruct (Qeq_bool a b) eqn:E; [|done]. apply Qeq_bool_iff in E. done.
Qed.

Ltac qbool :=
  repeat match goal with
    | H : Qle_bool _ _ = true |- _ => apply Qle_bool_iff in H
    | H : Qle_bool _ _ = false |- _ => apply Qle_bool_false in H
    | H : Qeq_bool _ _ = true |- _ => apply Qeq_bool_iff in H
    | H : Qeq_bool _ _ = false |- _ => apply Qeq_bool_false in H
    end.


(** The stage is antitone in the remaining time. *)
Lemma stage_of_antitone g t t' :
  0 < g → t' <= t →
  (stage_value (stage_of t (1 - t / g)) <= stage_value (stage_of t' (1 - t' / g)))%Z.
Proof.
  intros Hg Hle.
  assert (Hd : t' / g <= t / g).
  { unfold Qdiv. apply Qmult_le_compat_r; [done|].
    apply Qlt_le_weak, Qinv_lt_0_compat, Hg. }
  revert Hd. generalize (t / g), (t' / g). intros d d' Hd.
  unfold stage_of.
  repeat match goal with
    | |- context [Qle_bool ?a ?b] => destruct (Qle_bool a b) eqn:?
    end; qbool; simpl; try lia; exfalso; lra.
Qed.


Lemma init_inv pt x y now : 0 < growth_time pt → plant_inv (init pt x y now).
Proof.
  intros Hg. split; simpl; try done.
  - lra.
  - unfold stage_of.
    assert (Hp : 1 - growth_time pt / growth_time pt == 0).
    { field. lra. }
    repeat match goal with
      | |- context [Qle_bool ?a ?b] => destruct (Qle_bool a b) eqn:?
      end; qbool; try done; exfalso; lra.
  - symmetry. apply Qle_bool_false. done.
Qed.

Lemma update_total p now w f tile :
  0 < growth_time (plant_type p) → is_Ok (update p now w f tile).
Proof.
  intros Hg. unfold update.
  destruct (harvestable p); [eexists; reflexivity|].
  destruct (Qeq_bool _ 0) eqn:E; qbool; [lra|]. eexists; reflexivity.
Qed.

Lemma update_inv p now w f tile p' :
  plant_inv p → update p now w f tile = Ok p' → plant_inv p'.
Proof.
  intros Hinv. pose proof Hinv as [Hg Hr Hs Hf Hz]. unfold update.
  destruct (harvestable p) eqn:Hh.
  { by intros [= <-]. }
  destruct (Qeq_bool _ 0) eqn:E; [done|]. intros [= <-].
  split; simpl; try done.
  - apply max0_nonneg.
  - destruct (Qle_bool (max0 _) 0) eqn:E'; done.
  - destruct (Qle_bool (max0 _) 0) eqn:E'; [|done]. intros _.
    qbool. unfold max0 in *.
    destruct (Qlt_le_dec 0 _); [lra | done].
Qed.

Lemma cultivar_inv p : cultivar p → plant_inv p.
Proof.
  induction 1 as [pt x y now Hg | p now w f tile p' _ IH _ _ _ Hu].
  - by apply init_inv.
  - by eapply update_inv.
Qed.

Lemma update_unfold p now w f tile p' :
  harvestable p = false →
  update p now w f tile = Ok p' →
  time_remaining p' =
    max0 (time_remaining p - (now - last_update p) * (w * f * soil_multiplier tile))
  ∧ plant_type p' = plant_type p ∧ last_update p' = now
  ∧ Plant.x p' = Plant.x p ∧ Plant.y p' = Plant.y p.
Proof.
  unfold update. intros ->.
  destruct (Qeq_bool _ 0); [done|]. by intros [= <-].
Qed.

Lemma soil_multiplier_pos tile : 0 < soil_multiplier tile.
Proof. unfold soil_multiplier. destruct (decide _); reflexivity. Qed.

End growth.

(** C5: for every cultivar and every update with non-negative elapsed time
    and non-negative weather and fertilizer multipliers, the update
    completes, the remaining growth time does not increase, the stage does
    not move backward in the order SEED, SPROUT, YOUNG, MATURE, HARVESTABLE,
    and a HARVESTABLE cultivar is returned unchanged with its remaining
    time equal to 0. *)
Theorem growth_monotone_harvestable_absorbing p now w f tile :
  Plant.cultivar p →
  (Plant.last_update p <= now)%Q → (0 <= w)%Q → (0 <= f)%Q →
  ∃ p', Plant.update p now w f tile = Ok p' ∧
        (Plant.time_remaining p' <= Plant.time_remaining p)%Q ∧
        stage_value (Plant.stage p) <= stage_value (Plant.stage p') ∧
        (Plant.stage p = HARVESTABLE →
         p' = p ∧ Plant.time_remaining p = 0%Q ∧ Plant.harvestable p = true).
Proof.
  intros Hc Ht Hw Hf.
  pose proof (cultivar_inv p Hc) as Hinv.
  destruct (update_total p now w f tile (inv_growth_time p Hinv)) as [p' Hu].
  pose proof (update_inv _ _ _ _ _ _ Hinv Hu) as Hinv'.
  exists p'. split; [done|].
  destruct (Plant.harvestable p) eqn:Hh.
  - assert (p' = p) as ->.
    { unfold Plant.update in Hu. rewrite Hh in Hu. congruence. }
    repeat split; try lia; try lra. by apply inv_frozen.
  - destruct (update_unfold _ _ _ _ _ _ Hh Hu) as (Htr & Hpt & _).
    assert (Hle : (Plant.time_remaining p' <= Plant.time_remaining p)%Q).
    { rewrite Htr. pose proof (inv_remaining p Hinv) as Hr.
      pose proof (soil_multiplier_pos tile) as Hs.
      assert (0 <= (now - Plant.last_update p) * (w * f * Plant.soil_multiplier tile))%Q.
      { apply Qmult_le_0_compat; [lra|].
        apply Qmult_le_0_compat; [|lra]. by apply Qmult_le_0_compat. }
      unfold max0. destruct (Qlt_le_dec 0 _); lra. }
    split; [done|]. split.
    + rewrite (inv_stage p Hinv), (inv_stage p' Hinv'), Hpt.
      apply stage_of_antitone; [apply Hinv | done].
    + intros Hst. exfalso.
      rewrite (inv_stage p Hinv) in Hst. rewrite (inv_flag p Hinv) in Hh.
      unfold Plant.stage_of in Hst. rewrite Hh in Hst.
      repeat match type of Hst with
             | context [Qle_bool ?a ?b] => destruct (Qle_bool a b)
             end; discriminate.
Qed.

(** A radish seed planted at time 0 and updated at time 1 in the rain. *)
Lemma growth_monotone_harvestable_absorbing_witness :
  let p := Plant.init (PlantType_init "Radish" 1 (Some (101 # 100)%Q) 5 None None) 10 10 0 in
  ∃ p', Plant.update p 1 2 1 soil = Ok p' ∧
        (Plant.time_remaining p' <= Plant.time_remaining p)%Q ∧
        stage_value (Plant.stage p) <= stage_value (Plant.stage p') ∧
        (Plant.stage p = HARVESTABLE →
         p' = p ∧ Plant.time_remaining p = 0%Q ∧ Plant.harvestable p = true).
Proof.
  intros p.
  apply (growth_monotone_harvestable_absorbing p 1 2 1 soil).
  - apply Plant.cultivar_init. reflexivity.
  - discriminate.
  - discriminate.
  - discriminate.
Defined.


Section rain_on_soil.
#[local] Open Scope Q_scope.
Import Plant.




End rain_on_soil.



(** ** Dictionaries *)

Section dict_lemmas.
Context {K V : Type} `{EqDecision K}.
Implicit Types (d : PyDict.t K V) (k : K) (v : V).

Lemma dict_get_set d k v k' :
  PyDict.get (PyDict.set d k v) k' = if decide (k' = k) then Some v else PyDict.get d k'.
Proof.
  induction d as [|[k0 v0] d IH]; simpl.
  - repeat case_decide; congruence.
  - destruct (decide (k = k0)) as [->|Hne]; simpl.
    + repeat case_decide; congruence.
    + rewrite IH. repeat case_decide; congruence.
Qed.

Lemma dict_get_del_ne d k k' :
  k' ≠ k → PyDict.get (PyDict.del d k) k' = PyDict.get d k'.
Proof.
  intros Hne. induction d as [|[k0 v0] d IH]; simpl; [done|].
  destruct (decide (k = k0)) as [->|Hne0]; simpl.
  - case_decide; congruence.
  - by rewrite IH.
Qed.

Lemma dict_get_elem_of d k v : PyDict.get d k = Some v → (k, v) ∈ d.
Proof.
  induction d as [|[k0 v0] d IH]; simpl; [done|].
  case_decide as Hk.
  - intros [= ->]. subst. left.
  - intros Hg. right. by apply IH.
Qed.

Lemma dict_get_None d k : PyDict.get d k = None ↔ k ∉ d.*1.
Proof.
  induction d as [|[k0 v0] d IH]; simpl.
  - split; [|done]. intros _. apply not_elem_of_nil.
  - rewrite not_elem_of_cons. case_decide as Hk; simpl.
    + split; [done|]. intros [? _]. done.
    + rewrite IH. tauto.
Qed.

Lemma dict_set_Forall (P : K * V → Prop) d k v :
  Forall P d → P (k, v) → Forall P (PyDict.set d k v).
Proof.
  intros Hd Hkv. induction Hd as [|[k0 v0] d H0 Hd IH]; simpl.
  - by constructor.
  - case_decide; constructor; done.
Qed.

Lemma dict_update_Forall (P : K * V → Prop) d other :
  Forall P d → Forall P other → Forall P (PyDict.update d other).
Proof.
  intros Hd Ho. revert d Hd. unfold PyDict.update.
  induction Ho as [|[k v] other Hkv Ho IH]; intros d Hd; simpl; [done|].
  apply IH. by apply dict_set_Forall.
Qed.

Lemma dict_set_keys d k v k' :
  k' ∈ (PyDict.set d k v).*1 ↔ k' = k ∨ k' ∈ d.*1.
Proof.
  induction d as [|[k0 v0] d IH]; simpl.
  - rewrite list_elem_of_singleton. split; [auto|].
    intros [?|Hin]; [done|]. by apply not_elem_of_nil in Hin.
  - case_decide as Hk; simpl; rewrite !elem_of_cons.
    + subst. tauto.
    + rewrite IH. tauto.
Qed.

Lemma dict_update_keys d other k :
  k ∈ (PyDict.update d other).*1 ↔ k ∈ d.*1 ∨ k ∈ other.*1.
Proof.
  revert d. unfold PyDict.update.
  induction other as [|[k0 v0] other IH]; intros d; simpl.
  - split; [auto|]. intros [?|Hin]; [done|]. by apply not_elem_of_nil in Hin.
  - rewrite IH, dict_set_keys, elem_of_cons. simpl. tauto.
Qed.

End dict_lemmas.

(** ** The fertilizer multiplier *)

(** C10: the class body of Player binds get_fertilizer_multiplier twice and
    the second binding is the one a call resolves, so for every player
    state the multipliers of tiers 0, 1, 2, 3 are 1.0, 2.0, 10.0, 100.0,
    where the first definition has 1.0, 2.5, 50.0, 500.0. *)
Theorem fertilizer_multiplier_is_second_definition (p : Player.t) :
  Player.get_fertilizer_multiplier p = Player.get_fertilizer_multiplier_2 p ∧
  Player.get_fertilizer_multiplier (Shop.set_level p Shop.fertilizer 0) = Ok 1%Q ∧
  Player.get_fertilizer_multiplier (Shop.set_level p Shop.fertilizer 1) = Ok 2%Q ∧
  Player.get_fertilizer_multiplier (Shop.set_level p Shop.fertilizer 2) = Ok 10%Q ∧
  Player.get_fertilizer_multiplier (Shop.set_level p Shop.fertilizer 3) = Ok 100%Q ∧
  Player.get_fertilizer_multiplier_1 (Shop.set_level p Shop.fertilizer 0) = Ok 1%Q ∧
  Player.get_fertilizer_multiplier_1 (Shop.set_level p Shop.fertilizer 1) = Ok (25 # 10)%Q ∧
  Player.get_fertilizer_multiplier_1 (Shop.set_level p Shop.fertilizer 2) = Ok 50%Q ∧
  Player.get_fertilizer_multiplier_1 (Shop.set_level p Shop.fertilizer 3) = Ok 500%Q.
Proof. repeat split. Qed.

(** ** The tile predicates *)

Section tile_predicates.


Lemma range_length n : length (range n) = Z.to_nat n.
Proof. unfold range. by rewrite length_map, length_seq. Qed.

Lemma init_wf noise : map_wf (Map.init noise).
Proof.
  split; [done | done | |]; unfold Map.init, Map.tiles, Map.generate_map.
  - by rewrite length_map, range_length.
  - apply Forall_forall. intros row Hin.
    apply list_elem_of_In, in_map_iff in Hin as (y & <- & _).
    by rewrite length_map, range_length.
Qed.

Lemma list_getitem_in_range {A} (l : list A) i :
  0 <= i < Z.of_nat (length l) → ∃ a, list_getitem l i = Ok a ∧ a ∈ l.
Proof.
  intros Hi. unfold list_getitem.
  destruct (i <? 0) eqn:E1; [lia|]. rewrite E1.
  destruct (Z.of_nat (length l) <=? i) eqn:E2; [lia|]. simpl.
  destruct (nth_error l (Z.to_nat i)) as [a|] eqn:E3.
  - exists a. split; [done|]. apply list_elem_of_In. by eapply nth_error_In.
  - apply nth_error_None in E3. lia.
Qed.

Lemma list_getitem_beyond {A} (l : list A) i :
  Z.of_nat (length l) <= i → list_getitem l i = Raise IndexError.
Proof.
  intros Hi. unfold list_getitem.
  destruct (i <? 0) eqn:E1; [lia|]. rewrite E1.
  destruct (Z.of_nat (length l) <=? i) eqn:E2; [|lia]. done.
Qed.

Lemma tile_at_in_bounds m x y :
  map_wf m → 0 <= x < Map.width m → 0 <= y < Map.height m →
  is_Ok (Map.tile_at m x y).
Proof.
  intros [Hw Hh Hr Hc] Hx Hy. unfold Map.tile_at.
  destruct (list_getitem_in_range (Map.tiles m) y) as (row & -> & Hin); [lia|].
  simpl. rewrite Forall_forall in Hc. specialize (Hc row Hin).
  destruct (list_getitem_in_range row x) as (k & -> & _); [lia|].
  by eexists.
Qed.

(** The two guarded predicates answer on every coordinate, and answer
    [False] outside the grid. *)
Lemma is_walkable_total m x y :
  map_wf m →
  ∃ b, Map.is_walkable m x y = Ok b ∧
       (¬ (0 <= x < Map.width m ∧ 0 <= y < Map.height m) → b = false).
Proof.
  intros Hwf. unfold Map.is_walkable.
  destruct ((x <? 0) || (Map.width m <=? x) || (y <? 0) || (Map.height m <=? y)) eqn:E.
  - by exists false.
  - assert (0 <= x < Map.width m ∧ 0 <= y < Map.height m) as [Hx Hy] by lia.
    destruct (tile_at_in_bounds m x y Hwf Hx Hy) as [k ->]. simpl.
    eexists. split; [done|]. lia.
Qed.

Lemma is_tillable_total m x y :
  map_wf m →
  ∃ b, Map.is_tillable m x y = Ok b ∧
       (¬ (0 <= x < Map.width m ∧ 0 <= y < Map.height m) → b = false).
Proof.
  intros Hwf. unfold Map.is_tillable.
  destruct ((x <? 0) || (Map.width m <=? x) || (y <? 0) || (Map.height m <=? y)) eqn:E.
  - by exists false.
  - assert (0 <= x < Map.width m ∧ 0 <= y < Map.height m) as [Hx Hy] by lia.
    destruct (tile_at_in_bounds m x y Hwf Hx Hy) as [k ->]. simpl.
    eexists. split; [done|]. lia.
Qed.

End tile_predicates.

(** C9, at the input where the code departs from it: [is_sell_area] has no
    bounds guard, and on the generated 150 x 150 grid the coordinate
    (150, 0), one column past the right edge, raises IndexError instead of
    returning a boolean ([is_walkable] and [is_tillable] return False
    there). *)
Theorem is_sell_area_raises_past_the_edge (noise : Z → Z → Q) :
  Map.is_sell_area (Map.init noise) 150 0 = Raise IndexError ∧
  Map.is_walkable (Map.init noise) 150 0 = Ok false ∧
  Map.is_tillable (Map.init noise) 150 0 = Ok false.
Proof.
  split; [|done].
  unfold Map.is_sell_area, Map.tile_at.
  pose proof (init_wf noise) as [_ _ Hr Hc].
  destruct (list_getitem_in_range (Map.tiles (Map.init noise)) 0) as (row & -> & Hin).
  { rewrite Hr. done. }
  simpl. rewrite Forall_forall in Hc. specialize (Hc row Hin).
  rewrite list_getitem_beyond; [done|]. rewrite Hc. done.
Qed.

(** ** The catalog *)

Section catalog.

Lemma library_keys k : k ∈ Shop.library.*1 → k ∈ Shop.keys.
Proof.
  unfold Shop.library, PyDict.of_list. rewrite dict_update_keys.
  intros [Hin|Hin]; [by apply not_elem_of_nil in Hin|].
  apply list_elem_of_fmap in Hin as ([k' v] & -> & Hin).
  apply list_elem_of_In, in_combine_l, list_elem_of_In in Hin. done.
Qed.

Lemma calculate_sell_value_missing cost time :
  Forall (fun k => ¬ (k == cost)%Q) Shop.keys →
  Shop.calculate_sell_value cost time = None.
Proof.
  intros Hmiss. unfold Shop.calculate_sell_value.
  apply dict_get_None. intros Hin%library_keys.
  rewrite Forall_forall in Hmiss. apply (Hmiss _ Hin), Qred_correct.
Qed.

Lemma fill_ok data size_of : is_Ok (Shop.fill data size_of).
Proof.
  unfold Shop.fill. generalize (seq 0 (length data)). intros idx.
  assert (Hacc : is_Ok (Ok (PyDict.empty : PyDict.t string PlantType))) by by eexists.
  revert Hacc. generalize (Ok (PyDict.empty : PyDict.t string PlantType)).
  revert idx. induction data as [|[[n c] tm] data IH]; intros idx acc Hacc.
  - by rewrite combine_nil.
  - destruct idx as [|i idx]; [done|]. simpl. apply IH.
    destruct Hacc as [d ->]. by eexists.
Qed.


Lemma fill_rectangle data size_of d :
  Shop.fill data size_of = Ok d → all_rectangle d.
Proof.
  unfold Shop.fill. generalize (seq 0 (length data)). intros idx.
  assert (Hacc : ∀ d0, Ok (PyDict.empty : PyDict.t string PlantType) = Ok d0 →
                       all_rectangle d0).
  { intros d0 [= <-]. constructor. }
  revert Hacc. generalize (Ok (PyDict.empty : PyDict.t string PlantType)).
  revert idx d. induction data as [|[[n c] tm] data IH]; intros idx d acc Hacc.
  - rewrite combine_nil. simpl. apply Hacc.
  - destruct idx as [|i idx]; [apply Hacc|]. simpl. apply IH.
    intros d0. destruct acc as [d1|e]; simpl; [|done].
    intros [= <-]. apply dict_set_Forall; [by apply Hacc | done].
Qed.

Lemma tools_rectangle : all_rectangle Shop.tools.
Proof. unfold all_rectangle. rewrite Forall_forall. intros kv Hin.
       repeat (apply elem_of_cons in Hin as [->|Hin]; [done|]).
       by apply not_elem_of_nil in Hin. Qed.

(** The categories a shop is built with. *)
Lemma init_categories draws s :
  Shop.init draws = Ok s →
  ∃ c r m l,
    all_rectangle c ∧ all_rectangle r ∧ all_rectangle m ∧ all_rectangle l ∧
    Shop.get_all_plant_types s =
      PyDict.update
        (PyDict.update (PyDict.update (PyDict.update (PyDict.update PyDict.empty c) r) m) l)
        Shop.tools.
Proof.
  unfold Shop.init, Shop.create_plant_categories.
  destruct (Shop.fill Shop.plants_data _) as [c|] eqn:Ec; [|done].
  destruct (Shop.fill Shop.rare_data _) as [r|] eqn:Er; [|done].
  destruct (Shop.fill Shop.mythic_data _) as [m|] eqn:Em; [|done].
  destruct (Shop.fill Shop.legendary_data _) as [l|] eqn:El; [|done].
  intros [= <-]. exists c, r, m, l.
  repeat split; try (eapply fill_rectangle; eassumption).
Qed.

Lemma init_ok draws : is_Ok (Shop.init draws).
Proof.
  unfold Shop.init, Shop.create_plant_categories.
  destruct (fill_ok Shop.plants_data (fun _ => (1, 1))) as [c ->].
  destruct (fill_ok Shop.rare_data
              (fun i => choice (draws i) Shop.rare_sizes (1, 1))) as [r ->].
  destruct (fill_ok Shop.mythic_data
              (fun i => choice (draws (length Shop.rare_data + i)%nat)
                          Shop.mythic_sizes (1, 1))) as [m ->].
  destruct (fill_ok Shop.legendary_data (fun _ => (4, 4))) as [l ->].
  by eexists.
Qed.

(** Every entry of the catalog has the default shape. *)
Lemma catalog_rectangle draws s plant_name pt :
  Shop.init draws = Ok s →
  PyDict.get (Shop.get_all_plant_types s) plant_name = Some pt →
  shape pt = rectangle.
Proof.
  intros (c & r & m & l & Hc & Hr & Hm & Hl & ->)%init_categories Hget.
  apply dict_get_elem_of in Hget.
  assert (Hall : all_rectangle
            (PyDict.update
               (PyDict.update (PyDict.update (PyDict.update
                  (PyDict.update PyDict.empty c) r) m) l) Shop.tools)).
  { repeat apply dict_update_Forall; try done; try apply tools_rectangle. }
  unfold all_rectangle in Hall. rewrite Forall_forall in Hall.
  apply (Hall _ Hget).
Qed.


End catalog.

(** C3 as stated fails: a cost that is not a key of the table, such as 7,
    yields a constructed catalog entry and no error. *)
Lemma unknown_cost_does_not_fail :
  ¬ (∀ name cost time size,
       Forall (fun k => ¬ (k == cost)%Q) Shop.keys →
       ∃ e, Shop.make_plant (name, cost, time) size = Raise e).
Proof.
  intros Hclaim.
  destruct (Hclaim "Turnip" 7%Q 10%Q (1, 1)) as [e He].
  - apply Forall_forall. intros k Hk Heq.
    apply Qeq_bool_iff in Heq.
    assert (Hall : forallb (fun k => negb (Qeq_bool k 7)) Shop.keys = true) by reflexivity.
    rewrite forallb_forall in Hall. apply list_elem_of_In in Hk.
    specialize (Hall k Hk). rewrite Heq in Hall. discriminate.
  - discriminate He.
Qed.

(** C3, amended: for every seed cost that is not a key of the table, the
    lookup of calculate_sell_value returns None without an error, and the
    catalog entry is constructed with that undefined sell value. *)
Theorem unknown_cost_gives_undefined_sell_value plant_name cost time sz :
  Forall (fun k => ¬ (k == cost)%Q) Shop.keys →
  Shop.calculate_sell_value cost time = None ∧
  Shop.make_plant (plant_name, cost, time) sz =
    Ok {| name := plant_name; seed_cost := cost; sell_value := None;
          growth_time := time; size := sz; shape := rectangle |}.
Proof.
  intros Hmiss. pose proof (calculate_sell_value_missing cost time Hmiss) as Hnone.
  split; [done|]. unfold Shop.make_plant. by rewrite Hnone.
Qed.

Lemma unknown_cost_gives_undefined_sell_value_witness :
  Shop.calculate_sell_value 7 10 = None ∧
  Shop.make_plant ("Turnip", 7%Q, 10%Q) (1, 1) =
    Ok {| name := "Turnip"; seed_cost := 7; sell_value := None;
          growth_time := 10; size := (1, 1); shape := rectangle |}.
Proof.
  apply (unknown_cost_gives_undefined_sell_value "Turnip" 7%Q 10%Q (1, 1)).
  apply Forall_forall. intros k Hk Heq.
  apply Qeq_bool_iff in Heq.
  assert (Hall : forallb (fun k => negb (Qeq_bool k 7)) Shop.keys = true) by reflexivity.
  rewrite forallb_forall in Hall. apply list_elem_of_In in Hk.
  specialize (Hall k Hk). rewrite Heq in Hall. discriminate.
Defined.

(** ** Tool tiers *)


Section tool_tiers.



End tool_tiers.



(** ** Placement search *)


Section placement.
Import GameWorld.

Lemma elem_of_range n i : i ∈ range n ↔ 0 <= i < n.
Proof.
  unfold range. rewrite list_elem_of_In, in_map_iff. split.
  - intros (k & <- & Hk%in_seq). lia.
  - intros Hi. exists (Z.to_nat i). split; [lia|]. apply in_seq. lia.
Qed.

Lemma elem_of_range2 a b i : i ∈ range2 a b ↔ a <= i < b.
Proof.
  unfold range2. rewrite list_elem_of_In, in_map_iff. split.
  - intros (k & <- & Hk%in_seq). lia.
  - intros Hi. exists (Z.to_nat (i - a)). split; [lia|]. apply in_seq. lia.
Qed.

Lemma elem_of_checked_tiles x y sz c :
  c ∈ checked_tiles x y sz ↔
  ∃ dx dy, c = (x + dx, y + dy) ∧ 0 <= dx < sz.1 ∧ 0 <= dy < sz.2.
Proof.
  destruct sz as [wd ht]. unfold checked_tiles. simpl. rewrite list_elem_of_bind. split.
  - intros (dy & Hin & Hdy%elem_of_range).
    apply list_elem_of_bind in Hin as (dx & Hin & Hdx%elem_of_range).
    apply list_elem_of_singleton in Hin. by exists dx, dy.
  - intros (dx & dy & -> & Hdx & Hdy). exists dy.
    split; [|by apply elem_of_range].
    apply list_elem_of_bind. exists dx.
    split; [by apply list_elem_of_singleton | by apply elem_of_range].
Qed.

Lemma elem_of_ring px py r x y :
  0 <= r → (x, y) ∈ ring px py r ↔ chebyshev px py x y = r.
Proof.
  intros Hr. unfold ring, chebyshev.
  destruct (r =? 0) eqn:E.
  - rewrite list_elem_of_singleton. split; [intros [= -> ->]; lia|].
    intros Hm. f_equal; lia.
  - rewrite list_elem_of_bind. split.
    + intros (dx & Hin & Hdx%elem_of_range2).
      apply list_elem_of_bind in Hin as (dy & Hin & Hdy%elem_of_range2).
      destruct ((Z.abs dx =? r) || (Z.abs dy =? r)) eqn:E'.
      * apply list_elem_of_singleton in Hin as [= -> ->]. lia.
      * by apply not_elem_of_nil in Hin.
    + intros Hm. exists (x - px). split; [|apply elem_of_range2; lia].
      apply list_elem_of_bind. exists (y - py).
      split; [|apply elem_of_range2; lia].
      destruct ((Z.abs (x - px) =? r) || (Z.abs (y - py) =? r)) eqn:E'; [|lia].
      apply list_elem_of_singleton. f_equal; lia.
Qed.


Context (w : t) (noise : Z → Z → Q) (Hmap : map w = Map.init noise).

Lemma tile_free_spec c :
  ∃ b, tile_free w c = Ok b ∧ (b = true ↔ plantable w c).
Proof.
  destruct c as [cx cy]. unfold tile_free, plantable. simpl.
  destruct ((cx <? 0) || (MAP_WIDTH <=? cx) || (cy <? 0) || (MAP_HEIGHT <=? cy)) eqn:E.
  { exists false. split; [done|]. split; [done|]. lia. }
  destruct (is_tillable_total (map w) cx cy) as (b & Hb & _).
  { rewrite Hmap. apply init_wf. }
  rewrite Hb. simpl. destruct b; simpl.
  - destruct (plants w !! (cx, cy)) as [l|] eqn:El.
    + exists false. rewrite bool_decide_eq_true_2 by by eexists.
      split; [done|]. split; [done|]. intros (_ & _ & ?). done.
    + exists true. rewrite bool_decide_eq_false_2 by by intros [? ?].
      split; [done|]. split; [|done]. intros _. repeat split; try lia.
  - exists false. split; [done|]. split; [done|]. intros (_ & ? & _). done.
Qed.

Lemma all_free_spec cs :
  ∃ b, all_free w cs = Ok b ∧ (b = true ↔ ∀ c, c ∈ cs → plantable w c).
Proof.
  induction cs as [|c cs (b & Hb & IH)]; simpl.
  - exists true. split; [done|]. split; [|done]. intros _ c Hc.
    by apply not_elem_of_nil in Hc.
  - destruct (tile_free_spec c) as (b0 & -> & Hb0). simpl.
    destruct b0.
    + exists b. split; [done|]. rewrite IH. split.
      * intros Hall c' [->|Hc']%elem_of_cons; [by apply Hb0 | by apply Hall].
      * intros Hall c' Hc'. apply Hall. by right.
    + exists false. split; [done|]. split; [done|].
      intros Hall. apply Hb0, Hall. left.
Qed.

(** [can_plant_at] answers, and answers [True] exactly when every tile
    of the box is inside the grid, tillable and unclaimed. *)
Lemma can_plant_at_spec x y sz :
  ∃ b, can_plant_at w x y sz = Ok b ∧
       (b = true ↔ ∀ c, c ∈ checked_tiles x y sz → plantable w c).
Proof. apply all_free_spec. Qed.

Lemma can_plant_at_cases x y sz :
  can_plant_at w x y sz = Ok true ∨ can_plant_at w x y sz = Ok false.
Proof. destruct (can_plant_at_spec x y sz) as ([|] & -> & _); auto. Qed.

Lemma first_valid_spec sz ps :
  ∃ res, first_valid w sz ps = Ok res ∧
    match res with
    | Some c => c ∈ ps ∧ can_plant_at w c.1 c.2 sz = Ok true
    | None => ∀ c, c ∈ ps → can_plant_at w c.1 c.2 sz = Ok false
    end.
Proof.
  induction ps as [|[x y] ps (res & Hres & IH)]; simpl.
  - exists None. split; [done|]. intros c Hc. by apply not_elem_of_nil in Hc.
  - destruct (can_plant_at_cases x y sz) as [Hc|Hc]; rewrite Hc; simpl.
    + exists (Some (x, y)). split; [done|]. split; [left | done].
    + exists res. split; [done|]. destruct res as [c|].
      * destruct IH as [Hin Hok]. split; [by right | done].
      * intros c [->|Hin]%elem_of_cons; [done | by apply IH].
Qed.

Context (shuffle : Z → list (Z * Z) → list (Z * Z))
        (Hshuffle : ∀ r l, shuffle r l ≡ₚ l).

Lemma search_rings_spec px py sz n a :
  ∃ res,
    search_rings w shuffle px py sz (List.map Z.of_nat (seq a n)) = Ok res ∧
    match res with
    | Some c =>
        can_plant_at w c.1 c.2 sz = Ok true ∧
        Z.of_nat a <= chebyshev px py c.1 c.2 < Z.of_nat (a + n) ∧
        ∀ c', Z.of_nat a <= chebyshev px py c'.1 c'.2 < chebyshev px py c.1 c.2 →
              can_plant_at w c'.1 c'.2 sz = Ok false
    | None =>
        ∀ c', Z.of_nat a <= chebyshev px py c'.1 c'.2 < Z.of_nat (a + n) →
              can_plant_at w c'.1 c'.2 sz = Ok false
    end.
Proof.
  revert a. induction n as [|n IH]; intros a; simpl.
  - exists None. split; [done|]. intros c' Hc'. lia.
  - destruct (first_valid_spec sz (shuffle (Z.of_nat a) (ring px py (Z.of_nat a))))
      as (found & -> & Hfound). simpl.
    destruct found as [[x y]|].
    + exists (Some (x, y)). split; [done|]. destruct Hfound as [Hin Hok].
      rewrite Hshuffle in Hin. apply elem_of_ring in Hin; [|lia]. simpl in *.
      split; [done|]. split; [lia|]. intros c' Hc'. lia.
    + destruct (IH (S a)) as (res & -> & Hres). exists res. split; [done|].
      assert (Hring : ∀ c', chebyshev px py c'.1 c'.2 = Z.of_nat a →
                            can_plant_at w c'.1 c'.2 sz = Ok false).
      { intros [x' y'] Hc'. apply (Hfound (x', y')).
        rewrite Hshuffle. apply elem_of_ring; [lia | done]. }
      destruct res as [c|].
      * destruct Hres as (Hok & Hd & Hmin). split; [done|]. split; [lia|].
        intros c' Hc'.
        destruct (decide (chebyshev px py c'.1 c'.2 = Z.of_nat a)) as [Heq|Hne].
        -- by apply Hring.
        -- apply Hmin. lia.
      * intros c' Hc'.
        destruct (decide (chebyshev px py c'.1 c'.2 = Z.of_nat a)) as [Heq|Hne].
        -- by apply Hring.
        -- apply Hres. lia.
Qed.

Lemma chebyshev_nonneg px py x y : 0 <= chebyshev px py x y.
Proof. unfold chebyshev. lia. Qed.

Lemma find_within_spec R px py sz :
  ∃ res,
    find_planting_spot_within w shuffle R px py sz = Ok res ∧
    match res with
    | Some c =>
        can_plant_at w c.1 c.2 sz = Ok true ∧
        chebyshev px py c.1 c.2 <= R ∧
        ∀ c', can_plant_at w c'.1 c'.2 sz = Ok true →
              chebyshev px py c.1 c.2 <= chebyshev px py c'.1 c'.2
    | None =>
        ∀ c', chebyshev px py c'.1 c'.2 <= R →
              can_plant_at w c'.1 c'.2 sz = Ok false
    end.
Proof.
  unfold find_planting_spot_within, range.
  destruct (search_rings_spec px py sz (Z.to_nat (R + 1)) 0) as (res & -> & Hres).
  exists res. split; [done|]. destruct res as [c|].
  - destruct Hres as (Hok & Hd & Hmin). split; [done|]. split; [lia|].
    intros c' Hok'.
    destruct (Z_le_gt_dec (chebyshev px py c.1 c.2) (chebyshev px py c'.1 c'.2))
      as [|Hgt]; [done|].
    pose proof (chebyshev_nonneg px py c'.1 c'.2).
    rewrite Hmin in Hok' by lia. done.
  - intros c' Hc'. pose proof (chebyshev_nonneg px py c'.1 c'.2).
    apply Hres. lia.
Qed.

End placement.


(** C6: on the generated map, whatever permutations the shuffles apply,
    find_planting_spot completes; an origin it returns passes can_plant_at
    (every tile of the box is inside the grid, tillable and unclaimed), lies
    within the planting range in Chebyshev distance from the player tile and
    no origin passing can_plant_at is nearer; it returns no spot exactly
    when no origin within the planting range passes can_plant_at; and with
    planting range 0 the search returns the player's tile or no spot. *)
Theorem find_planting_spot_nearest_valid w noise shuffle px py sz R :
  GameWorld.map w = Map.init noise →
  (∀ r l, shuffle r l ≡ₚ l) →
  Player.get_planting_range (GameWorld.player w) = Ok R →
  ∃ res,
    GameWorld.find_planting_spot w shuffle px py sz = Ok res ∧
    (∀ x y, res = Some (x, y) →
       GameWorld.can_plant_at w x y sz = Ok true ∧
       (∀ c, c ∈ GameWorld.checked_tiles x y sz → plantable w c) ∧
       chebyshev px py x y <= R ∧
       ∀ x' y', GameWorld.can_plant_at w x' y' sz = Ok true →
                chebyshev px py x y <= chebyshev px py x' y') ∧
    (res = None ↔
       ∀ x' y', chebyshev px py x' y' <= R →
                GameWorld.can_plant_at w x' y' sz ≠ Ok true) ∧
    ∃ res0,
      GameWorld.find_planting_spot_within w shuffle 0 px py sz = Ok res0 ∧
      (res0 = None ∨ res0 = Some (px, py)).
Proof.
  intros Hmap Hshuffle HR.
  destruct (find_within_spec w noise Hmap shuffle Hshuffle R px py sz) as (res & Hres & Hspec).
  exists res. unfold GameWorld.find_planting_spot. rewrite HR. simpl.
  split; [done|]. split; [|split].
  - intros x y ->. destruct Hspec as (Hok & Hd & Hmin). simpl in *.
    split; [done|]. split.
    + destruct (can_plant_at_spec w noise Hmap x y sz) as (b & Hb & Hiff).
      rewrite Hb in Hok. injection Hok as ->. by apply Hiff.
    + split; [done|]. intros x' y' Hok'. apply (Hmin (x', y') Hok').
  - destruct res as [[x y]|].
    + destruct Hspec as (Hok & Hd & _). split; [done|].
      intros Hnone. exfalso. by apply (Hnone x y Hd).
    + split; [|done]. intros _ x' y' Hd Hok.
      pose proof (Hspec (x', y') Hd) as Hno. simpl in Hno. congruence.
  - destruct (find_within_spec w noise Hmap shuffle Hshuffle 0 px py sz)
      as (res0 & Hres0 & Hspec0).
    exists res0. split; [done|]. destruct res0 as [[x y]|]; [|by left].
    right. destruct Hspec0 as (_ & Hd & _). unfold chebyshev in Hd. simpl in Hd.
    do 2 f_equal; lia.
Qed.

(** The player of [soil_world] with a 2 x 1 seed and an unshuffled scan. *)
Lemma find_planting_spot_nearest_valid_witness :
  ∃ res,
    GameWorld.find_planting_spot soil_world (fun _ l => l) 85 75 (2, 1) = Ok res ∧
    (∀ x y, res = Some (x, y) →
       GameWorld.can_plant_at soil_world x y (2, 1) = Ok true ∧
       (∀ c, c ∈ GameWorld.checked_tiles x y (2, 1) → plantable soil_world c) ∧
       chebyshev 85 75 x y <= 2 ∧
       ∀ x' y', GameWorld.can_plant_at soil_world x' y' (2, 1) = Ok true →
                chebyshev 85 75 x y <= chebyshev 85 75 x' y') ∧
    (res = None ↔
       ∀ x' y', chebyshev 85 75 x' y' <= 2 →
                GameWorld.can_plant_at soil_world x' y' (2, 1) ≠ Ok true) ∧
    ∃ res0,
      GameWorld.find_planting_spot_within soil_world (fun _ l => l) 0 85 75 (2, 1) = Ok res0 ∧
      (res0 = None ∨ res0 = Some (85, 75)).
Proof.
  apply (find_planting_spot_nearest_valid soil_world (fun _ _ => 0%Q)
           (fun _ l => l) 85 75 (2, 1) 2).
  - reflexivity.
  - reflexivity.
  - reflexivity.
Defined.

(** ** The field index *)


Section field.
Import GameWorld.

Lemma lookup_foldl_insert (P : gmap (Z * Z) loc) ks l k :
  foldl (fun m tile => <[tile := l]> m) P ks !! k =
    if decide (k ∈ ks) then Some l else P !! k.
Proof.
  revert P. induction ks as [|k0 ks IH]; intros P.
  - destruct (decide (k ∈ [])) as [Hin|_]; [|done]. by apply not_elem_of_nil in Hin.
  - change (foldl (fun m tile => <[tile := l]> m) (<[k0 := l]> P) ks !! k =
              if decide (k ∈ k0 :: ks) then Some l else P !! k).
    rewrite IH. destruct (decide (k ∈ ks)) as [Hin|Hnin].
    + destruct (decide (k ∈ k0 :: ks)) as [|Hn]; [done|]. exfalso. apply Hn. by right.
    + destruct (decide (k = k0)) as [->|Hne].
      * rewrite lookup_insert_eq.
        destruct (decide (k0 ∈ k0 :: ks)) as [|Hn]; [done|]. exfalso. apply Hn. left.
      * rewrite lookup_insert_ne by done.
        destruct (decide (k ∈ k0 :: ks)) as [[?|?]%elem_of_cons|]; done.
Qed.

Lemma lookup_foldl_delete (P : gmap (Z * Z) loc) ks k :
  foldl (fun m tile => delete tile m) P ks !! k =
    if decide (k ∈ ks) then None else P !! k.
Proof.
  revert P. induction ks as [|k0 ks IH]; intros P.
  - destruct (decide (k ∈ [])) as [Hin|_]; [|done]. by apply not_elem_of_nil in Hin.
  - change (foldl (fun m tile => delete tile m) (delete k0 P) ks !! k =
              if decide (k ∈ k0 :: ks) then None else P !! k).
    rewrite IH. destruct (decide (k ∈ ks)) as [Hin|Hnin].
    + destruct (decide (k ∈ k0 :: ks)) as [|Hn]; [done|]. exfalso. apply Hn. by right.
    + destruct (decide (k = k0)) as [->|Hne].
      * rewrite lookup_delete_eq.
        destruct (decide (k0 ∈ k0 :: ks)) as [|Hn]; [done|]. exfalso. apply Hn. left.
      * rewrite lookup_delete_ne by done.
        destruct (decide (k ∈ k0 :: ks)) as [[?|?]%elem_of_cons|]; done.
Qed.

Lemma lookup_without (log : list loc) (P : gmap (Z * Z) loc) (k : Z * Z) :
  without log P !! k =
    match P !! k with
    | Some l => if decide (l ∈ log) then None else Some l
    | None => None
    end.
Proof.
  unfold without. destruct (P !! k) as [l|] eqn:E.
  - destruct (decide (l ∈ log)) as [Hin|Hnin].
    + apply map_lookup_filter_None. right. intros l' Hl'. simpl.
      assert (l' = l) as -> by congruence. auto.
    + apply map_lookup_filter_Some. done.
  - apply map_lookup_filter_None. by left.
Qed.

Lemma without_nil (P : gmap (Z * Z) loc) : without [] P = P.
Proof.
  apply map_eq. intros k. rewrite lookup_without.
  destruct (P !! k); [|done]. rewrite decide_False; [done | apply not_elem_of_nil].
Qed.

Lemma without_cons (l : loc) (log : list loc) (P : gmap (Z * Z) loc) :
  without log (without [l] P) = without (l :: log) P.
Proof.
  apply map_eq. intros k. rewrite !lookup_without.
  destruct (P !! k) as [l'|]; [|done].
  destruct (decide (l' ∈ [l])) as [Hin|Hnin].
  - apply list_elem_of_singleton in Hin as ->.
    rewrite decide_True; [done | left].
  - rewrite list_elem_of_singleton in Hnin.
    destruct (decide (l' ∈ log)) as [Hin'|Hnin'].
    + rewrite decide_True; [done | by right].
    + rewrite decide_False; [done|]. by intros [?|?]%elem_of_cons.
Qed.

(** Deleting the footprint of a referenced plant removes exactly the
    keys that refer to it. *)
Lemma delete_footprint P h k l :
  field_wf P h → P !! k = Some l →
  foldl (fun m tile => delete tile m) P (Plant.get_occupied_tiles (h l)) = without [l] P.
Proof.
  intros [Hcov Hreg] Hk. apply map_eq. intros k'.
  rewrite lookup_foldl_delete, lookup_without.
  destruct (decide (k' ∈ Plant.get_occupied_tiles (h l))) as [Hin|Hnin].
  - rewrite (Hreg k l k' Hk Hin). rewrite decide_True; [done | left].
  - destruct (P !! k') as [l'|] eqn:E; [|done].
    rewrite decide_False; [done|]. intros ->%list_elem_of_singleton.
    apply Hnin. by apply Hcov.
Qed.

Lemma without_wf (log : list loc) P h : field_wf P h → field_wf (without log P) h.
Proof.
  intros [Hcov Hreg]. split.
  - intros k l. rewrite lookup_without.
    destruct (P !! k) as [l'|] eqn:E; [|done].
    destruct (decide _); [done|]. intros [= <-]. by apply Hcov.
  - intros k l k'. rewrite !lookup_without.
    destruct (P !! k) as [l'|] eqn:E; [|done].
    destruct (decide _) as [|Hnin]; [done|]. intros [= <-] Hin.
    rewrite (Hreg k l' k' E Hin). by rewrite decide_False.
Qed.

Section scan.
Context (h : loc → Plant.t) (px py r : Z).


(** One iteration either harvests the plant of the scanned tile or
    leaves the state as it is. *)
Lemma harvest_at_cases P inv dx dy :
  field_wf P h →
  (∃ l, dx * dx + dy * dy <= r * r ∧ P !! (px + dx, py + dy) = Some l ∧
        Plant.harvestable (h l) = true ∧
        harvest_at h px py r (P, inv) (dx, dy) =
          (without [l] P, Inventory.add_item inv (name (Plant.plant_type (h l))) 1))
  ∨ ((∀ l, dx * dx + dy * dy <= r * r → P !! (px + dx, py + dy) = Some l →
           Plant.harvestable (h l) = false) ∧
     harvest_at h px py r (P, inv) (dx, dy) = (P, inv)).
Proof.
  intros Hwf. unfold harvest_at. cbn [fst snd].
  destruct (dx * dx + dy * dy <=? r * r) eqn:Ec; [|right; split; [lia | done]].
  destruct (P !! (px + dx, py + dy)) as [l|] eqn:El; [|right; split; done].
  destruct (Plant.harvestable (h l)) eqn:Hh.
  - left. exists l. rewrite (delete_footprint P h _ l Hwf El).
    repeat split; try done. lia.
  - right. split; [|done]. by intros l' _ [= <-].
Qed.

Lemma harvest_fold_spec ds : ∀ P inv,
  field_wf P h →
  ∃ log, NoDup log ∧ (∀ l, l ∈ log ↔ scanned h px py r P ds l) ∧
         foldl (harvest_at h px py r) (P, inv) ds = (without log P, credit h inv log).
Proof.
  induction ds as [|[dx dy] ds IH]; intros P inv Hwf.
  - exists []. split; [constructor|]. split.
    + intros l. split; [by intros ?%not_elem_of_nil|].
      intros (_ & d & Hd & _). by apply not_elem_of_nil in Hd.
    + simpl. by rewrite without_nil.
  - cbn [foldl].
    destruct (harvest_at_cases P inv dx dy Hwf)
      as [(l & Hc & El & Hh & ->) | (Hno & ->)].
    + destruct (IH (without [l] P)
                   (Inventory.add_item inv (name (Plant.plant_type (h l))) 1)
                   (without_wf [l] P h Hwf)) as (log & Hnd & Hlog & Hfold).
      exists (l :: log). split; [|split].
      * constructor; [|done]. rewrite Hlog. intros (_ & d & _ & _ & Hl).
        rewrite lookup_without in Hl.
        destruct (P !! (px + d.1, py + d.2)) as [l'|]; [|done].
        destruct (decide (l' ∈ [l])) as [|Hnin]; [done|].
        injection Hl as ->. apply Hnin. left.
      * intros l'. rewrite elem_of_cons, Hlog. unfold scanned. split.
        -- intros [->|(Hh' & d & Hd & Hc' & Hl)].
           ++ split; [done|]. exists (dx, dy). split; [left | done].
           ++ split; [done|]. exists d. split; [by right|]. split; [done|].
              rewrite lookup_without in Hl.
              destruct (P !! (px + d.1, py + d.2)) as [l''|]; [|done].
              destruct (decide _); [done | congruence].
        -- intros (Hh' & d & Hd & Hc' & Hl).
           destruct (decide (l' = l)) as [->|Hne]; [by left|]. right.
           split; [done|]. apply elem_of_cons in Hd as [->|Hd].
           { simpl in Hl. congruence. }
           exists d. split; [done|]. split; [done|].
           rewrite lookup_without, Hl. rewrite decide_False; [done|].
           by intros ?%list_elem_of_singleton.
      * rewrite Hfold, without_cons. done.
    + destruct (IH P inv Hwf) as (log & Hnd & Hlog & Hfold).
      exists log. split; [done|]. split; [|done].
      intros l. rewrite Hlog. unfold scanned. split.
      * intros (Hh & d & Hd & Hc & Hl). split; [done|]. exists d.
        split; [by right | done].
      * intros (Hh & d & Hd & Hc & Hl). split; [done|].
        apply elem_of_cons in Hd as [->|Hd]; [|by exists d].
        simpl in *. rewrite (Hno l Hc Hl) in Hh. done.
Qed.
End scan.

Lemma elem_of_scan_offsets r dx dy :
  (dx, dy) ∈ scan_offsets r ↔ - r <= dx <= r ∧ - r <= dy <= r.
Proof.
  unfold scan_offsets. rewrite list_elem_of_bind. split.
  - intros (dy' & Hin & Hdy%elem_of_range2).
    apply list_elem_of_bind in Hin as (dx' & Hin & Hdx%elem_of_range2).
    apply list_elem_of_singleton in Hin as [= -> ->]. lia.
  - intros [Hdx Hdy]. exists dy. split; [|apply elem_of_range2; lia].
    apply list_elem_of_bind. exists dx. split; [|apply elem_of_range2; lia].
    by apply list_elem_of_singleton.
Qed.

Lemma list_getitem_elem_of {A} (l : list A) i a : list_getitem l i = Ok a → a ∈ l.
Proof.
  unfold list_getitem. destruct (_ || _); [done|].
  destruct (nth_error _ _) eqn:E; [|done]. intros [= <-].
  apply list_elem_of_In. by eapply nth_error_In.
Qed.

Lemma square_le_bound a r : 0 <= r → a * a <= r * r → - r <= a <= r.
Proof. intros Hr Ha. split; nia. Qed.

(** The scan of [handle_harvesting] on a well-formed field. *)
Lemma harvest_scan_spec h px py r P inv :
  0 <= r → field_wf P h →
  ∃ log, NoDup log ∧
    (∀ l, l ∈ log ↔
          live P l ∧ Plant.harvestable (h l) = true ∧
          ∃ k, k ∈ Plant.get_occupied_tiles (h l) ∧ within px py r k) ∧
    harvest_scan h px py r (P, inv) = (without log P, credit h inv log).
Proof.
  intros Hr Hwf. unfold harvest_scan.
  destruct (harvest_fold_spec h px py r (scan_offsets r) P inv Hwf)
    as (log & Hnd & Hlog & Hfold).
  exists log. split; [done|]. split; [|done].
  intros l. rewrite Hlog. unfold scanned, live, within. split.
  - intros (Hh & [dx dy] & Hd & Hc & Hl). simpl in *.
    split; [by eexists|]. split; [done|].
    exists (px + dx, py + dy). split; [by eapply wf_covers|]. simpl. lia.
  - intros ([k0 Hk0] & Hh & [kx ky] & Hin & Hc). simpl in *. split; [done|].
    exists (kx - px, ky - py). simpl. split.
    + apply elem_of_scan_offsets.
      split; apply square_le_bound; try done.
      * pose proof (Z.square_nonneg (ky - py)). lia.
      * pose proof (Z.square_nonneg (kx - px)). lia.
    + split; [lia|].
      replace (px + (kx - px)) with kx by lia. replace (py + (ky - py)) with ky by lia.
      by eapply wf_registered.
Qed.

End field.

(** ** Harvesting *)

Section harvest.
Import GameWorld.

Lemma credit_seeds h inv log : Inventory.seeds (credit h inv log) = Inventory.seeds inv.
Proof.
  revert inv. induction log as [|l log IH]; intros inv; [done|].
  unfold credit in *. cbn [foldl]. by rewrite IH.
Qed.

(** The count of an item grows by the number of credited plants of that
    item. *)
Lemma credit_items h inv log n :
  default 0 (PyDict.get (Inventory.items (credit h inv log)) n) =
    default 0 (PyDict.get (Inventory.items inv) n) +
    Z.of_nat (length (filter (fun l => name (Plant.plant_type (h l)) = n) log)).
Proof.
  revert inv. induction log as [|l log IH]; intros inv; [simpl; lia|].
  unfold credit in *. cbn [foldl]. rewrite IH.
  unfold Inventory.add_item. cbn [Inventory.items]. rewrite dict_get_set.
  rewrite filter_cons.
  destruct (decide (n = name (Plant.plant_type (h l)))) as [->|Hne].
  - rewrite decide_True by done. simpl. lia.
  - rewrite decide_False by done. lia.
Qed.

End harvest.

(** C4: on a field that satisfies the field-index invariant, a harvest at
    the player tile with harvest range r completes and harvests a
    duplicate-free list of plants, namely every live HARVESTABLE cultivar
    with a footprint tile at Euclidean distance at most r from the player
    tile and no other; each of them is removed from every tile of its
    footprint, the other tiles keep their plant, and the harvested-item
    counts receive exactly one unit per harvested cultivar. *)
Theorem harvest_removes_footprint_credits_once w r :
  field_wf (GameWorld.plants w) (GameWorld.heap w) →
  Player.get_harvest_range (GameWorld.player w) = Ok r →
  ∃ w' log,
    GameWorld.handle_harvesting w = Ok w' ∧
    NoDup log ∧
    (∀ l, l ∈ log ↔
          live (GameWorld.plants w) l ∧
          Plant.harvestable (GameWorld.heap w l) = true ∧
          ∃ k, k ∈ Plant.get_occupied_tiles (GameWorld.heap w l) ∧
               within (Player.get_tile_position (GameWorld.player w)).1
                      (Player.get_tile_position (GameWorld.player w)).2 r k) ∧
    GameWorld.plants w' = without log (GameWorld.plants w) ∧
    (∀ l k, l ∈ log → k ∈ Plant.get_occupied_tiles (GameWorld.heap w l) →
            GameWorld.plants w' !! k = None) ∧
    (∀ k l, GameWorld.plants w !! k = Some l → l ∉ log →
            GameWorld.plants w' !! k = Some l) ∧
    Player.inventory (GameWorld.player w') =
      credit (GameWorld.heap w) (Player.inventory (GameWorld.player w)) log ∧
    (∀ n, default 0 (PyDict.get (Inventory.items (Player.inventory (GameWorld.player w'))) n) =
          default 0 (PyDict.get (Inventory.items (Player.inventory (GameWorld.player w))) n) +
          Z.of_nat (length (filter
            (fun l => name (Plant.plant_type (GameWorld.heap w l)) = n) log))) ∧
    GameWorld.heap w' = GameWorld.heap w.
Proof.
  intros Hwf Hr.
  assert (0 <= r) as Hr0.
  { apply list_getitem_elem_of in Hr.
    repeat (apply elem_of_cons in Hr as [->|Hr]; [lia|]). by apply not_elem_of_nil in Hr. }
  unfold GameWorld.handle_harvesting.
  destruct (Player.get_tile_position (GameWorld.player w)) as [px py] eqn:Epos.
  rewrite Hr. cbn [mbind result_bind fst snd].
  destruct (harvest_scan_spec (GameWorld.heap w) px py r (GameWorld.plants w)
              (Player.inventory (GameWorld.player w)) Hr0 Hwf)
    as (log & Hnd & Hlog & ->).
  eexists _, log. split; [reflexivity|]. cbn.
  split_and!; try done.
  - intros l k Hl Hk. rewrite lookup_without.
    pose proof (proj1 (Hlog l) Hl) as ([k0 Hk0] & _).
    rewrite (wf_registered _ _ Hwf k0 l k Hk0 Hk). by rewrite decide_True.
  - intros k l Hk Hl. rewrite lookup_without, Hk. by rewrite decide_False.
  - intros n. apply credit_items.
Qed.


Lemma harvest_removes_footprint_credits_once_witness :
  ∃ w' log,
    GameWorld.handle_harvesting radish_world = Ok w' ∧
    NoDup log ∧
    (∀ l, l ∈ log ↔
          live (GameWorld.plants radish_world) l ∧
          Plant.harvestable (GameWorld.heap radish_world l) = true ∧
          ∃ k, k ∈ Plant.get_occupied_tiles (GameWorld.heap radish_world l) ∧
               within (Player.get_tile_position (GameWorld.player radish_world)).1
                      (Player.get_tile_position (GameWorld.player radish_world)).2 1 k) ∧
    GameWorld.plants w' = without log (GameWorld.plants radish_world) ∧
    (∀ l k, l ∈ log → k ∈ Plant.get_occupied_tiles (GameWorld.heap radish_world l) →
            GameWorld.plants w' !! k = None) ∧
    (∀ k l, GameWorld.plants radish_world !! k = Some l → l ∉ log →
            GameWorld.plants w' !! k = Some l) ∧
    Player.inventory (GameWorld.player w') =
      credit (GameWorld.heap radish_world)
             (Player.inventory (GameWorld.player radish_world)) log ∧
    (∀ n, default 0 (PyDict.get (Inventory.items (Player.inventory (GameWorld.player w'))) n) =
          default 0 (PyDict.get
            (Inventory.items (Player.inventory (GameWorld.player radish_world))) n) +
          Z.of_nat (length (filter
            (fun l => name (Plant.plant_type (GameWorld.heap radish_world l)) = n) log))) ∧
    GameWorld.heap w' = GameWorld.heap radish_world.
Proof.
  apply (harvest_removes_footprint_credits_once radish_world 1).
  - split; cbn [GameWorld.plants GameWorld.heap radish_world].
    + intros k l [<- <-]%lookup_singleton_Some. left.
    + intros k l k' [<- <-]%lookup_singleton_Some Hk'.
      apply list_elem_of_singleton in Hk' as ->. apply lookup_singleton_eq.
  - reflexivity.
Defined.

(** ** Planting and the reachable worlds *)


Section planting.
Import GameWorld.

(** For the default shape the footprint is the list of tiles that
    [can_plant_at] visits, in the same order. *)
Lemma rectangle_footprint p :
  shape (Plant.plant_type p) = rectangle →
  Plant.get_occupied_tiles p =
    checked_tiles (Plant.x p) (Plant.y p) (size (Plant.plant_type p)).
Proof.
  intros Hs. unfold Plant.get_occupied_tiles, checked_tiles.
  destruct (size (Plant.plant_type p)) as [wd ht]. by rewrite Hs.
Qed.

Lemma all_free_true w cs :
  all_free w cs = Ok true → ∀ c, c ∈ cs → plants w !! c = None.
Proof.
  induction cs as [|c cs IH]; simpl; intros Hall c' Hc'.
  - by apply not_elem_of_nil in Hc'.
  - destruct (tile_free w c) as [[|]|] eqn:Ec; simpl in Hall; try done.
    apply elem_of_cons in Hc' as [->|Hc']; [|by apply IH].
    unfold tile_free in Ec. destruct c as [cx cy].
    destruct (_ || _); [done|].
    destruct (Map.is_tillable _ _ _) as [[|]|]; simpl in Ec; try done.
    destruct (plants w !! (cx, cy)) as [l|] eqn:El; [|done].
    rewrite bool_decide_eq_true_2 in Ec by by eexists. done.
Qed.

Lemma first_valid_some w sz ps c :
  first_valid w sz ps = Ok (Some c) → can_plant_at w c.1 c.2 sz = Ok true.
Proof.
  induction ps as [|[x y] ps IH]; simpl; [done|].
  destruct (can_plant_at w x y sz) as [[|]|] eqn:E; simpl; try done.
  by intros [= <-].
Qed.

Lemma search_rings_some w shuffle px py sz radii c :
  search_rings w shuffle px py sz radii = Ok (Some c) →
  can_plant_at w c.1 c.2 sz = Ok true.
Proof.
  induction radii as [|r radii IH]; simpl; [done|].
  destruct (first_valid w sz _) as [[c'|]|] eqn:E; simpl; try done.
  intros [= <-]. by eapply first_valid_some.
Qed.

(** A spot found by the search passed [can_plant_at], whatever the
    shuffles did. *)
Lemma find_planting_spot_some w shuffle px py sz x y :
  find_planting_spot w shuffle px py sz = Ok (Some (x, y)) →
  can_plant_at w x y sz = Ok true.
Proof.
  unfold find_planting_spot, find_planting_spot_within.
  destruct (Player.get_planting_range _); simpl; [|done].
  apply (search_rings_some w shuffle px py sz _ (x, y)).
Qed.

Lemma field_wf_ext P h h' :
  (∀ l, Plant.get_occupied_tiles (h' l) = Plant.get_occupied_tiles (h l)) →
  field_wf P h → field_wf P h'.
Proof.
  intros Hext [Hcov Hreg]. split.
  - intros k l Hk. rewrite Hext. by apply Hcov.
  - intros k l k' Hk. rewrite Hext. by apply (Hreg k).
Qed.

Lemma update_footprint p now wm fm tile p' :
  Plant.update p now wm fm tile = Ok p' →
  Plant.get_occupied_tiles p' = Plant.get_occupied_tiles p.
Proof.
  unfold Plant.update. destruct (Plant.harvestable p); [by intros [= <-]|].
  destruct (Qeq_bool _ _); [done|]. by intros [= <-].
Qed.

Lemma update_plants_loop_footprint m wm fm clock refs : ∀ i h h',
  update_plants_loop m wm fm clock i refs h = Ok h' →
  ∀ l, Plant.get_occupied_tiles (h' l) = Plant.get_occupied_tiles (h l).
Proof.
  induction refs as [|l0 refs IH]; intros i h h'; simpl.
  - by intros [= <-].
  - destruct (Map.tile_at m _ _) as [tile|]; simpl; [|done].
    destruct (Plant.update (h l0) _ _ _ _) as [p'|] eqn:Eu; simpl; [|done].
    intros Hloop l. rewrite (IH _ _ _ Hloop l).
    destruct (decide (l = l0)) as [->|]; [|done]. by eapply update_footprint.
Qed.

(** Registering a plant of rectangular footprint on a spot that passed
    [can_plant_at] keeps the field index well formed. *)
Lemma planting_inv s0 w pt x y now inv' :
  world_inv s0 w →
  shape pt = rectangle →
  can_plant_at w x y (size pt) = Ok true →
  world_inv s0
    {| map := map w;
       player := Shop.set_inventory (player w) inv';
       plants := foldl (fun m tile => <[tile := next_loc w]> m) (plants w)
                       (Plant.get_occupied_tiles (Plant.init pt x y now));
       heap := fun l' => if decide (l' = next_loc w)
                         then Plant.init pt x y now else heap w l';
       next_loc := S (next_loc w);
       weather := weather w; shop := shop w;
       error_message := error_message w; error_timer := error_timer w |}.
Proof.
  intros [[Hcov Hreg] Hshop Hfresh] Hrect Hok.
  assert (Hfree : ∀ c, c ∈ Plant.get_occupied_tiles (Plant.init pt x y now) →
                       plants w !! c = None).
  { rewrite rectangle_footprint by done. by apply all_free_true. }
  set (p := Plant.init pt x y now) in *.
  split; cbn [plants heap next_loc shop]; [split| done |].
  - intros k l. rewrite lookup_foldl_insert.
    destruct (decide (k ∈ Plant.get_occupied_tiles p)) as [Hin|Hnin].
    + intros [= <-]. by rewrite decide_True.
    + intros Hk. pose proof (Hfresh k l Hk).
      rewrite decide_False by lia. by apply Hcov.
  - intros k l k'. rewrite !lookup_foldl_insert.
    destruct (decide (k ∈ Plant.get_occupied_tiles p)) as [Hin|Hnin].
    + intros [= <-]. rewrite decide_True by done. intros Hin'.
      by rewrite decide_True.
    + intros Hk. pose proof (Hfresh k l Hk).
      rewrite decide_False by lia. intros Hin'.
      pose proof (Hreg k l k' Hk Hin') as Hk'.
      destruct (decide (k' ∈ Plant.get_occupied_tiles p)) as [Hin''|]; [|done].
      rewrite (Hfree k' Hin'') in Hk'. done.
  - intros k l. rewrite lookup_foldl_insert.
    destruct (decide _); [intros [= <-]; lia|].
    intros Hk. pose proof (Hfresh k l Hk). lia.
Qed.

Lemma handle_planting_inv draws s0 w shuffle now w' :
  Shop.init draws = Ok s0 → world_inv s0 w →
  handle_planting w shuffle now = Ok w' → world_inv s0 w'.
Proof.
  intros Hs0 Hinv. unfold handle_planting.
  destruct (Player.get_tile_position (player w)) as [px py].
  destruct (List.find _ _) as [[plant_name q]|]; [|by intros [= <-]; destruct Hinv].
  unfold PyDict.getitem.
  destruct (PyDict.get _ plant_name) as [pt|] eqn:Ept; simpl; [|done].
  destruct (find_planting_spot w shuffle px py (size pt)) as [[[x y]|]|] eqn:Ef;
    simpl; [| by intros [= <-]; destruct Hinv | done].
  intros [= <-]. apply planting_inv; [done| |by eapply find_planting_spot_some].
  rewrite (inv_shop _ _ Hinv) in Ept. by eapply catalog_rectangle.
Qed.

Lemma handle_harvesting_inv s0 w w' :
  world_inv s0 w → handle_harvesting w = Ok w' → world_inv s0 w'.
Proof.
  intros [Hwf Hshop Hfresh]. unfold handle_harvesting.
  destruct (Player.get_tile_position (player w)) as [px py].
  destruct (Player.get_harvest_range (player w)) as [r|] eqn:Er; simpl; [|done].
  assert (0 <= r) as Hr0.
  { apply list_getitem_elem_of in Er.
    repeat (apply elem_of_cons in Er as [->|Er]; [lia|]). by apply not_elem_of_nil in Er. }
  destruct (harvest_scan_spec (heap w) px py r (plants w)
              (Player.inventory (player w)) Hr0 Hwf) as (log & _ & _ & ->).
  intros [= <-]. split; cbn [plants heap next_loc shop]; [|done|].
  - by apply without_wf.
  - intros k l. rewrite lookup_without.
    destruct (plants w !! k) as [l'|] eqn:E; [|done].
    destruct (decide _); [done|]. intros [= <-]. by eapply Hfresh.
Qed.

Lemma step_inv draws s0 w e w' :
  Shop.init draws = Ok s0 → world_inv s0 w → step w e = Ok w' → world_inv s0 w'.
Proof.
  intros Hs0 Hinv. destruct e; simpl.
  - destruct (Player.update _ _ _ _); simpl; [|done]. intros [= <-]. by destruct Hinv.
  - intros [= <-]. by destruct Hinv.
  - unfold update_plants.
    destruct (Player.get_fertilizer_multiplier _); simpl; [|done].
    destruct (update_plants_loop _ _ _ _ _ _ _) as [h|] eqn:El; simpl; [|done].
    intros [= <-]. destruct Hinv as [Hwf Hshop Hfresh].
    split; cbn [plants heap next_loc shop set_heap]; try done.
    eapply field_wf_ext; [|done]. by eapply update_plants_loop_footprint.
  - by apply handle_planting_inv with draws.
  - by apply handle_harvesting_inv.
  - destruct (Shop.buy_seeds _ _ _ _); simpl; [|done]. intros [= <-]. by destruct Hinv.
  - destruct (is_in_sell_area w) as [[|]|]; simpl; [| by intros [= <-] | done].
    destruct (Shop.sell_all_items _ _); simpl; [|done]. intros [= <-]. by destruct Hinv.
Qed.

Lemma run_inv draws s0 es : ∀ w w',
  Shop.init draws = Ok s0 → world_inv s0 w → run w es = Ok w' → world_inv s0 w'.
Proof.
  induction es as [|e es IH]; intros w w' Hs0 Hinv; simpl.
  - by intros [= <-].
  - destruct (step w e) as [w1|] eqn:E1; simpl; [|done].
    apply IH; [done|]. by eapply step_inv.
Qed.

Lemma init_world_inv noise draws w0 :
  init noise draws = Ok w0 → ∃ s0, Shop.init draws = Ok s0 ∧ world_inv s0 w0.
Proof.
  unfold init. destruct (Shop.init draws) as [s0|]; simpl; [|done].
  intros [= <-]. exists s0. split; [done|]. split; simpl; done.
Qed.

End planting.

(** C1: in every world reached from the initial one (an empty field) by
    any sequence of completed frame events (moving, weather, growth,
    buying, selling, planting, harvesting), every tile key of the plants
    mapping refers to exactly one plant, whose occupied tiles include that
    key; no tile lies in the footprints of two live cultivars; and a key is
    present exactly when the footprint of a live cultivar covers it. *)
Theorem planting_harvesting_keep_occupancy_exclusive noise draws w0 es w :
  GameWorld.init noise draws = Ok w0 →
  GameWorld.run w0 es = Ok w →
  (∀ k, is_Some (GameWorld.plants w !! k) →
        ∃ l, (GameWorld.plants w !! k = Some l ∧
              k ∈ Plant.get_occupied_tiles (GameWorld.heap w l)) ∧
             ∀ l', GameWorld.plants w !! k = Some l' → l' = l) ∧
  (∀ l1 l2 k,
     live (GameWorld.plants w) l1 → live (GameWorld.plants w) l2 →
     k ∈ Plant.get_occupied_tiles (GameWorld.heap w l1) →
     k ∈ Plant.get_occupied_tiles (GameWorld.heap w l2) →
     l1 = l2) ∧
  (∀ k, is_Some (GameWorld.plants w !! k) ↔
        ∃ l, live (GameWorld.plants w) l ∧
             k ∈ Plant.get_occupied_tiles (GameWorld.heap w l)).
Proof.
  intros Hinit Hrun.
  destruct (init_world_inv noise draws w0 Hinit) as (s0 & Hs0 & Hinv0).
  destruct (run_inv draws s0 es w0 w Hs0 Hinv0 Hrun) as [[Hcov Hreg] _ _].
  split_and!.
  - intros k [l Hl]. exists l. split; [split; [done | by apply Hcov]|].
    intros l' Hl'. congruence.
  - intros l1 l2 k [k1 Hk1] [k2 Hk2] Hin1 Hin2.
    pose proof (Hreg k1 l1 k Hk1 Hin1). pose proof (Hreg k2 l2 k Hk2 Hin2). congruence.
  - intros k. split.
    + intros [l Hl]. exists l. split; [by exists k | by apply Hcov].
    + intros (l & [k0 Hk0] & Hin). exists l. by eapply Hreg.
Qed.


Lemma planting_harvesting_keep_occupancy_exclusive_witness :
  ∃ w0 w,
    GameWorld.init (fun _ _ => 0%Q) (fun _ => O) = Ok w0 ∧
    GameWorld.run w0 demo_events = Ok w ∧
    (∀ k, is_Some (GameWorld.plants w !! k) →
          ∃ l, (GameWorld.plants w !! k = Some l ∧
                k ∈ Plant.get_occupied_tiles (GameWorld.heap w l)) ∧
               ∀ l', GameWorld.plants w !! k = Some l' → l' = l) ∧
    (∀ l1 l2 k,
       live (GameWorld.plants w) l1 → live (GameWorld.plants w) l2 →
       k ∈ Plant.get_occupied_tiles (GameWorld.heap w l1) →
       k ∈ Plant.get_occupied_tiles (GameWorld.heap w l2) →
       l1 = l2) ∧
    (∀ k, is_Some (GameWorld.plants w !! k) ↔
          ∃ l, live (GameWorld.plants w) l ∧
               k ∈ Plant.get_occupied_tiles (GameWorld.heap w l)).
Proof.
  eexists _, _.
  split; [vm_compute; reflexivity|].
  split; [vm_compute; reflexivity|].
  eapply (planting_harvesting_keep_occupancy_exclusive
            (fun _ _ => 0%Q) (fun _ => O) _ demo_events).
  - vm_compute. reflexivity.
  - vm_compute. reflexivity.
Defined.

(** ** The footprint used by validation *)

Section validation.

Lemma curved_in_box p :
shape (Plant.plant_type p) = curved →
Plant.get_occupied_tiles p ⊆
  GameWorld.checked_tiles (Plant.x p) (Plant.y p) (size (Plant.plant_type p)).
Proof.
intros Hs c. unfold Plant.get_occupied_tiles. rewrite Hs, elem_of_checked_tiles.
destruct (size (Plant.plant_type p)) as [wd ht]. simpl.
intros (dy & Hin & Hdy%elem_of_range)%list_elem_of_bind.
apply list_elem_of_bind in Hin as (dx & Hin & Hdx%elem_of_range).
destruct (bool_decide _); [by apply not_elem_of_nil in Hin|].
apply list_elem_of_singleton in Hin. by exists dx, dy.
Qed.

Lemma star_in_box p :
shape (Plant.plant_type p) = star → size (Plant.plant_type p) = (3, 3) →
Plant.get_occupied_tiles p ⊆
  GameWorld.checked_tiles (Plant.x p) (Plant.y p) (size (Plant.plant_type p)).
Proof.
intros Hs Hsz c. unfold Plant.get_occupied_tiles. rewrite Hs, Hsz, elem_of_checked_tiles.
simpl. intros Hin.
repeat (apply elem_of_cons in Hin as [->|Hin];
        [eexists _, _; split; [reflexivity | lia]|]).
by apply not_elem_of_nil in Hin.
Qed.

End validation.

(** For a circular plant on a 2 x 2 box the footprint leaves the box that
    [can_plant_at] visits: at origin (10, 10) the tile (12, 11) is occupied
    and not checked, and such a plant passes validation at (83, 75) in a
    field where its footprint tile (85, 76) is already claimed. *)
Lemma circle_footprint_leaves_validated_box :
  GameWorld.checked_tiles 10 10 (size round_shrub) =
    [(10, 10); (11, 10); (10, 11); (11, 11)] ∧
  Plant.get_occupied_tiles (Plant.init round_shrub 10 10 0) =
    [(11, 10); (10, 11); (11, 11); (12, 11); (11, 12)] ∧
  GameWorld.can_plant_at radish_world 83 75 (size round_shrub) = Ok true ∧
  ((85, 76) ∈ Plant.get_occupied_tiles (Plant.init round_shrub 83 75 0)) ∧
  GameWorld.plants radish_world !! (85, 76) = Some O.
Proof.
  split_and!; try (vm_compute; reflexivity).
  apply (bool_decide_unpack _); vm_compute; exact I.
Qed.

(** C2 as stated fails: for the star plant on its 3 x 3 box at origin
    (10, 10), can_plant_at checks the corner tile (10, 10), which
    get_occupied_tiles does not contain. *)
Lemma validated_tiles_are_not_the_footprint :
  ¬ (∀ p c,
       c ∈ GameWorld.checked_tiles (Plant.x p) (Plant.y p) (size (Plant.plant_type p)) ↔
       c ∈ Plant.get_occupied_tiles p).
Proof.
  intros Hclaim.
  specialize (Hclaim (Plant.init star_bush 10 10 0) (10, 10)).
  apply proj1 in Hclaim.
  assert (Hin : (10, 10) ∈ GameWorld.checked_tiles 10 10 (3, 3)).
  { apply (bool_decide_unpack _); vm_compute; exact I. }
  apply Hclaim in Hin. revert Hin.
  apply (bool_decide_unpack _); vm_compute; exact I.
Qed.

(** C2, amended: for every plant type of rectangle shape, every box size
    and every origin, the tiles checked by can_plant_at are exactly the
    tiles of get_occupied_tiles, which planting registers and harvesting
    removes (the same list, in the same order); for a curved plant of any
    box size and for a star plant on its 3 x 3 box, can_plant_at checks the
    whole bounding box, which contains every occupied tile. *)
Theorem validation_checks_the_bounding_box plant_name cost value time sz x y now :
  Plant.get_occupied_tiles
    (Plant.init (PlantType_init plant_name cost value time (Some sz) (Some rectangle)) x y now)
    = GameWorld.checked_tiles x y sz ∧
  Plant.get_occupied_tiles
    (Plant.init (PlantType_init plant_name cost value time (Some sz) None) x y now)
    = GameWorld.checked_tiles x y sz ∧
  Plant.get_occupied_tiles
    (Plant.init (PlantType_init plant_name cost value time (Some sz) (Some curved)) x y now)
    ⊆ GameWorld.checked_tiles x y sz ∧
  Plant.get_occupied_tiles
    (Plant.init (PlantType_init plant_name cost value time (Some (3, 3)) (Some star)) x y now)
    ⊆ GameWorld.checked_tiles x y (3, 3).
Proof.
  split_and!.
  - by apply rectangle_footprint.
  - by apply rectangle_footprint.
  - exact (curved_in_box
             (Plant.init (PlantType_init plant_name cost value time (Some sz) (Some curved))
                         x y now) eq_refl).
  - exact (star_in_box
             (Plant.init (PlantType_init plant_name cost value time (Some (3, 3)) (Some star))
                         x y now) eq_refl eq_refl).
Qed.

(** ** Worked examples *)

(** A circle on a 4 x 4 box has radius 2 and 13 tiles; the star has 7; a
    curved 3 x 3 plant has the 5 tiles of a plus sign. *)
Example circle_4x4_has_13_tiles :
  length (Plant.get_occupied_tiles
            (Plant.init (PlantType_init "c" 1 None 1 (Some (4, 4)) (Some circle)) 0 0 0))
  = 13%nat.
Proof. reflexivity. Qed.

Example star_has_7_tiles :
  length (Plant.get_occupied_tiles (Plant.init star_bush 0 0 0)) = 7%nat.
Proof. reflexivity. Qed.

Example curved_3x3_tiles :
  Plant.get_occupied_tiles
    (Plant.init (PlantType_init "c" 1 None 1 (Some (3, 3)) (Some curved)) 0 0 0)
  = [(1, 0); (0, 1); (1, 1); (2, 1); (1, 2)].
Proof. reflexivity. Qed.

(** The costs 500 and 5000 occur twice among the keys; the later value
    is the one the dictionary keeps. *)
Example sell_value_of_repeated_keys :
  Shop.calculate_sell_value 500 340 = Some 1090%Q ∧
  Shop.calculate_sell_value 5000 1440 = Some 14750%Q ∧
  Shop.calculate_sell_value 1 5 = Some (101 # 100)%Q ∧
  length Shop.library = 72%nat.
Proof. repeat split. Qed.

(** With harvest range 1 at tile (5, 5), a ripe plant on (5, 6) is
    harvested and one on (7, 7) is not. *)
Example harvest_range_1_at_5_5 :
  let ripe x y :=
    {| Plant.plant_type := PlantType_init "Radish" 1 (Some (101 # 100)%Q) 5 None None;
       Plant.x := x; Plant.y := y; Plant.planted_time := 0;
       Plant.stage := HARVESTABLE; Plant.harvestable := true;
       Plant.time_remaining := 0; Plant.last_update := 10 |} in
  let h (l : loc) := match l with O => ripe 5 6 | _ => ripe 7 7 end in
  GameWorld.harvest_scan h 5 5 1 (<[(5, 6) := O]> {[ (7, 7) := 1%nat ]}, Inventory.init)
  = ({[ (7, 7) := 1%nat ]},
     {| Inventory.seeds := []; Inventory.items := [("Radish", 1)] |}).
Proof. vm_compute. reflexivity. Qed.

(** The short game of [demo_events] ends with the second radish on tile
    (86, 76), one radish harvested and 8 of the 10 starting coins left. *)
Example demo_game_outcome :
  ∃ w0 w,
    GameWorld.init (fun _ _ => 0%Q) (fun _ => O) = Ok w0 ∧
    GameWorld.run w0 demo_events = Ok w ∧
    GameWorld.plants w = {[ (86, 76) := 1%nat ]} ∧
    Player.inventory (GameWorld.player w) =
      {| Inventory.seeds := []; Inventory.items := [("Radish", 1)] |} ∧
    Player.money (GameWorld.player w) = 8%Q ∧
    Player.get_tile_position (GameWorld.player w) = (85, 75).
Proof.
  eexists _, _. split; [vm_compute; reflexivity|].
  split; [vm_compute; reflexivity|].
  repeat split.
Qed.

(** On the initial position, the centre of the sell area, no tile within
    the basic planting range is tillable: the search finds no spot. *)
Example no_spot_in_the_sell_area :
  ∃ w0,
    GameWorld.init (fun _ _ => 0%Q) (fun _ => O) = Ok w0 ∧
    Player.get_tile_position (GameWorld.player w0) = (75, 75) ∧
    GameWorld.find_planting_spot w0 (fun _ l => l) 75 75 (1, 1) = Ok None.
Proof.
  eexists. split; [vm_compute; reflexivity|]. split; vm_compute; reflexivity.
Qed.

(** ** Footprint geometry *)

Section footprint.

Lemma fmap_bind_list {A B C} (g : B → C) (f : A → list B) (l : list A) :
g <$> (l ≫= f) = l ≫= (fun a => g <$> f a).
Proof.
induction l as [|a l IH]; [done|].
rewrite !bind_cons, fmap_app. by rewrite IH.
Qed.

Lemma range_NoDup n : NoDup (range n).
Proof.
unfold range. apply (NoDup_fmap_2 Z.of_nat), NoDup_seq.
Qed.

Lemma range2_NoDup a b : NoDup (range2 a b).
Proof.
unfold range2.
apply (NoDup_fmap_2_strong (fun i => a + Z.of_nat i)); [|apply NoDup_seq].
intros i j _ _ Hij. lia.
Qed.

(** A grid scan that emits at most the tile of each offset emits no tile
  twice. *)
Lemma grid_NoDup (ys xs : list Z) (f : Z → Z → list (Z * Z)) (ox oy : Z) :
NoDup ys → NoDup xs →
(∀ dx dy, f dx dy = [(ox + dx, oy + dy)] ∨ f dx dy = []) →
NoDup (dy ← ys; dx ← xs; f dx dy).
Proof.
intros Hys Hxs Hf.
assert (Hel : ∀ dx dy c, c ∈ f dx dy → c = (ox + dx, oy + dy)).
{ intros dx dy c Hc. destruct (Hf dx dy) as [E|E]; rewrite E in Hc.
  - by apply list_elem_of_singleton in Hc.
  - by apply not_elem_of_nil in Hc. }
apply NoDup_bind; [| |done].
- intros dy1 dy2 c _ _ (dx1 & Hc1 & _)%list_elem_of_bind (dx2 & Hc2 & _)%list_elem_of_bind.
  apply Hel in Hc1, Hc2. subst c. injection Hc2. lia.
- intros dy _. apply NoDup_bind; [| |done].
  + intros dx1 dx2 c _ _ Hc1 Hc2. apply Hel in Hc1, Hc2. subst c. injection Hc2. lia.
  + intros dx _. destruct (Hf dx dy) as [-> | ->]; [apply NoDup_singleton | constructor].
Qed.

Lemma grid_length (ys xs : list Z) (ox oy : Z) :
length (dy ← ys; dx ← xs; [(ox + dx, oy + dy)]) = (length ys * length xs)%nat.
Proof.
assert (Hrow : ∀ dy, length (dx ← xs; [(ox + dx, oy + dy)]) = length xs).
{ intros dy. induction xs as [|dx xs IHx]; [done|].
  rewrite bind_cons. simpl. by rewrite IHx. }
induction ys as [|dy ys IH]; [done|].
rewrite bind_cons, length_app, IH, Hrow. done.
Qed.

End footprint.

(** X1: the footprint of a plant moved by an offset is its footprint moved
    by that offset, for every shape and box size: the shape of the
    footprint does not depend on where the plant stands. *)
Theorem footprint_translates (p : Plant.t) (a b : Z) :
  Plant.get_occupied_tiles
    {| Plant.plant_type := Plant.plant_type p;
       Plant.x := Plant.x p + a; Plant.y := Plant.y p + b;
       Plant.planted_time := Plant.planted_time p; Plant.stage := Plant.stage p;
       Plant.harvestable := Plant.harvestable p;
       Plant.time_remaining := Plant.time_remaining p;
       Plant.last_update := Plant.last_update p |}
  = (fun c => (c.1 + a, c.2 + b)) <$> Plant.get_occupied_tiles p.
Proof.
  unfold Plant.get_occupied_tiles. cbn [Plant.plant_type Plant.x Plant.y].
  destruct (size (Plant.plant_type p)) as [w h].
  destruct (shape (Plant.plant_type p)).
  - rewrite fmap_bind_list. apply list_bind_ext; [|done]. intros dy.
    rewrite fmap_bind_list. apply list_bind_ext; [|done]. intros dx.
    simpl. do 2 f_equal; lia.
  - rewrite fmap_bind_list. apply list_bind_ext; [|done]. intros dy.
    rewrite fmap_bind_list. apply list_bind_ext; [|done]. intros dx.
    destruct (_ <=? _); [|done]. simpl. do 2 f_equal; lia.
  - rewrite fmap_bind_list. apply list_bind_ext; [|done]. intros [dx dy].
    simpl. do 2 f_equal; lia.
  - rewrite fmap_bind_list. apply list_bind_ext; [|done]. intros dy.
    rewrite fmap_bind_list. apply list_bind_ext; [|done]. intros dx.
    destruct (bool_decide _); [done|]. simpl. do 2 f_equal; lia.
Qed.

(** X2: for every shape, box size and origin, get_occupied_tiles lists no
    tile twice, so planting registers and harvesting deletes each tile of
    a plant once. *)
Theorem footprint_has_no_duplicates (p : Plant.t) :
  NoDup (Plant.get_occupied_tiles p).
Proof.
  unfold Plant.get_occupied_tiles.
  destruct (size (Plant.plant_type p)) as [w h].
  destruct (shape (Plant.plant_type p)).
  - apply (grid_NoDup _ _ (fun dx dy => [(Plant.x p + dx, Plant.y p + dy)])
             (Plant.x p) (Plant.y p)); auto using range_NoDup.
  - apply (grid_NoDup _ _
             (fun dx dy => if dx * dx + dy * dy <=? Z.min w h `div` 2 * (Z.min w h `div` 2)
                           then [(Plant.x p + w `div` 2 + dx, Plant.y p + h `div` 2 + dy)]
                           else [])
             (Plant.x p + w `div` 2) (Plant.y p + h `div` 2));
      auto using range2_NoDup.
    intros dx dy. destruct (_ <=? _); auto.
  - apply (NoDup_fmap_2_strong (fun d : Z * Z => (Plant.x p + d.1, Plant.y p + d.2))
             Plant.star_points).
    + intros [a1 b1] [a2 b2] _ _ [= Ha Hb]. f_equal; lia.
    + apply (bool_decide_unpack _). vm_compute. exact I.
  - apply (grid_NoDup _ _
             (fun dx dy => if bool_decide ((dx, dy) ∈ [(0, 0); (w - 1, 0); (0, h - 1); (w - 1, h - 1)])
                           then [] else [(Plant.x p + dx, Plant.y p + dy)])
             (Plant.x p) (Plant.y p));
      auto using range_NoDup.
    intros dx dy. destruct (bool_decide _); auto.
Qed.

(** X3: a rectangle plant occupies exactly w * h tiles (none when a side
    is not positive), and the star occupies 7 whatever its origin. *)
Theorem rectangle_and_star_tile_counts (p : Plant.t) :
  (shape (Plant.plant_type p) = rectangle →
   Z.of_nat (length (Plant.get_occupied_tiles p)) =
     Z.max 0 (size (Plant.plant_type p)).1 * Z.max 0 (size (Plant.plant_type p)).2) ∧
  (shape (Plant.plant_type p) = star →
   length (Plant.get_occupied_tiles p) = 7%nat).
Proof.
  unfold Plant.get_occupied_tiles.
  destruct (size (Plant.plant_type p)) as [w h]. split; intros ->.
  - rewrite grid_length, !range_length. simpl. lia.
  - reflexivity.
Qed.

Lemma rectangle_and_star_tile_counts_witness :
  Z.of_nat (length (Plant.get_occupied_tiles
                      (Plant.init (PlantType_init "Void Berry" 4000 (Some 11240%Q) 1200
                                     (Some (3, 2)) None) 20 30 0))) = 6 ∧
  length (Plant.get_occupied_tiles (Plant.init star_bush 20 30 0)) = 7%nat.
Proof.
  split.
  - apply (rectangle_and_star_tile_counts
             (Plant.init (PlantType_init "Void Berry" 4000 (Some 11240%Q) 1200
                            (Some (3, 2)) None) 20 30 0)).
    reflexivity.
  - apply (rectangle_and_star_tile_counts (Plant.init star_bush 20 30 0)).
    reflexivity.
Defined.

(** ** Inventory *)

Section dict_more.
Context {K V : Type} `{EqDecision K}.
Implicit Types (d : PyDict.t K V) (k : K) (v : V).

Lemma dict_set_NoDup d k v : NoDup d.*1 → NoDup (PyDict.set d k v).*1.
Proof.
induction d as [|[k0 v0] d IH]; simpl.
- intros _. apply NoDup_singleton.
- rewrite NoDup_cons. intros [Hk0 Hd]. case_decide as Hk; simpl.
  + subst. by apply NoDup_cons.
  + apply NoDup_cons. split; [|by apply IH].
    rewrite dict_set_keys. intros [?|?]; [congruence | done].
Qed.

Lemma dict_del_keys d k k' : k' ∈ (PyDict.del d k).*1 → k' ∈ d.*1.
Proof.
induction d as [|[k0 v0] d IH]; simpl; [done|].
case_decide; simpl; rewrite ?elem_of_cons; [by right|].
intros [?|?]; [by left | right; by apply IH].
Qed.

Lemma dict_del_NoDup d k : NoDup d.*1 → NoDup (PyDict.del d k).*1.
Proof.
induction d as [|[k0 v0] d IH]; simpl; [done|].
rewrite NoDup_cons. intros [Hk0 Hd]. case_decide; simpl; [done|].
apply NoDup_cons. split; [|by apply IH]. intros Hin%dict_del_keys. done.
Qed.

Lemma dict_get_del_eq d k : NoDup d.*1 → PyDict.get (PyDict.del d k) k = None.
Proof.
induction d as [|[k0 v0] d IH]; simpl; [done|].
rewrite NoDup_cons. intros [Hk0 Hd]. case_decide as Hk; simpl.
- subst. by apply dict_get_None.
- rewrite decide_False by done. by apply IH.
Qed.

Lemma dict_del_set_absent d k v : PyDict.get d k = None → PyDict.del (PyDict.set d k v) k = d.
Proof.
induction d as [|[k0 v0] d IH]; simpl.
- intros _. by rewrite decide_True.
- case_decide as Hk; [done|]. intros Hg. simpl. rewrite decide_False by done.
  by rewrite IH.
Qed.

Lemma dict_set_set d k v v' : PyDict.set (PyDict.set d k v) k v' = PyDict.set d k v'.
Proof.
induction d as [|[k0 v0] d IH]; simpl.
- by rewrite decide_True.
- case_decide as Hk; simpl.
  + by rewrite decide_True.
  + rewrite decide_False by done. by rewrite IH.
Qed.

Lemma dict_set_id d k v : PyDict.get d k = Some v → PyDict.set d k v = d.
Proof.
induction d as [|[k0 v0] d IH]; simpl; [done|].
case_decide as Hk.
- intros [= ->]. by subst.
- intros Hg. by rewrite IH.
Qed.

Lemma dict_del_Forall (P : K * V → Prop) d k : Forall P d → Forall P (PyDict.del d k).
Proof.
induction 1 as [|[k0 v0] d H0 Hd IH]; simpl; [done|].
case_decide; [done|]. by constructor.
Qed.

End dict_more.

Section inventory.

Lemma counts_wf_get d k n : counts_wf d → PyDict.get d k = Some n → 0 < n.
Proof.
intros [_ Hpos] Hg%dict_get_elem_of. rewrite Forall_forall in Hpos.
apply (Hpos _ Hg).
Qed.

Lemma counts_wf_count d k : counts_wf d → 0 <= count d k.
Proof.
intros Hwf. unfold count. destruct (PyDict.get d k) as [n|] eqn:E; simpl; [|done].
pose proof (counts_wf_get d k n Hwf E). lia.
Qed.

Lemma counts_wf_set d k n : counts_wf d → 0 < n → counts_wf (PyDict.set d k n).
Proof.
intros [Hnd Hpos] Hn. split; [by apply dict_set_NoDup|].
by apply dict_set_Forall.
Qed.

Lemma counts_wf_del d k : counts_wf d → counts_wf (PyDict.del d k).
Proof.
intros [Hnd Hpos]. split; [by apply dict_del_NoDup | by apply dict_del_Forall].
Qed.

(** Lowering the count of [k] by [q], dropping the entry at zero. *)
Lemma lower_count d k n q :
counts_wf d → PyDict.get d k = Some n → 0 <= q <= n →
let d1 := PyDict.set d k (n - q) in
let d2 := if n - q =? 0 then PyDict.del d1 k else d1 in
counts_wf d2 ∧ count d2 k = n - q ∧
(PyDict.get d2 k = None ↔ q = n) ∧
∀ k', k' ≠ k → PyDict.get d2 k' = PyDict.get d k'.
Proof.
intros Hwf Hg Hq d1 d2. subst d1 d2.
destruct (n - q =? 0) eqn:E.
- assert (Hnd : NoDup (PyDict.set d k (n - q)).*1) by (apply dict_set_NoDup, Hwf).
  split_and!.
  + destruct Hwf as [Hnd0 Hpos]. split; [by apply dict_del_NoDup|].
    apply Forall_forall. intros [k' n'] Hin.
    assert (PyDict.get (PyDict.del (PyDict.set d k (n - q)) k) k' = Some n') as Hg'.
    { clear -Hin Hnd. revert Hin.
      generalize (dict_del_NoDup (PyDict.set d k (n - q)) k Hnd).
      generalize (PyDict.del (PyDict.set d k (n - q)) k). intros l.
      induction l as [|[k0 v0] l IH]; simpl; [by intros _ ?%not_elem_of_nil|].
      rewrite NoDup_cons. intros [Hk0 Hl] [[= -> ->]|Hin]%elem_of_cons.
      - by rewrite decide_True.
      - rewrite decide_False; [by apply IH|]. intros ->.
        apply Hk0. apply list_elem_of_fmap. by exists (k0, n'). }
    destruct (decide (k' = k)) as [->|Hne].
    * by rewrite dict_get_del_eq in Hg'.
    * rewrite dict_get_del_ne, dict_get_set, decide_False in Hg' by done.
      simpl. rewrite Forall_forall in Hpos.
      apply (Hpos (k', n')), dict_get_elem_of, Hg'.
  + unfold count. rewrite dict_get_del_eq by done. simpl. lia.
  + rewrite dict_get_del_eq by done. split; [lia | done].
  + intros k' Hne. by rewrite dict_get_del_ne, dict_get_set, decide_False.
- split_and!.
  + apply counts_wf_set; [done | lia].
  + unfold count. rewrite dict_get_set, decide_True by done. done.
  + rewrite dict_get_set, decide_True by done. split; [done | lia].
  + intros k' Hne. by rewrite dict_get_set, decide_False.
Qed.

End inventory.

(** X4: buying one seed and planting it gives the inventory back: on an
    inventory without duplicate keys or non-positive counts, add_seeds of
    one unit followed by use_seed of the same name succeeds and returns
    exactly the inventory it started from (a new entry is removed again
    at zero, an existing one keeps its place). *)
Theorem add_seed_then_use_seed_restores (inv : Inventory.t) (plant_name : string) :
  counts_wf (Inventory.seeds inv) →
  Inventory.use_seed (Inventory.add_seeds inv plant_name 1) plant_name = (true, inv).
Proof.
  intros Hwf. destruct inv as [sd it]. unfold Inventory.use_seed, Inventory.add_seeds.
  cbn [Inventory.seeds Inventory.items] in *.
  rewrite dict_get_set, decide_True by done. cbv beta iota delta [default from_option id].
  destruct (PyDict.get sd plant_name) as [n|] eqn:E; cbv beta iota delta [default from_option id].
  - pose proof (counts_wf_get sd plant_name n Hwf E).
    destruct (0 <? n + 1) eqn:E1; [|lia].
    destruct (n + 1 - 1 =? 0) eqn:E2; [lia|].
    rewrite dict_set_set. replace (n + 1 - 1) with n by lia.
    by rewrite (dict_set_id sd plant_name n E).
  - change (0 <? 0 + 1) with true. change (0 + 1 - 1 =? 0) with true. cbv iota.
    rewrite dict_set_set. by rewrite dict_del_set_absent.
Qed.

Lemma add_seed_then_use_seed_restores_witness :
  let inv := {| Inventory.seeds := [("Radish", 2); ("Corn", 1)]; Inventory.items := [] |} in
  Inventory.use_seed (Inventory.add_seeds inv "Carrot" 1) "Carrot" = (true, inv).
Proof.
  intros inv. apply (add_seed_then_use_seed_restores inv "Carrot").
  split.
  - apply (bool_decide_unpack _). vm_compute. exact I.
  - repeat constructor.
Defined.

(** X5: use_seed on a well-formed seed dictionary succeeds exactly when
    the name has an entry; it then lowers that count by one, removes the
    entry when the count reaches zero, leaves every other entry and the
    items alone and keeps the dictionary well formed; when it fails the
    inventory is returned unchanged. *)
Theorem use_seed_takes_one (inv : Inventory.t) (plant_name : string) :
  counts_wf (Inventory.seeds inv) →
  let r := Inventory.use_seed inv plant_name in
  (r.1 = true ↔ is_Some (PyDict.get (Inventory.seeds inv) plant_name)) ∧
  (r.1 = false → r.2 = inv) ∧
  (r.1 = true →
   counts_wf (Inventory.seeds r.2) ∧
   count (Inventory.seeds r.2) plant_name = count (Inventory.seeds inv) plant_name - 1 ∧
   (PyDict.get (Inventory.seeds r.2) plant_name = None ↔
    count (Inventory.seeds inv) plant_name = 1) ∧
   (∀ k, k ≠ plant_name →
         PyDict.get (Inventory.seeds r.2) k = PyDict.get (Inventory.seeds inv) k) ∧
   Inventory.items r.2 = Inventory.items inv).
Proof.
  intros Hwf r. subst r. unfold Inventory.use_seed, count.
  destruct (PyDict.get (Inventory.seeds inv) plant_name) as [n|] eqn:E; cbv beta iota delta [default from_option id].
  - pose proof (counts_wf_get _ _ _ Hwf E) as Hn.
    destruct (0 <? n) eqn:E1; [|lia]. cbn [fst snd Inventory.seeds Inventory.items].
    split_and!; try done.
    intros _.
    destruct (lower_count _ plant_name n 1 Hwf E ltac:(lia)) as (Hwf' & Hc & Hnone & Hother).
    split_and!; try done.
    rewrite Hnone. lia.
  - simpl. split_and!; try done.
Qed.

Lemma use_seed_takes_one_witness :
  let inv := {| Inventory.seeds := [("Radish", 1); ("Corn", 3)]; Inventory.items := [] |} in
  let r := Inventory.use_seed inv "Radish" in
  (r.1 = true ↔ is_Some (PyDict.get (Inventory.seeds inv) "Radish")) ∧
  (r.1 = false → r.2 = inv) ∧
  (r.1 = true →
   counts_wf (Inventory.seeds r.2) ∧
   count (Inventory.seeds r.2) "Radish" = count (Inventory.seeds inv) "Radish" - 1 ∧
   (PyDict.get (Inventory.seeds r.2) "Radish" = None ↔
    count (Inventory.seeds inv) "Radish" = 1) ∧
   (∀ k, k ≠ "Radish" →
         PyDict.get (Inventory.seeds r.2) k = PyDict.get (Inventory.seeds inv) k) ∧
   Inventory.items r.2 = Inventory.items inv).
Proof.
  intros inv.
  apply (use_seed_takes_one inv "Radish").
  split.
  - apply (bool_decide_unpack _). vm_compute. exact I.
  - repeat constructor.
Defined.

(** X6: remove_item on a well-formed item dictionary, for a positive
    quantity, completes; it succeeds exactly when the count of the item is
    at least the quantity, then lowers the count by the quantity and
    removes the entry at zero, leaving the other entries alone; when it
    fails the inventory is unchanged.  For a quantity that is not positive
    and an item without entry the test passes and the subscript raises
    KeyError. *)
Theorem remove_item_takes_quantity (inv : Inventory.t) (item_name : string) (quantity : Z) :
  counts_wf (Inventory.items inv) →
  (0 < quantity →
   ∃ ok inv',
     Inventory.remove_item inv item_name quantity = Ok (ok, inv') ∧
     (ok = true ↔ quantity <= count (Inventory.items inv) item_name) ∧
     (ok = false → inv' = inv) ∧
     (ok = true →
      counts_wf (Inventory.items inv') ∧
      count (Inventory.items inv') item_name =
        count (Inventory.items inv) item_name - quantity ∧
      (PyDict.get (Inventory.items inv') item_name = None ↔
       quantity = count (Inventory.items inv) item_name) ∧
      (∀ k, k ≠ item_name →
            PyDict.get (Inventory.items inv') k = PyDict.get (Inventory.items inv) k) ∧
      Inventory.seeds inv' = Inventory.seeds inv)) ∧
  (quantity <= 0 → PyDict.get (Inventory.items inv) item_name = None →
   Inventory.remove_item inv item_name quantity = Raise KeyError).
Proof.
  intros Hwf. unfold Inventory.remove_item, count, PyDict.getitem. split.
  - intros Hq.
    destruct (PyDict.get (Inventory.items inv) item_name) as [n|] eqn:E; cbv beta iota delta [default from_option id].
    + destruct (quantity <=? n) eqn:E1.
      * eexists true, _. split; [reflexivity|].
        cbn [Inventory.seeds Inventory.items].
        destruct (lower_count _ item_name n quantity Hwf E ltac:(lia))
          as (Hwf' & Hc & Hnone & Hother).
        split_and!; try done; try lia.
      * exists false, inv. split_and!; try done; lia.
    + destruct (quantity <=? 0) eqn:E1; [lia|].
      exists false, inv. split_and!; try done; lia.
  - intros Hq ->. cbv beta iota delta [default from_option id]. destruct (quantity <=? 0) eqn:E1; [done | lia].
Qed.

Lemma remove_item_takes_quantity_witness :
  let inv := {| Inventory.seeds := []; Inventory.items := [("Radish", 2)] |} in
  (0 < 2 →
   ∃ ok inv',
     Inventory.remove_item inv "Radish" 2 = Ok (ok, inv') ∧
     (ok = true ↔ 2 <= count (Inventory.items inv) "Radish") ∧
     (ok = false → inv' = inv) ∧
     (ok = true →
      counts_wf (Inventory.items inv') ∧
      count (Inventory.items inv') "Radish" = count (Inventory.items inv) "Radish" - 2 ∧
      (PyDict.get (Inventory.items inv') "Radish" = None ↔
       2 = count (Inventory.items inv) "Radish") ∧
      (∀ k, k ≠ "Radish" →
            PyDict.get (Inventory.items inv') k = PyDict.get (Inventory.items inv) k) ∧
      Inventory.seeds inv' = Inventory.seeds inv)) ∧
  (2 <= 0 → PyDict.get (Inventory.items inv) "Radish" = None →
   Inventory.remove_item inv "Radish" 2 = Raise KeyError).
Proof.
  intros inv. apply (remove_item_takes_quantity inv "Radish" 2).
  split.
  - apply (bool_decide_unpack _). vm_compute. exact I.
  - repeat constructor.
Defined.

(** ** The catalog and the economy *)

Section economy.

Lemma choice_elem_of {A} (r : nat) (l : list A) (d : A) : l ≠ [] → choice r l d ∈ l.
Proof.
intros Hl. unfold choice. apply list_elem_of_In, nth_In.
apply Nat.mod_upper_bound. by destruct l.
Qed.

(** The entries a category is filled with are those its loop constructs. *)
Lemma fill_Forall (P : string * PlantType → Prop) data size_of d :
(∀ i plant_name cost time,
   (plant_name, cost, time) ∈ data →
   P (plant_name,
      PlantType_init plant_name cost (Shop.calculate_sell_value cost time) time
                     (Some (size_of i)) None)) →
Shop.fill data size_of = Ok d → Forall P d.
Proof.
intros Hmake. unfold Shop.fill.
assert (HL : ∀ ipd, ipd ∈ combine (seq 0 (length data)) data → ipd.2 ∈ data).
{ intros [i pd] Hin. by apply list_elem_of_In, in_combine_r, list_elem_of_In in Hin. }
revert HL. generalize (combine (seq 0 (length data)) data). intros L HL.
assert (Hacc : ∀ d0, Ok (PyDict.empty : PyDict.t string PlantType) = Ok d0 → Forall P d0).
{ intros d0 [= <-]. constructor. }
revert Hacc. generalize (Ok (PyDict.empty : PyDict.t string PlantType)).
revert d. induction L as [|[i [[n c] tm]] L IH]; intros d acc Hacc; simpl.
- apply Hacc.
- apply IH.
  + intros ipd Hin. apply HL. by right.
  + intros d0. destruct acc as [d1|e]; simpl; [|done].
    intros [= <-]. apply dict_set_Forall; [by apply Hacc|].
    apply Hmake. apply (HL (i, (n, c, tm))). left.
Qed.

Lemma forallb_elem_of {A} (f : A → bool) (l : list A) (a : A) :
forallb f l = true → a ∈ l → f a = true.
Proof. rewrite forallb_forall. intros Hall Hin. apply Hall. by apply list_elem_of_In. Qed.

Lemma fill_entry_ok data sizes size_of d :
data_ok data sizes = true → (∀ i, size_of i ∈ sizes) →
Shop.fill data size_of = Ok d → Forall (fun kv => entry_ok kv.1 kv.2 = true) d.
Proof.
intros Hdata Hsz. apply fill_Forall. intros i n c t Hin.
pose proof (forallb_elem_of _ _ _ Hdata Hin) as Hpd. simpl in Hpd.
apply (forallb_elem_of _ _ _ Hpd (Hsz i)).
Qed.

Lemma catalog_all_ok draws s :
Shop.init draws = Ok s →
Forall (fun kv => entry_ok kv.1 kv.2 = true) (Shop.get_all_plant_types s).
Proof.
unfold Shop.init, Shop.create_plant_categories. intros Hs.
destruct (Shop.fill Shop.plants_data _) as [c|] eqn:Ec; [|done].
destruct (Shop.fill Shop.rare_data _) as [r|] eqn:Er; [|done].
destruct (Shop.fill Shop.mythic_data _) as [m|] eqn:Em; [|done].
destruct (Shop.fill Shop.legendary_data _) as [l|] eqn:El; [|done].
injection Hs as <-.
unfold Shop.get_all_plant_types. cbn [foldl Shop.plant_categories plants].
apply dict_update_Forall; [apply dict_update_Forall; [apply dict_update_Forall;
  [apply dict_update_Forall; [apply dict_update_Forall; [constructor|] |] |] |] |].
- apply (fill_entry_ok Shop.plants_data [(1, 1)] _ _ eq_refl
           (fun _ => list_elem_of_here _ _) Ec).
- apply (fill_entry_ok Shop.rare_data Shop.rare_sizes _ _ eq_refl) in Er; [done|].
  intros i. by apply choice_elem_of.
- apply (fill_entry_ok Shop.mythic_data Shop.mythic_sizes _ _ eq_refl) in Em; [done|].
  intros i. by apply choice_elem_of.
- apply (fill_entry_ok Shop.legendary_data [(4, 4)] _ _ eq_refl
           (fun _ => list_elem_of_here _ _) El).
- apply Forall_forall. intros kv Hin.
  assert (Ht : forallb (fun kv : string * PlantType => entry_ok kv.1 kv.2) Shop.tools = true)
    by reflexivity.
  apply (forallb_elem_of _ _ _ Ht Hin).
Qed.

Lemma catalog_entry_ok draws s plant_name pt :
Shop.init draws = Ok s →
PyDict.get (Shop.get_all_plant_types s) plant_name = Some pt →
entry_ok plant_name pt = true.
Proof.
intros Hs Hget%dict_get_elem_of.
pose proof (catalog_all_ok draws s Hs) as Hall.
rewrite Forall_forall in Hall. apply (Hall _ Hget).
Qed.

Lemma entry_ok_spec plant_name pt :
entry_ok plant_name pt = true →
name pt = plant_name ∧ shape pt = rectangle ∧
1 <= (size pt).1 <= 4 ∧ 1 <= (size pt).2 <= 4 ∧
(1 <= seed_cost pt)%Q ∧
∃ v, sell_value pt = Some v ∧ (0 <= v)%Q ∧
     (is_tool plant_name = true →
      ∃ tier, tool_tier plant_name = Ok tier ∧ 1 <= tier <= 3) ∧
     (is_tool plant_name = false →
      (0 < growth_time pt)%Q ∧ (seed_cost pt < v)%Q).
Proof.
unfold entry_ok. rewrite !andb_true_iff, !bool_decide_eq_true.
intros [[[[[[[Hn Hs] Hw1] Hw2] Hh1] Hh2] Hc] Hv].
apply Qle_bool_iff in Hc.
destruct (sell_value pt) as [v|]; [|done].
apply andb_true_iff in Hv as [Hv0 Hv]. apply Qle_bool_iff in Hv0.
split_and!; try done; try lia. exists v. split; [done|]. split; [done|].
destruct (is_tool plant_name).
- split; [|done]. intros _. destruct (tool_tier plant_name) as [tier|]; [|done].
  exists tier. split; [done | lia].
- split; [done|]. intros _.
  apply andb_true_iff in Hv as [Hg Hp].
  apply negb_true_iff, Qle_bool_false in Hg, Hp. done.
Qed.

End economy.

(** X7: in the catalog of every shop built at start-up, whatever sizes
    the random draws pick, each entry is stored under its own name, has the
    rectangle shape, a box between 1 x 1 and 4 x 4, a cost of at least 1 and
    a defined, non-negative sell value (every catalog cost is a key of the
    price table);
    every seed has a positive growth time and sells for more than it
    costs, and every tool name parses to one of the tiers 1, 2, 3. *)
Theorem catalog_entries_are_well_formed draws s plant_name pt :
  Shop.init draws = Ok s →
  PyDict.get (Shop.get_all_plant_types s) plant_name = Some pt →
  name pt = plant_name ∧ shape pt = rectangle ∧
  1 <= (size pt).1 <= 4 ∧ 1 <= (size pt).2 <= 4 ∧
  (1 <= seed_cost pt)%Q ∧
  ∃ v, sell_value pt = Some v ∧ (0 <= v)%Q ∧
       (is_tool plant_name = true →
        ∃ tier, tool_tier plant_name = Ok tier ∧ 1 <= tier <= 3) ∧
       (is_tool plant_name = false →
        (0 < growth_time pt)%Q ∧ (seed_cost pt < v)%Q).
Proof.
  intros Hs Hget. by apply entry_ok_spec, (catalog_entry_ok draws s).
Qed.

Lemma catalog_entries_are_well_formed_witness :
  ∃ s pt,
    Shop.init (fun i => i) = Ok s ∧
    PyDict.get (Shop.get_all_plant_types s) "Moonberry" = Some pt ∧
    name pt = "Moonberry" ∧ shape pt = rectangle ∧
    1 <= (size pt).1 <= 4 ∧ 1 <= (size pt).2 <= 4 ∧
    (1 <= seed_cost pt)%Q ∧
    ∃ v, sell_value pt = Some v ∧ (0 <= v)%Q ∧
         (is_tool "Moonberry" = true →
          ∃ tier, tool_tier "Moonberry" = Ok tier ∧ 1 <= tier <= 3) ∧
         (is_tool "Moonberry" = false →
          (0 < growth_time pt)%Q ∧ (seed_cost pt < v)%Q).
Proof.
  eexists _, _.
  split; [vm_compute; reflexivity|]. split; [vm_compute; reflexivity|].
  eapply (catalog_entries_are_well_formed (fun i => i) _ "Moonberry").
  - vm_compute. reflexivity.
  - vm_compute. reflexivity.
Defined.

Section purchase.

Lemma getitem_Some {K V} `{EqDecision K} (d : PyDict.t K V) k v :
PyDict.get d k = Some v → PyDict.getitem d k = Ok v.
Proof. unfold PyDict.getitem. by intros ->. Qed.

(** [buy_seeds] on a name the catalog does not have. *)
Lemma buy_unknown s player plant_name quantity :
PyDict.get (Shop.get_all_plant_types s) plant_name = None →
Shop.buy_seeds s player plant_name quantity = Ok (false, player).
Proof. unfold Shop.buy_seeds, PyDict.contains. by intros ->. Qed.

(** [buy_seeds] on a seed of the catalog. *)
Lemma buy_seed_unfold s player plant_name quantity pt :
PyDict.get (Shop.get_all_plant_types s) plant_name = Some pt →
is_tool plant_name = false →
Shop.buy_seeds s player plant_name quantity =
  if Qle_bool (seed_cost pt * inject_Z quantity) (Player.money player) then
    Ok (true,
        Shop.set_inventory
          (Shop.set_money player (Player.money player - seed_cost pt * inject_Z quantity)%Q)
          (Inventory.add_seeds (Player.inventory player) plant_name quantity))
  else Ok (false, player).
Proof.
intros Hget Htool. unfold Shop.buy_seeds, PyDict.contains. unfold is_tool in Htool.
by rewrite Hget, Htool, (getitem_Some _ _ _ Hget).
Qed.

(** [buy_seeds] on a name with a tool word whose first word is a tier. *)
Lemma buy_tool_name_unfold s player plant_name quantity pt tier :
PyDict.get (Shop.get_all_plant_types s) plant_name = Some pt →
is_tool plant_name = true →
tool_tier plant_name = Ok tier →
∃ tool,
  Shop.buy_seeds s player plant_name quantity =
    if tier <=? Shop.get_level player tool then Ok (false, player)
    else if negb (Shop.get_level player tool =? tier - 1) then Ok (false, player)
    else if Qle_bool (seed_cost pt) (Player.money player) then
      Ok (true, Shop.set_level
                  (Shop.set_money player (Player.money player - seed_cost pt)%Q)
                  tool tier)
    else Ok (false, player).
Proof.
intros Hget Htool Htier. unfold Shop.buy_seeds, PyDict.contains.
unfold is_tool in Htool. unfold tool_tier in Htier.
rewrite Hget, Htool, (getitem_Some _ _ _ Hget). cbn [negb].
eexists. revert Htier.
destruct (list_getitem (split plant_name) 0) as [level_name|]; [|done].
cbn [mbind result_bind]. intros ->. cbn [mbind result_bind]. reflexivity.
Qed.

End purchase.



Section selling.

Lemma earnings_cons all_plants kv items :
earnings all_plants (kv :: items) =
  (match PyDict.get all_plants kv.1 with
   | Some pt => default 0 (sell_value pt) * inject_Z kv.2
   | None => 0
   end + earnings all_plants items)%Q.
Proof. reflexivity. Qed.


Lemma earnings_nonneg all_plants items :
Forall (fun kv => ∀ v, sell_value kv.2 = Some v → (0 <= v)%Q) all_plants →
Forall (fun kv => 0 < kv.2) items →
(0 <= earnings all_plants items)%Q.
Proof.
intros Hall. induction 1 as [|[k q] items Hq _ IH]; [done|].
rewrite earnings_cons. cbn [fst snd] in *.
assert (0 <= match PyDict.get all_plants k with
             | Some pt => default 0 (sell_value pt) * inject_Z q
             | None => 0
             end)%Q; [|lra].
destruct (PyDict.get all_plants k) as [pt|] eqn:E; [|done].
apply dict_get_elem_of in E. rewrite Forall_forall in Hall. specialize (Hall _ E).
apply Qmult_le_0_compat.
- cbn [snd] in Hall. destruct (sell_value pt) as [v|]; [by apply Hall | done].
- change 0%Q with (inject_Z 0). rewrite <- Zle_Qle. lia.
Qed.

Lemma sell_all_items_unfold s player :
Shop.sell_all_items s player =
  foldl (sell_step (Shop.get_all_plant_types s)) (Ok (0%Q, player))
        (Inventory.items (Player.inventory player)).
Proof. reflexivity. Qed.

Lemma sell_step_sold all_plants total player k q pt v :
PyDict.get all_plants k = Some pt → sell_value pt = Some v →
sell_step all_plants (Ok (total, player)) (k, q) =
  Ok ((total + v * inject_Z q)%Q,
      Shop.set_inventory
        (Shop.set_money player (Player.money player + v * inject_Z q)%Q)
        {| Inventory.seeds := Inventory.seeds (Player.inventory player);
           Inventory.items := PyDict.del (Inventory.items (Player.inventory player)) k |}).
Proof.
intros Hget Hv. unfold sell_step, Shop.value_of. cbn [mbind result_bind].
by rewrite Hget, Hv.
Qed.

Lemma sell_step_kept all_plants total player k q :
PyDict.get all_plants k = None →
sell_step all_plants (Ok (total, player)) (k, q) = Ok (total, player).
Proof. intros Hget. unfold sell_step. cbn [mbind result_bind]. by rewrite Hget. Qed.

(** The loop of [sell_all_items] from any running total and player. *)
Lemma sell_loop all_plants (L : PyDict.t string Z) :
(∀ kv pt, kv ∈ L → PyDict.get all_plants kv.1 = Some pt → is_Some (sell_value pt)) →
∀ total player,
∃ total' player',
  foldl (sell_step all_plants) (Ok (total, player)) L = Ok (total', player') ∧
  (total' == total + earnings all_plants L)%Q ∧
  (Player.money player' == Player.money player + earnings all_plants L)%Q ∧
  Inventory.items (Player.inventory player') =
    foldl (fun d kv => if PyDict.contains all_plants kv.1 then PyDict.del d kv.1 else d)
          (Inventory.items (Player.inventory player)) L ∧
  Inventory.seeds (Player.inventory player') = Inventory.seeds (Player.inventory player) ∧
  (Player.x player', Player.y player', Player.speed player') =
    (Player.x player, Player.y player, Player.speed player) ∧
  (Player.fertilizer_level player', Player.hoe_level player', Player.shovel_level player') =
    (Player.fertilizer_level player, Player.hoe_level player, Player.shovel_level player).
Proof.
induction L as [|[k q] L IH]; intros Hval total player.
- exists total, player. simpl. split_and!; try done; lra.
- cbn [foldl]. unfold PyDict.contains. rewrite earnings_cons. cbn [fst snd].
  assert (HvalL : ∀ kv pt, kv ∈ L → PyDict.get all_plants kv.1 = Some pt →
                           is_Some (sell_value pt)).
  { intros kv pt Hin. apply Hval. by right. }
  destruct (PyDict.get all_plants k) as [pt|] eqn:E.
  + destruct (Hval (k, q) pt ltac:(left) E) as [v Hv].
    rewrite (sell_step_sold _ _ _ _ _ _ _ E Hv), Hv.
    cbv beta iota delta [default from_option id].
    destruct (IH HvalL (total + v * inject_Z q)%Q
                (Shop.set_inventory
                   (Shop.set_money player (Player.money player + v * inject_Z q)%Q)
                   {| Inventory.seeds := Inventory.seeds (Player.inventory player);
                      Inventory.items :=
                        PyDict.del (Inventory.items (Player.inventory player)) k |}))
      as (total' & player' & -> & Ht & Hm & Hi & Hs & Hp & Hl).
    exists total', player'. cbn in Hm, Hi, Hs, Hp, Hl.
    split_and!; try done.
    * rewrite Ht. ring.
    * rewrite Hm. ring.
  + rewrite (sell_step_kept _ _ _ _ _ E).
    destruct (IH HvalL total player) as (total' & player' & -> & Ht & Hm & Hi & Hs & Hp & Hl).
    exists total', player'. split_and!; try done.
    * rewrite Ht. ring.
    * rewrite Hm. ring.
Qed.

End selling.



(** ** The generated map and the player on it *)

Section generated_map.

Lemma list_getitem_nonneg {A} (l : list A) i :
0 <= i →
list_getitem l i =
  match nth_error l (Z.to_nat i) with Some a => Ok a | None => Raise IndexError end.
Proof.
intros Hi. unfold list_getitem. cbv zeta.
assert ((i <? 0) = false) as E by lia. rewrite !E. cbn [orb].
destruct (Z.of_nat (length l) <=? i) eqn:E2; [|done].
assert (nth_error l (Z.to_nat i) = None) as ->; [|done].
apply nth_error_None. lia.
Qed.

(** A negative index counts from the end. *)
Lemma list_getitem_negative {A} (l : list A) i :
i < 0 → - Z.of_nat (length l) <= i →
list_getitem l i = list_getitem l (i + Z.of_nat (length l)).
Proof.
intros Hi Hlo. unfold list_getitem. cbv zeta.
assert ((i <? 0) = true) as E by lia. rewrite !E.
assert ((i + Z.of_nat (length l) <? 0) = false) as E' by lia. rewrite !E'. done.
Qed.

Lemma list_getitem_below {A} (l : list A) i :
i < - Z.of_nat (length l) → list_getitem l i = Raise IndexError.
Proof.
intros Hi. unfold list_getitem. cbv zeta.
assert ((i <? 0) = true) as E by lia. rewrite !E.
assert ((i + Z.of_nat (length l) <? 0) = true) as E' by lia. rewrite !E'. done.
Qed.

Lemma list_getitem_map_range {A} (f : Z → A) n i :
0 <= i < n → list_getitem (List.map f (range n)) i = Ok (f i).
Proof.
intros Hi. rewrite list_getitem_nonneg by lia.
unfold range. rewrite List.map_map.
rewrite (nth_error_map (fun k => f (Z.of_nat k))).
rewrite nth_error_seq.
assert ((Z.to_nat i <? Z.to_nat n)%nat = true) as -> by (apply Nat.ltb_lt; lia).
cbn [option_map Nat.add].
by rewrite Z2Nat.id by lia.
Qed.

(** Looking up the generated map gives back the generated tile. *)
Lemma tile_at_generated noise x y :
0 <= x < MAP_WIDTH → 0 <= y < MAP_HEIGHT →
Map.tile_at (Map.init noise) x y = Ok (Map.generate_tile MAP_WIDTH MAP_HEIGHT noise x y).
Proof.
intros Hx Hy. unfold Map.tile_at, Map.init, Map.generate_map. cbn [Map.tiles].
rewrite (list_getitem_map_range _ MAP_HEIGHT y Hy). cbn [mbind result_bind].
by rewrite (list_getitem_map_range _ MAP_WIDTH x Hx).
Qed.

Lemma generated_rows noise :
Z.of_nat (length (Map.tiles (Map.init noise))) = MAP_HEIGHT ∧
∀ row, row ∈ Map.tiles (Map.init noise) → Z.of_nat (length row) = MAP_WIDTH.
Proof.
destruct (init_wf noise) as [_ _ Hr Hc]. split; [done|].
by rewrite Forall_forall in Hc.
Qed.

End generated_map.

(** X10: on the generated 150 x 150 map, whatever the terrain noise, a
    coordinate inside the grid reads the tile generate_map put there;
    is_walkable, is_tillable and is_sell_area answer "not water", "soil or
    grass" and "sell area" for that tile; the outer 8 tiles on every side
    are water; and the sell area is exactly the 5 x 5 block around the
    centre (75, 75), which is walkable and not tillable. *)
Theorem generated_map_tiles noise x y :
  0 <= x < MAP_WIDTH → 0 <= y < MAP_HEIGHT →
  ∃ kind,
    Map.tile_at (Map.init noise) x y = Ok kind ∧
    kind = Map.generate_tile MAP_WIDTH MAP_HEIGHT noise x y ∧
    Map.is_walkable (Map.init noise) x y = Ok (negb (bool_decide (kind = water))) ∧
    Map.is_tillable (Map.init noise) x y = Ok (bool_decide (kind = soil ∨ kind = grass)) ∧
    Map.is_sell_area (Map.init noise) x y = Ok (bool_decide (kind = sell_area)) ∧
    (on_border x y → kind = water) ∧
    (kind = sell_area ↔ ¬ on_border x y ∧ Z.abs (x - 75) <= 2 ∧ Z.abs (y - 75) <= 2).
Proof.
  intros Hx Hy. eexists. split; [by apply tile_at_generated|]. split; [done|].
  unfold Map.is_walkable, Map.is_tillable, Map.is_sell_area.
  rewrite tile_at_generated by done. cbn [Map.width Map.height Map.init].
  assert ((x <? 0) || (MAP_WIDTH <=? x) || (y <? 0) || (MAP_HEIGHT <=? y) = false) as ->.
  { unfold MAP_WIDTH, MAP_HEIGHT in *. lia. }
  cbn [mbind result_bind]. split_and!; try done.
  - f_equal. apply bool_decide_ext. rewrite !elem_of_cons.
    split; [intros [?|[?|Hn]]; auto; by apply not_elem_of_nil in Hn | intros [?|?]; auto].
  - unfold on_border, Map.generate_tile, MAP_WIDTH, MAP_HEIGHT in *. intros Hb.
    destruct ((x <? 8) || (150 - 8 <=? x) || (y <? 8) || (150 - 8 <=? y)) eqn:E; [done | lia].
  - unfold on_border, Map.generate_tile, MAP_WIDTH, MAP_HEIGHT in *.
    change (150 `div` 2) with 75.
    destruct ((x <? 8) || (150 - 8 <=? x) || (y <? 8) || (150 - 8 <=? y)) eqn:E.
    { split; [done|]. intros [Hnb _]. lia. }
    destruct ((Z.abs (x - 75) <=? 2) && (Z.abs (y - 75) <=? 2)) eqn:E2.
    { split; [|done]. intros _. lia. }
    split; [|lia].
    repeat destruct (Qlt_le_dec _ _); done.
Qed.

Lemma generated_map_tiles_witness :
  ∃ kind,
    Map.tile_at (Map.init (fun _ _ => 0%Q)) 75 77 = Ok kind ∧
    kind = Map.generate_tile MAP_WIDTH MAP_HEIGHT (fun _ _ => 0%Q) 75 77 ∧
    Map.is_walkable (Map.init (fun _ _ => 0%Q)) 75 77 = Ok (negb (bool_decide (kind = water))) ∧
    Map.is_tillable (Map.init (fun _ _ => 0%Q)) 75 77
      = Ok (bool_decide (kind = soil ∨ kind = grass)) ∧
    Map.is_sell_area (Map.init (fun _ _ => 0%Q)) 75 77 = Ok (bool_decide (kind = sell_area)) ∧
    (on_border 75 77 → kind = water) ∧
    (kind = sell_area ↔ ¬ on_border 75 77 ∧ Z.abs (75 - 75) <= 2 ∧ Z.abs (77 - 75) <= 2).
Proof.
  apply (generated_map_tiles (fun _ _ => 0%Q) 75 77); unfold MAP_WIDTH, MAP_HEIGHT; lia.
Defined.

(** X11: on the generated map is_sell_area, which has no bounds guard,
    returns a boolean exactly for coordinates in [-150, 150) on both axes
    and raises IndexError for all others; a negative coordinate in that
    range wraps around and reads the tile 150 further on. *)
Theorem is_sell_area_domain noise x y :
  (- MAP_WIDTH <= x < MAP_WIDTH ∧ - MAP_HEIGHT <= y < MAP_HEIGHT →
   ∃ b, Map.is_sell_area (Map.init noise) x y = Ok b ∧
        Map.is_sell_area (Map.init noise) x y =
          Map.is_sell_area (Map.init noise)
            (if x <? 0 then x + MAP_WIDTH else x) (if y <? 0 then y + MAP_HEIGHT else y)) ∧
  (¬ (- MAP_WIDTH <= x < MAP_WIDTH ∧ - MAP_HEIGHT <= y < MAP_HEIGHT) →
   Map.is_sell_area (Map.init noise) x y = Raise IndexError).
Proof.
  destruct (generated_rows noise) as [Hrows Hcols].
  assert (Hwrap : ∀ {A} (l : list A) n i,
             Z.of_nat (length l) = n → - n <= i < n →
             list_getitem l i = list_getitem l (if i <? 0 then i + n else i) ∧
             ∃ a, list_getitem l (if i <? 0 then i + n else i) = Ok a ∧ a ∈ l).
  { intros A l n i <- Hi. destruct (i <? 0) eqn:E.
    - split; [apply list_getitem_negative; lia|]. apply list_getitem_in_range. lia.
    - split; [done|]. apply list_getitem_in_range. lia. }
  assert (Hout : ∀ {A} (l : list A) n i,
             Z.of_nat (length l) = n → ¬ (- n <= i < n) →
             list_getitem l i = Raise IndexError).
  { intros A l n i <- Hi. destruct (Z_lt_le_dec i 0).
    - apply list_getitem_below. lia.
    - apply list_getitem_beyond. lia. }
  unfold Map.is_sell_area, Map.tile_at. split.
  - intros [Hx Hy].
    destruct (Hwrap _ (Map.tiles (Map.init noise)) MAP_HEIGHT y Hrows Hy)
      as (Ey & row & Erow & Hin).
    rewrite Ey, Erow. cbn [mbind result_bind].
    destruct (Hwrap _ row MAP_WIDTH x (Hcols row Hin) Hx) as (Ex & kind & Ek & _).
    rewrite Ex, Ek. cbn [mbind result_bind]. eexists. split; reflexivity.
  - intros Hno.
    destruct (decide (- MAP_HEIGHT <= y < MAP_HEIGHT)) as [Hy|Hy].
    + destruct (Hwrap _ (Map.tiles (Map.init noise)) MAP_HEIGHT y Hrows Hy)
        as (Ey & row & Erow & Hin).
      rewrite Ey, Erow. cbn [mbind result_bind].
      rewrite (Hout _ row MAP_WIDTH x (Hcols row Hin)); [done | tauto].
    + by rewrite (Hout _ _ MAP_HEIGHT y Hrows Hy).
Qed.

Lemma is_sell_area_domain_witness :
  (- MAP_WIDTH <= -1 < MAP_WIDTH ∧ - MAP_HEIGHT <= 75 < MAP_HEIGHT →
   ∃ b, Map.is_sell_area (Map.init (fun _ _ => 0%Q)) (-1) 75 = Ok b ∧
        Map.is_sell_area (Map.init (fun _ _ => 0%Q)) (-1) 75 =
          Map.is_sell_area (Map.init (fun _ _ => 0%Q))
            (if -1 <? 0 then -1 + MAP_WIDTH else -1) (if 75 <? 0 then 75 + MAP_HEIGHT else 75)) ∧
  (¬ (- MAP_WIDTH <= -1 < MAP_WIDTH ∧ - MAP_HEIGHT <= 75 < MAP_HEIGHT) →
   Map.is_sell_area (Map.init (fun _ _ => 0%Q)) (-1) 75 = Raise IndexError).
Proof. apply (is_sell_area_domain (fun _ _ => 0%Q) (-1) 75). Defined.

(** ** The player's movement *)

Section movement.

Lemma clamp_bounds (c v : Q) : (0 <= c → 0 <= pymax 0 (pymin c v) <= c)%Q.
Proof.
intros Hc. unfold pymax, pymin.
destruct (Qlt_le_dec v c); destruct (Qlt_le_dec 0 _); lra.
Qed.

(** A value already between the bounds is left where it is. *)
Lemma clamp_inside (c v : Q) : (0 <= v <= c → pymax 0 (pymin c v) == v)%Q.
Proof.
intros Hv. unfold pymax, pymin.
destruct (Qlt_le_dec v c); destruct (Qlt_le_dec 0 _); lra.
Qed.

(** [Player.update] on the generated map: it returns, changes nothing but
  the position, and either leaves the player as it was or puts it, inside
  the pixel bounds, on a walkable tile. *)
Lemma player_update_cases noise p dt keys :
∃ p',
  Player.update p dt keys (Map.init noise) = Ok p' ∧
  Player.money p' = Player.money p ∧
  Player.inventory p' = Player.inventory p ∧
  Player.speed p' = Player.speed p ∧
  (Player.fertilizer_level p', Player.hoe_level p', Player.shovel_level p') =
    (Player.fertilizer_level p, Player.hoe_level p, Player.shovel_level p) ∧
  (p' = p ∨
   ((0 <= Player.x p' <= MAX_PIXEL)%Q ∧ (0 <= Player.y p' <= MAX_PIXEL)%Q ∧
    Map.is_walkable (Map.init noise)
      (Player.get_tile_position p').1 (Player.get_tile_position p').2 = Ok true)).
Proof.
unfold Player.update. cbv zeta.
change (inject_Z (MAP_WIDTH * TILE_SIZE - TILE_SIZE)) with MAX_PIXEL.
change (inject_Z (MAP_HEIGHT * TILE_SIZE - TILE_SIZE)) with MAX_PIXEL.
set (new_x := pymax 0 (pymin MAX_PIXEL _)).
set (new_y := pymax 0 (pymin MAX_PIXEL _)).
destruct (is_walkable_total (Map.init noise)
            (Qfloor (new_x / inject_Z TILE_SIZE)) (Qfloor (new_y / inject_Z TILE_SIZE))
            (init_wf noise)) as (b & Hb & _).
rewrite Hb. cbn [mbind result_bind]. destruct b.
- eexists. split; [reflexivity|]. cbn. split_and!; try done.
  right. split_and!; try apply clamp_bounds; done.
- exists p. split_and!; try done. by left.
Qed.

End movement.

(** X12: Player.update on the generated map never raises, whatever the
    keys, the frame time and the player's position; it changes neither the
    wallet, the inventory, the speed nor the tool tiers; and it either
    leaves the player exactly where it was (the target tile is not
    walkable) or moves it to a position inside [0, 7152] on both axes whose
    tile is walkable.  With no movement key held, a player inside those
    bounds moves to the position it already has. *)
Theorem player_moves_only_onto_walkable_tiles noise p dt keys :
  ∃ p',
    Player.update p dt keys (Map.init noise) = Ok p' ∧
    Player.money p' = Player.money p ∧
    Player.inventory p' = Player.inventory p ∧
    Player.speed p' = Player.speed p ∧
    (Player.fertilizer_level p', Player.hoe_level p', Player.shovel_level p') =
      (Player.fertilizer_level p, Player.hoe_level p, Player.shovel_level p) ∧
    (p' = p ∨
     ((0 <= Player.x p' <= MAX_PIXEL)%Q ∧ (0 <= Player.y p' <= MAX_PIXEL)%Q ∧
      Map.is_walkable (Map.init noise)
        (Player.get_tile_position p').1 (Player.get_tile_position p').2 = Ok true)) ∧
    (key_left keys = false → key_right keys = false →
     key_up keys = false → key_down keys = false →
     (0 <= Player.x p <= MAX_PIXEL)%Q → (0 <= Player.y p <= MAX_PIXEL)%Q →
     (Player.x p' == Player.x p)%Q ∧ (Player.y p' == Player.y p)%Q).
Proof.
  destruct (player_update_cases noise p dt keys) as (p' & Hup & Hm & Hi & Hs & Hl & Hpos).
  exists p'. split_and!; try done.
  intros Kl Kr Ku Kd Hx Hy. clear Hpos. revert Hup. unfold Player.update. cbv zeta.
  rewrite Kl, Kr, Ku, Kd.
  change (inject_Z (MAP_WIDTH * TILE_SIZE - TILE_SIZE)) with MAX_PIXEL.
  change (inject_Z (MAP_HEIGHT * TILE_SIZE - TILE_SIZE)) with MAX_PIXEL.
  destruct (Map.is_walkable _ _ _) as [[|]|]; cbn [mbind result_bind]; [| |done].
  - intros [= <-]. cbn [Player.x Player.y].
    split; (etransitivity; [apply clamp_inside; lra | lra]).
  - intros [= <-]. split; reflexivity.
Qed.

(** ** The worlds a game reaches *)

Section reachable.

Context (noise : Z → Z → Q) (draws : nat → nat) (s0 : Shop.t).
Context (Hs0 : Shop.init draws = Ok s0).

(** A tier between 0 and 3 indexes a four-element table. *)
Lemma level_lookup {A} (a b c d : A) level :
tier_ok level → ∃ v, list_getitem [a; b; c; d] level = Ok v ∧ v ∈ [a; b; c; d].
Proof. intros Hl. apply list_getitem_in_range. unfold tier_ok in Hl. simpl. lia. Qed.

Lemma fertilizer_lookup p :
Player.get_fertilizer_multiplier p =
  list_getitem [1; 2; 10; 100]%Q (Player.fertilizer_level p).
Proof. reflexivity. Qed.

(** [Plant.update] changes neither the type nor the origin of a plant. *)
Lemma update_keeps p now wm fm tile p' :
Plant.update p now wm fm tile = Ok p' →
Plant.plant_type p' = Plant.plant_type p ∧
Plant.x p' = Plant.x p ∧ Plant.y p' = Plant.y p.
Proof.
unfold Plant.update. destruct (Plant.harvestable p); [by intros [= <-]|].
cbv zeta. destruct (Qeq_bool _ _); [done|]. by intros [= <-].
Qed.

(** What [Plant.update] preserves, the plants loop preserves. *)
Lemma update_plants_loop_keeps (P : Plant.t → Prop) m wm fm clock :
(∀ p now tile p', P p → Plant.update p now wm fm tile = Ok p' → P p') →
∀ refs i h h',
  GameWorld.update_plants_loop m wm fm clock i refs h = Ok h' →
  ∀ l, P (h l) → P (h' l).
Proof.
intros Hstep. induction refs as [|l0 refs IH]; intros i h h'; cbn.
- by intros [= <-].
- destruct (Map.tile_at _ _ _) as [tile|]; cbn; [|done].
  destruct (Plant.update _ _ _ _ _) as [plant'|] eqn:Eu; cbn; [|done].
  intros Hloop l Hl. eapply IH; [exact Hloop|]. cbn.
  destruct (decide (l = l0)) as [->|]; [|done]. by eapply Hstep.
Qed.

(** The plants loop completes when every plant it visits has its origin
  in the grid and a positive growth time. *)
Lemma update_plants_loop_total m wm fm clock refs : ∀ i h,
(∀ l, l ∈ refs →
      is_Ok (Map.tile_at m (Plant.x (h l)) (Plant.y (h l))) ∧
      (0 < growth_time (Plant.plant_type (h l)))%Q) →
is_Ok (GameWorld.update_plants_loop m wm fm clock i refs h).
Proof.
induction refs as [|l0 refs IH]; intros i h Hrefs; cbn.
- by eexists.
- destruct (Hrefs l0 ltac:(left)) as [[tile ->] Hg]. cbn.
  destruct (update_total (h l0) (clock i) wm fm tile Hg) as [plant' Hup].
  rewrite Hup. cbn. apply IH. intros l Hl. cbn.
  destruct (decide (l = l0)) as [->|]; [|apply Hrefs; by right].
  destruct (update_keeps _ _ _ _ _ _ Hup) as (-> & -> & ->). apply Hrefs. by left.
Qed.

(** The origin of a live plant is one of the tiles that refer to it. *)
Lemma origin_claimed w k l :
game_inv noise s0 w → GameWorld.plants w !! k = Some l →
GameWorld.plants w !! (Plant.x (GameWorld.heap w l), Plant.y (GameWorld.heap w l)) = Some l.
Proof.
intros Hinv Hk.
destruct (g_plants _ _ _ Hinv k l Hk) as (Hget & _ & _).
destruct (entry_ok_spec _ _ (catalog_entry_ok draws s0 _ _ Hs0 Hget))
  as (_ & Hshape & Hw & Hh & _).
eapply (wf_registered _ _ (inv_field _ _ (g_world _ _ _ Hinv))); [exact Hk|].
rewrite rectangle_footprint by done. apply elem_of_checked_tiles.
exists 0, 0. split; [f_equal; lia | lia].
Qed.

Lemma live_origin_in_grid w k l :
game_inv noise s0 w → GameWorld.plants w !! k = Some l →
0 <= Plant.x (GameWorld.heap w l) < MAP_WIDTH ∧
0 <= Plant.y (GameWorld.heap w l) < MAP_HEIGHT.
Proof.
intros Hinv Hk. pose proof (origin_claimed w k l Hinv Hk) as Ho.
by destruct (g_ground _ _ _ Hinv _ _ Ho) as [? _].
Qed.

Lemma move_game_inv w dt keys :
game_inv noise s0 w →
∃ w', GameWorld.step w (GameWorld.Move dt keys) = Ok w' ∧ game_inv noise s0 w'.
Proof.
intros Hinv. pose proof Hinv as [Hworld Hmap Hpos Hstand Hlev Hmoney Hseeds Hitems Hgr Hpl].
destruct (player_update_cases noise (GameWorld.player w) dt keys)
  as (p' & Hup & Hm & Hi & _ & [= Hf Hh Hsh] & Hcases).
assert (Hstep : GameWorld.step w (GameWorld.Move dt keys) = Ok (GameWorld.set_player w p')).
{ cbn. by rewrite Hmap, Hup. }
eexists. split; [exact Hstep|].
split; cbn; rewrite ?Hm, ?Hi, ?Hf, ?Hh, ?Hsh; try done.
- by eapply step_inv.
- destruct Hcases as [->|(? & ? & ?)]; done.
- destruct Hcases as [->|(? & ? & ?)]; [done|]. by rewrite Hmap.
Qed.

Lemma grow_game_inv w clock :
game_inv noise s0 w →
∃ w', GameWorld.step w (GameWorld.Grow clock) = Ok w' ∧ game_inv noise s0 w'.
Proof.
intros Hinv. pose proof Hinv as [Hworld Hmap Hpos Hstand Hlev Hmoney Hseeds Hitems Hgr Hpl].
destruct (level_lookup 1%Q 2%Q 10%Q 100%Q _ (proj1 Hlev)) as (fm & Hfm & _).
destruct (update_plants_loop_total (GameWorld.map w)
            (Weather.get_growth_multiplier (GameWorld.weather w)) fm clock
            (map_to_list (GameWorld.plants w)).*2 O (GameWorld.heap w)) as [h' Hloop].
{ intros l Hl. apply list_elem_of_fmap in Hl as ([k l'] & -> & Hin%elem_of_map_to_list).
  cbn [snd]. split.
  - destruct (live_origin_in_grid w k l' Hinv Hin) as [Hx Hy].
    apply tile_at_in_bounds; rewrite Hmap; [apply init_wf | done | done].
  - destruct (Hpl k l' Hin) as (_ & _ & [Hg _ _ _ _]). done. }
assert (Hstep : GameWorld.step w (GameWorld.Grow clock) = Ok (GameWorld.set_heap w h')).
{ cbn. unfold GameWorld.update_plants. rewrite fertilizer_lookup, Hfm. cbn.
  by rewrite Hloop. }
eexists. split; [exact Hstep|]. split; cbn; try done.
- by eapply step_inv.
- intros k l Hk.
  eapply (update_plants_loop_keeps
            (fun p => PyDict.get (Shop.get_all_plant_types s0) (name (Plant.plant_type p))
                        = Some (Plant.plant_type p) ∧
                      is_tool (name (Plant.plant_type p)) = false ∧ plant_inv p));
    [|exact Hloop|by apply (Hpl k l)].
  intros p now tile p' (Hget & Ht & Hp) Hup.
  destruct (update_keeps _ _ _ _ _ _ Hup) as (-> & _ & _).
  split_and!; try done. by eapply update_inv.
Qed.

Lemma same_player_game_inv w :
game_inv noise s0 w → game_inv noise s0 (GameWorld.set_player w (GameWorld.player w)).
Proof. intros [[] ? ? ? ? ? ? ? ? ?]. split; [split|..]; done. Qed.

Lemma show_error_game_inv w message :
game_inv noise s0 w → game_inv noise s0 (GameWorld.show_error w message).
Proof. intros [[] ? ? ? ? ? ? ? ? ?]. split; [split|..]; done. Qed.

(** The search of [find_planting_spot] completes for every shuffle. *)
Lemma search_rings_total w shuffle px py sz radii :
GameWorld.map w = Map.init noise →
is_Ok (GameWorld.search_rings w shuffle px py sz radii).
Proof.
intros Hmap. induction radii as [|radius radii IH]; cbn; [by eexists|].
destruct (first_valid_spec w noise Hmap sz (shuffle radius (GameWorld.ring px py radius)))
  as (res & -> & _).
cbn. destruct res; [by eexists | apply IH].
Qed.

(** [use_seed] keeps the seed counts positive and adds no key. *)
Lemma use_seed_wf inv plant_name :
counts_wf (Inventory.seeds inv) →
counts_wf (Inventory.seeds (Inventory.use_seed inv plant_name).2) ∧
(∀ k, k ∈ (Inventory.seeds (Inventory.use_seed inv plant_name).2).*1 →
      k ∈ (Inventory.seeds inv).*1) ∧
Inventory.items (Inventory.use_seed inv plant_name).2 = Inventory.items inv.
Proof.
intros Hwf. unfold Inventory.use_seed.
destruct (PyDict.get (Inventory.seeds inv) plant_name) as [n|] eqn:E;
  cbv beta iota zeta delta [default from_option id]; [|done].
pose proof (counts_wf_get _ _ _ Hwf E) as Hn.
assert ((0 <? n) = true) as -> by lia. cbn [snd Inventory.seeds Inventory.items].
destruct (lower_count _ _ n 1 Hwf E ltac:(lia)) as (Hwf' & _). split; [exact Hwf'|].
split; [|done]. intros k Hk.
assert (k ∈ (PyDict.set (Inventory.seeds inv) plant_name (n - 1)).*1) as Hk'.
{ destruct (n - 1 =? 0); [by eapply dict_del_keys | done]. }
apply dict_set_keys in Hk' as [->|]; [|done].
apply dict_get_elem_of in E. apply list_elem_of_fmap. by exists (plant_name, n).
Qed.

Lemma plant_game_inv w shuffle now :
game_inv noise s0 w →
∃ w', GameWorld.step w (GameWorld.PlantKey shuffle now) = Ok w' ∧
      (world_inv s0 w' → game_inv noise s0 w').
Proof.
intros Hinv. pose proof Hinv as [Hworld Hmap Hpos Hstand Hlev Hmoney Hseeds Hitems Hgr Hpl].
cbn [GameWorld.step]. unfold GameWorld.handle_planting.
destruct (Player.get_tile_position (GameWorld.player w)) as [px py] eqn:Etile.
destruct (List.find _ _) as [[plant_name q]|] eqn:Efind.
2: { eexists. split; [reflexivity|]. intros _. by apply show_error_game_inv. }
apply find_some in Efind as [Hin%list_elem_of_In _].
destruct (proj2 Hseeds plant_name) as (pt & Hget & Htool).
{ apply list_elem_of_fmap. by exists (plant_name, q). }
rewrite (inv_shop _ _ Hworld), (getitem_Some _ _ _ Hget). cbn [mbind result_bind].
destruct (entry_ok_spec _ _ (catalog_entry_ok draws s0 _ _ Hs0 Hget))
  as (Hname & Hshape & Hw & Hh & _ & v & _ & _ & _ & Hseed).
destruct (Hseed Htool) as [Hgrow _].
unfold GameWorld.find_planting_spot, Player.get_planting_range.
destruct (level_lookup 2 8 20 100 _ (proj1 (proj2 Hlev))) as (R & -> & _).
cbn [mbind result_bind]. unfold GameWorld.find_planting_spot_within.
destruct (search_rings_total w shuffle px py (size pt) (range (R + 1)) Hmap)
  as [res Hres].
rewrite Hres. destruct res as [[x y]|].
2: { eexists. split; [reflexivity|]. intros _. by apply show_error_game_inv. }
pose proof (search_rings_some _ _ _ _ _ _ (x, y) Hres) as Hcan. cbn [fst snd] in Hcan.
destruct (can_plant_at_spec w noise Hmap x y (size pt)) as (b & Hb & Hiff).
rewrite Hcan in Hb. injection Hb as <-.
pose proof (proj1 Hiff eq_refl) as Hfree.
assert (Hfoot : Plant.get_occupied_tiles (Plant.init pt x y now)
                = GameWorld.checked_tiles x y (size pt)).
{ by rewrite rectangle_footprint. }
destruct (use_seed_wf (Player.inventory (GameWorld.player w)) plant_name (proj1 Hseeds))
  as (Hwf' & Hkeys' & Hitems').
eexists. split; [reflexivity|]. intros Hworld'.
split; cbn [GameWorld.map GameWorld.player GameWorld.plants GameWorld.heap
            Shop.set_inventory Player.x Player.y Player.money Player.inventory
            Player.fertilizer_level Player.hoe_level Player.shovel_level]; try done.
- change (Player.get_tile_position _)
    with (Player.get_tile_position (GameWorld.player w)).
  by rewrite Etile.
- split; [done|]. intros k Hk. apply (proj2 Hseeds). by apply Hkeys'.
- by rewrite Hitems'.
- intros k l. rewrite lookup_foldl_insert, Hfoot.
  destruct (decide _) as [Hk|_]; [|apply Hgr].
  intros _. destruct (Hfree k Hk) as (Hb & Ht & _). done.
- intros k l. rewrite lookup_foldl_insert.
  destruct (decide _) as [_|_].
  + intros [= <-]. rewrite decide_True by done.
    cbn [Plant.plant_type Plant.init]. rewrite Hname.
    split_and!; try done. by apply init_inv.
  + intros Hk. pose proof (inv_fresh _ _ Hworld k l Hk).
    rewrite decide_False by lia. by apply (Hpl k l).
Qed.

(** Crediting harvested seeds keeps the item counts positive and within
  the catalog. *)
Lemma credit_wf h log : ∀ inv,
(∀ l, l ∈ log → seed_of s0 (name (Plant.plant_type (h l)))) →
counts_wf (Inventory.items inv) ∧ (∀ k, k ∈ (Inventory.items inv).*1 → seed_of s0 k) →
counts_wf (Inventory.items (credit h inv log)) ∧
(∀ k, k ∈ (Inventory.items (credit h inv log)).*1 → seed_of s0 k).
Proof.
unfold credit. induction log as [|l log IH]; intros inv Hlog [Hwf Hkeys]; [done|].
cbn [foldl]. apply IH; [intros l' Hl'; apply Hlog; by right|].
cbn [Inventory.add_item Inventory.items]. split.
- apply counts_wf_set; [done|].
  pose proof (counts_wf_count _ (name (Plant.plant_type (h l))) Hwf) as Hc.
  unfold count in Hc. lia.
- intros k [->|Hk]%dict_set_keys; [apply Hlog; by left | by apply Hkeys].
Qed.

Lemma harvest_game_inv w :
game_inv noise s0 w →
∃ w', GameWorld.step w GameWorld.HarvestKey = Ok w' ∧
      (world_inv s0 w' → game_inv noise s0 w').
Proof.
intros Hinv. pose proof Hinv as [Hworld Hmap Hpos Hstand Hlev Hmoney Hseeds Hitems Hgr Hpl].
cbn [GameWorld.step]. unfold GameWorld.handle_harvesting.
pose proof Hstand as Hstand'. revert Hstand'.
destruct (Player.get_tile_position (GameWorld.player w)) as [px py] eqn:Etile.
intros Hstand'. unfold Player.get_harvest_range.
destruct (level_lookup 1 4 8 15 _ (proj2 (proj2 Hlev))) as (r & -> & Hr).
assert (0 <= r) as Hr0.
{ repeat (apply elem_of_cons in Hr as [->|Hr]; [lia|]). by apply not_elem_of_nil in Hr. }
cbn [mbind result_bind].
destruct (harvest_scan_spec (GameWorld.heap w) px py r (GameWorld.plants w)
            (Player.inventory (GameWorld.player w)) Hr0 (inv_field _ _ Hworld))
  as (log & _ & Hlog & ->).
eexists. split; [reflexivity|]. intros Hworld'.
destruct (credit_wf (GameWorld.heap w) log (Player.inventory (GameWorld.player w)))
  as [Hwf' Hkeys']; [|done|].
{ intros l (( k & Hk) & _)%Hlog. destruct (Hpl k l Hk) as (Hget & Ht & _).
  by eexists. }
split; cbn [GameWorld.map GameWorld.player GameWorld.plants GameWorld.heap
            Shop.set_inventory Player.x Player.y Player.money Player.inventory
            Player.fertilizer_level Player.hoe_level Player.shovel_level]; try done.
- change (Player.get_tile_position _)
    with (Player.get_tile_position (GameWorld.player w)).
  by rewrite Etile.
- by rewrite credit_seeds.
- intros k l. rewrite lookup_without.
  destruct (GameWorld.plants w !! k) as [l'|] eqn:E; [|done].
  destruct (decide _); [done|]. intros [= <-]. by apply (Hgr k l').
- intros k l. rewrite lookup_without.
  destruct (GameWorld.plants w !! k) as [l'|] eqn:E; [|done].
  destruct (decide _); [done|]. intros [= <-]. by apply (Hpl k l').
Qed.

Lemma buy_game_inv w plant_name quantity :
1 <= quantity →
game_inv noise s0 w →
∃ w', GameWorld.step w (GameWorld.Buy plant_name quantity) = Ok w' ∧
      (world_inv s0 w' → game_inv noise s0 w').
Proof.
intros Hq Hinv.
pose proof Hinv as [Hworld Hmap Hpos Hstand Hlev Hmoney Hseeds Hitems Hgr Hpl].
cbn [GameWorld.step]. rewrite (inv_shop _ _ Hworld).
destruct (PyDict.get (Shop.get_all_plant_types s0) plant_name) as [pt|] eqn:Hget.
2: { rewrite buy_unknown by done. eexists. split; [reflexivity|]. intros _.
     by apply same_player_game_inv. }
destruct (entry_ok_spec _ _ (catalog_entry_ok draws s0 _ _ Hs0 Hget))
  as (_ & _ & _ & _ & Hcost & v & _ & _ & Htool & _).
destruct (is_tool plant_name) eqn:Et.
- destruct (Htool eq_refl) as (tier & Htier & Hrange).
  destruct (buy_tool_name_unfold s0 (GameWorld.player w) plant_name quantity pt tier
              Hget Et Htier) as (tool & ->).
  destruct (tier <=? _);
    [eexists; split; [reflexivity|]; intros _; by apply same_player_game_inv|].
  destruct (negb _);
    [eexists; split; [reflexivity|]; intros _; by apply same_player_game_inv|].
  destruct (Qle_bool _ _) eqn:Em;
    [|eexists; split; [reflexivity|]; intros _; by apply same_player_game_inv].
  apply Qle_bool_iff in Em.
  eexists. split; [reflexivity|]. intros Hworld'.
  split; cbn [GameWorld.map GameWorld.player GameWorld.plants GameWorld.heap
              GameWorld.set_player snd Shop.set_level Shop.set_money
              Player.x Player.y Player.money Player.inventory
              Player.fertilizer_level Player.hoe_level Player.shovel_level]; try done.
  + destruct Hlev as (? & ? & ?). unfold tier_ok in *. destruct tool; cbn; lia.
  + lra.
- rewrite (buy_seed_unfold s0 (GameWorld.player w) plant_name quantity pt Hget Et).
  destruct (Qle_bool _ _) eqn:Em;
    [|eexists; split; [reflexivity|]; intros _; by apply same_player_game_inv].
  apply Qle_bool_iff in Em.
  eexists. split; [reflexivity|]. intros Hworld'.
  split; cbn [GameWorld.map GameWorld.player GameWorld.plants GameWorld.heap
              GameWorld.set_player snd Shop.set_inventory Shop.set_money
              Inventory.add_seeds Inventory.seeds Inventory.items
              Player.x Player.y Player.money Player.inventory
              Player.fertilizer_level Player.hoe_level Player.shovel_level]; try done.
  + lra.
  + destruct Hseeds as [Hwf Hkeys]. split.
    * apply counts_wf_set; [done|].
      pose proof (counts_wf_count _ plant_name Hwf) as Hc. unfold count in Hc. lia.
    * intros k [->|Hk]%dict_set_keys; [by exists pt | by apply Hkeys].
Qed.

(** Deleting along a snapshot keeps the counts positive and adds no key. *)
Lemma foldl_del_wf (c : string → bool) (L : PyDict.t string Z) : ∀ d : PyDict.t string Z,
counts_wf d →
counts_wf (foldl (fun d kv => if c kv.1 then PyDict.del d kv.1 else d) d L) ∧
∀ k, k ∈ (foldl (fun d kv => if c kv.1 then PyDict.del d kv.1 else d) d L).*1 → k ∈ d.*1.
Proof.
induction L as [|[k0 q0] L IH]; intros d Hwf; [done|].
cbn [foldl fst]. destruct (c k0); [|by apply IH].
destruct (IH (PyDict.del d k0) (counts_wf_del _ _ Hwf)) as [Hwf' Hkeys].
split; [done|]. intros k Hk. eapply dict_del_keys. by apply Hkeys.
Qed.

Lemma catalog_values_nonneg :
Forall (fun kv : string * PlantType => ∀ v, sell_value kv.2 = Some v → (0 <= v)%Q)
       (Shop.get_all_plant_types s0).
Proof.
eapply Forall_impl; [apply (catalog_all_ok draws s0 Hs0)|].
intros [k pt] Hok v Hv.
destruct (entry_ok_spec _ _ Hok) as (_ & _ & _ & _ & _ & v' & Hv' & Hv0 & _).
cbn [fst snd] in *. rewrite Hv' in Hv. by injection Hv as <-.
Qed.

(** The tile the player stands on is inside the grid, so [is_in_sell_area]
  answers. *)
Lemma stand_in_grid w :
game_inv noise s0 w →
let tile := Player.get_tile_position (GameWorld.player w) in
(0 <= tile.1 < MAP_WIDTH ∧ 0 <= tile.2 < MAP_HEIGHT) ∧
GameWorld.is_in_sell_area w =
  Ok (bool_decide (Map.generate_tile MAP_WIDTH MAP_HEIGHT noise tile.1 tile.2 = sell_area)).
Proof.
intros Hinv tile. pose proof (g_stand _ _ _ Hinv) as Hstand. fold tile in Hstand.
rewrite (g_map _ _ _ Hinv) in Hstand.
assert (0 <= tile.1 < MAP_WIDTH ∧ 0 <= tile.2 < MAP_HEIGHT) as [Hx Hy].
{ destruct (is_walkable_total (Map.init noise) tile.1 tile.2 (init_wf noise))
    as (b & Hb & Hout).
  rewrite Hstand in Hb. injection Hb as <-.
  destruct (decide (0 <= tile.1 < MAP_WIDTH ∧ 0 <= tile.2 < MAP_HEIGHT)); [done|].
  by specialize (Hout ltac:(done)). }
split; [done|]. unfold GameWorld.is_in_sell_area. fold tile.
destruct tile as [tx ty]. cbn [fst snd] in *.
rewrite (g_map _ _ _ Hinv). unfold Map.is_sell_area.
by rewrite tile_at_generated.
Qed.

Lemma sell_game_inv w :
game_inv noise s0 w →
∃ w', GameWorld.step w GameWorld.SellAllKey = Ok w' ∧
      (world_inv s0 w' → game_inv noise s0 w').
Proof.
intros Hinv.
pose proof Hinv as [Hworld Hmap Hpos Hstand Hlev Hmoney Hseeds Hitems Hgr Hpl].
cbn [GameWorld.step]. rewrite (proj2 (stand_in_grid w Hinv)).
cbn [mbind result_bind]. destruct (bool_decide _); [|by eexists].
rewrite (inv_shop _ _ Hworld), sell_all_items_unfold.
destruct (sell_loop (Shop.get_all_plant_types s0)
            (Inventory.items (Player.inventory (GameWorld.player w))))
  with (total := 0%Q) (player := GameWorld.player w)
  as (total & player' & -> & _ & Hm & Hi & Hsd & [= Hx Hy _] & [= Hf Hh Hsh]).
{ intros kv pt _ Hget.
  destruct (entry_ok_spec _ _ (catalog_entry_ok draws s0 _ _ Hs0 Hget))
    as (_ & _ & _ & _ & _ & v & -> & _). by eexists. }
cbn [mbind result_bind]. eexists. split; [reflexivity|]. intros Hworld'.
pose proof (earnings_nonneg _ _ catalog_values_nonneg (proj2 (proj1 Hitems))) as He.
destruct (foldl_del_wf (PyDict.contains (Shop.get_all_plant_types s0))
            (Inventory.items (Player.inventory (GameWorld.player w)))
            _ (proj1 Hitems)) as [Hwf' Hkeys'].
split; cbn [GameWorld.map GameWorld.player GameWorld.plants GameWorld.heap
            GameWorld.set_player snd]; try done.
- by rewrite Hx, Hy.
- unfold Player.get_tile_position in *. by rewrite Hx, Hy.
- by rewrite Hf, Hh, Hsh.
- rewrite Hm. lra.
- by rewrite Hsd.
- rewrite Hi. split; [done|]. intros k Hk. apply (proj2 Hitems). by apply Hkeys'.
Qed.

(** Every playable event completes and keeps what the game maintains. *)
Lemma step_game_inv w e :
playable e → game_inv noise s0 w →
∃ w', GameWorld.step w e = Ok w' ∧ game_inv noise s0 w'.
Proof.
intros He Hinv.
assert (∃ w', GameWorld.step w e = Ok w' ∧ (world_inv s0 w' → game_inv noise s0 w'))
  as (w' & Hstep & Hw').
{ destruct e as [dt keys|dt r|clock|shuffle now| |plant_name quantity|].
  - destruct (move_game_inv w dt keys Hinv) as (w' & ? & ?). by exists w'.
  - eexists. split; [reflexivity|]. intros _.
    destruct Hinv as [[] ? ? ? ? ? ? ? ? ?]. split; [split|..]; done.
  - destruct (grow_game_inv w clock Hinv) as (w' & ? & ?). by exists w'.
  - by apply plant_game_inv.
  - by apply harvest_game_inv.
  - by apply buy_game_inv.
  - by apply sell_game_inv. }
exists w'. split; [done|]. apply Hw'.
eapply step_inv; [exact Hs0 | exact (g_world _ _ _ Hinv) | exact Hstep].
Qed.

Lemma run_game_inv es : ∀ w,
Forall playable es → game_inv noise s0 w →
∃ w', GameWorld.run w es = Ok w' ∧ game_inv noise s0 w'.
Proof.
induction es as [|e es IH]; intros w Hes Hinv; cbn.
- by exists w.
- apply Forall_cons in Hes as [He Hes].
  destruct (step_game_inv w e He Hinv) as (w1 & -> & Hinv1). cbn. by apply IH.
Qed.

Lemma init_game_inv :
∃ w0, GameWorld.init noise draws = Ok w0 ∧ game_inv noise s0 w0.
Proof.
unfold GameWorld.init. rewrite Hs0. cbn [mbind result_bind].
eexists. split; [reflexivity|].
split; cbn [GameWorld.map GameWorld.player GameWorld.plants GameWorld.heap]; try done.
- split; [split; [constructor | constructor]|]. intros k Hk. by apply elem_of_nil in Hk.
- split; [split; [constructor | constructor]|]. intros k Hk. by apply elem_of_nil in Hk.
Qed.

End reachable.

Section reached.

(** Every world a game reaches keeps [game_inv], for the catalog built at
  start-up. *)
Lemma reachable_game_inv noise draws w0 es w :
GameWorld.init noise draws = Ok w0 → Forall playable es →
GameWorld.run w0 es = Ok w →
∃ s0, Shop.init draws = Ok s0 ∧ GameWorld.shop w = s0 ∧ game_inv noise s0 w.
Proof.
intros Hinit Hes Hrun. destruct (init_ok draws) as [s0 Hs0].
destruct (init_game_inv noise draws s0 Hs0) as (w0' & Hinit' & Hinv0).
rewrite Hinit in Hinit'. injection Hinit' as <-.
destruct (run_game_inv noise draws s0 Hs0 es w0 Hes Hinv0) as (w' & Hrun' & Hinv).
rewrite Hrun in Hrun'. injection Hrun' as <-.
exists s0. split_and!; try done. apply (inv_shop _ _ (g_world _ _ _ Hinv)).
Qed.


End reached.



(** X14: in every world a game reaches, the wallet is not negative, each
    of the three tool tiers is between 0 and 3 (so the range and
    multiplier tables are always indexed in range), the player's pixel
    position is inside [0, 7152] on both axes, and the tile the player
    stands on is inside the grid and walkable, so that is_in_sell_area,
    which has no bounds guard of its own, returns a boolean. *)
Theorem reachable_player_stays_valid noise draws w0 es w :
  GameWorld.init noise draws = Ok w0 → Forall playable es →
  GameWorld.run w0 es = Ok w →
  let p := GameWorld.player w in
  (0 <= Player.money p)%Q ∧
  (tier_ok (Player.fertilizer_level p) ∧ tier_ok (Player.hoe_level p) ∧
   tier_ok (Player.shovel_level p)) ∧
  (∃ f r h, Player.get_fertilizer_multiplier p = Ok f ∧ f ∈ [1; 2; 10; 100]%Q ∧
            Player.get_planting_range p = Ok r ∧ r ∈ [2; 8; 20; 100] ∧
            Player.get_harvest_range p = Ok h ∧ h ∈ [1; 4; 8; 15]) ∧
  ((0 <= Player.x p <= MAX_PIXEL)%Q ∧ (0 <= Player.y p <= MAX_PIXEL)%Q) ∧
  (0 <= (Player.get_tile_position p).1 < MAP_WIDTH ∧
   0 <= (Player.get_tile_position p).2 < MAP_HEIGHT) ∧
  Map.is_walkable (GameWorld.map w)
    (Player.get_tile_position p).1 (Player.get_tile_position p).2 = Ok true ∧
  ∃ b, GameWorld.is_in_sell_area w = Ok b.
Proof.
  intros Hinit Hes Hrun p.
  destruct (reachable_game_inv noise draws w0 es w Hinit Hes Hrun) as (s0 & Hs0 & _ & Hinv).
  pose proof Hinv as [_ _ Hpos Hstand Hlev Hmoney _ _ _ _].
  destruct (stand_in_grid noise s0 w Hinv) as [Hgrid Hsell].
  split_and!; try done; try apply Hlev; try apply Hpos; try apply Hgrid.
  - destruct Hlev as (Hf & Hh & Hsh).
    destruct (level_lookup 1%Q 2%Q 10%Q 100%Q _ Hf) as (f & Ef & Hfin).
    destruct (level_lookup 2 8 20 100 _ Hh) as (r & Er & Hrin).
    destruct (level_lookup 1 4 8 15 _ Hsh) as (h & Eh & Hhin).
    exists f, r, h. by rewrite fertilizer_lookup.
  - by eexists.
Qed.

Lemma reachable_player_stays_valid_witness :
  ∃ w0 w,
    GameWorld.init (fun _ _ => 0%Q) (fun _ => O) = Ok w0 ∧
    GameWorld.run w0 demo_events = Ok w ∧
    let p := GameWorld.player w in
    (0 <= Player.money p)%Q ∧
    (tier_ok (Player.fertilizer_level p) ∧ tier_ok (Player.hoe_level p) ∧
     tier_ok (Player.shovel_level p)) ∧
    (∃ f r h, Player.get_fertilizer_multiplier p = Ok f ∧ f ∈ [1; 2; 10; 100]%Q ∧
              Player.get_planting_range p = Ok r ∧ r ∈ [2; 8; 20; 100] ∧
              Player.get_harvest_range p = Ok h ∧ h ∈ [1; 4; 8; 15]) ∧
    ((0 <= Player.x p <= MAX_PIXEL)%Q ∧ (0 <= Player.y p <= MAX_PIXEL)%Q) ∧
    (0 <= (Player.get_tile_position p).1 < MAP_WIDTH ∧
     0 <= (Player.get_tile_position p).2 < MAP_HEIGHT) ∧
    Map.is_walkable (GameWorld.map w)
      (Player.get_tile_position p).1 (Player.get_tile_position p).2 = Ok true ∧
    ∃ b, GameWorld.is_in_sell_area w = Ok b.
Proof.
  eexists _, _.
  split; [vm_compute; reflexivity|].
  split; [vm_compute; reflexivity|].
  eapply (reachable_player_stays_valid (fun _ _ => 0%Q) (fun _ => O) _ demo_events).
  - vm_compute. reflexivity.
  - unfold demo_events. repeat (apply Forall_cons; split; [simpl; try exact I; lia|]).
    exact (Forall_nil_2 _).
  - vm_compute. reflexivity.
Defined.

(** X15: in every world a game reaches, every tile that refers to a plant
    is inside the grid, is soil or grass (never water and never the sell
    area), and the plant it refers to is a seed of the catalog (never a
    tool) of rectangular shape, with a positive growth time, a remaining
    time that is not negative, and its harvestable flag set exactly when
    the remaining time is zero. *)
Theorem reachable_field_is_sound noise draws w0 es w :
  GameWorld.init noise draws = Ok w0 → Forall playable es →
  GameWorld.run w0 es = Ok w →
  ∀ k l, GameWorld.plants w !! k = Some l →
    let p := GameWorld.heap w l in
    (0 <= k.1 < MAP_WIDTH ∧ 0 <= k.2 < MAP_HEIGHT) ∧
    (∃ kind, Map.tile_at (GameWorld.map w) k.1 k.2 = Ok kind ∧
             (kind = soil ∨ kind = grass)) ∧
    PyDict.get (Shop.get_all_plant_types (GameWorld.shop w)) (name (Plant.plant_type p))
      = Some (Plant.plant_type p) ∧
    is_tool (name (Plant.plant_type p)) = false ∧
    shape (Plant.plant_type p) = rectangle ∧
    (0 < growth_time (Plant.plant_type p))%Q ∧
    (0 <= Plant.time_remaining p)%Q ∧
    (Plant.harvestable p = true ↔ (Plant.time_remaining p == 0)%Q) ∧
    (Plant.x p, Plant.y p) ∈ Plant.get_occupied_tiles p ∧
    GameWorld.plants w !! (Plant.x p, Plant.y p) = Some l.
Proof.
  intros Hinit Hes Hrun k l Hk p.
  destruct (reachable_game_inv noise draws w0 es w Hinit Hes Hrun)
    as (s0 & Hs0 & Hshop & Hinv).
  destruct (g_ground _ _ _ Hinv k l Hk) as [[Hx Hy] Htill].
  destruct (g_plants _ _ _ Hinv k l Hk) as (Hget & Htool & [Hg Hr _ Hflag _]).
  destruct (entry_ok_spec _ _ (catalog_entry_ok draws s0 _ _ Hs0 Hget))
    as (_ & Hshape & _).
  pose proof (origin_claimed noise draws s0 Hs0 w k l Hinv Hk) as Ho.
  rewrite Hshop. split_and!; try done; try lia.
  - revert Htill. rewrite (g_map _ _ _ Hinv). unfold Map.is_tillable.
    rewrite tile_at_generated by done. cbn [Map.width Map.height Map.init].
    assert ((k.1 <? 0) || (MAP_WIDTH <=? k.1) || (k.2 <? 0) || (MAP_HEIGHT <=? k.2) = false)
      as -> by (unfold MAP_WIDTH, MAP_HEIGHT in *; lia).
    cbn [mbind result_bind]. intros [= Hin%bool_decide_eq_true].
    eexists. split; [reflexivity|].
    apply elem_of_cons in Hin as [?|Hin]; [by left|].
    apply elem_of_cons in Hin as [?|Hin]; [by right|]. by apply elem_of_nil in Hin.
  - fold p in Hflag. rewrite Hflag. rewrite Qle_bool_iff. fold p in Hr. split; lra.
  - apply (wf_covers _ _ (inv_field _ _ (g_world _ _ _ Hinv)) _ _ Ho).
Qed.

Lemma reachable_field_is_sound_witness :
  ∃ w0 w,
    GameWorld.init (fun _ _ => 0%Q) (fun _ => O) = Ok w0 ∧
    GameWorld.run w0 demo_events = Ok w ∧
    ∀ k l, GameWorld.plants w !! k = Some l →
      let p := GameWorld.heap w l in
      (0 <= k.1 < MAP_WIDTH ∧ 0 <= k.2 < MAP_HEIGHT) ∧
      (∃ kind, Map.tile_at (GameWorld.map w) k.1 k.2 = Ok kind ∧
               (kind = soil ∨ kind = grass)) ∧
      PyDict.get (Shop.get_all_plant_types (GameWorld.shop w)) (name (Plant.plant_type p))
        = Some (Plant.plant_type p) ∧
      is_tool (name (Plant.plant_type p)) = false ∧
      shape (Plant.plant_type p) = rectangle ∧
      (0 < growth_time (Plant.plant_type p))%Q ∧
      (0 <= Plant.time_remaining p)%Q ∧
      (Plant.harvestable p = true ↔ (Plant.time_remaining p == 0)%Q) ∧
      (Plant.x p, Plant.y p) ∈ Plant.get_occupied_tiles p ∧
      GameWorld.plants w !! (Plant.x p, Plant.y p) = Some l.
Proof.
  eexists _, _.
  split; [vm_compute; reflexivity|].
  split; [vm_compute; reflexivity|].
  eapply (reachable_field_is_sound (fun _ _ => 0%Q) (fun _ => O) _ demo_events).
  - vm_compute. reflexivity.
  - unfold demo_events. repeat (apply Forall_cons; split; [simpl; try exact I; lia|]).
    exact (Forall_nil_2 _).
  - vm_compute. reflexivity.
Defined.

(** X16: in every world a game reaches, the seed and item dictionaries
    have no key twice and only positive counts, every key is a seed of
    the catalog and never a tool, and so the seed handle_planting picks
    (the first with a positive count) is simply the first entry. *)
Theorem reachable_inventory_is_sound noise draws w0 es w :
  GameWorld.init noise draws = Ok w0 → Forall playable es →
  GameWorld.run w0 es = Ok w →
  let inv := Player.inventory (GameWorld.player w) in
  counts_wf (Inventory.seeds inv) ∧ counts_wf (Inventory.items inv) ∧
  (∀ k, k ∈ (Inventory.seeds inv).*1 ∨ k ∈ (Inventory.items inv).*1 →
        seed_of (GameWorld.shop w) k) ∧
  List.find (fun '(_, quantity) => 0 <? quantity) (Inventory.seeds inv)
    = head (Inventory.seeds inv).
Proof.
  intros Hinit Hes Hrun inv.
  destruct (reachable_game_inv noise draws w0 es w Hinit Hes Hrun)
    as (s0 & Hs0 & Hshop & Hinv).
  pose proof Hinv as [_ _ _ _ _ _ [Hswf Hskeys] [Hiwf Hikeys] _ _].
  rewrite Hshop. split_and!; try done.
  - intros k [Hk|Hk]; [by apply Hskeys | by apply Hikeys].
  - fold inv in Hswf. destruct Hswf as [_ Hpos].
    destruct (Inventory.seeds inv) as [|[k q] d]; [done|].
    apply Forall_cons in Hpos as [Hq _]. cbn in *.
    by assert ((0 <? q) = true) as -> by lia.
Qed.

Lemma reachable_inventory_is_sound_witness :
  ∃ w0 w,
    GameWorld.init (fun _ _ => 0%Q) (fun _ => O) = Ok w0 ∧
    GameWorld.run w0 demo_events = Ok w ∧
    let inv := Player.inventory (GameWorld.player w) in
    counts_wf (Inventory.seeds inv) ∧ counts_wf (Inventory.items inv) ∧
    (∀ k, k ∈ (Inventory.seeds inv).*1 ∨ k ∈ (Inventory.items inv).*1 →
          seed_of (GameWorld.shop w) k) ∧
    List.find (fun '(_, quantity) => 0 <? quantity) (Inventory.seeds inv)
      = head (Inventory.seeds inv).
Proof.
  eexists _, _.
  split; [vm_compute; reflexivity|].
  split; [vm_compute; reflexivity|].
  eapply (reachable_inventory_is_sound (fun _ _ => 0%Q) (fun _ => O) _ demo_events).
  - vm_compute. reflexivity.
  - unfold demo_events. repeat (apply Forall_cons; split; [simpl; try exact I; lia|]).
    exact (Forall_nil_2 _).
  - vm_compute. reflexivity.
Defined.



Section harvest_twice.

(** A list without elements is empty. *)
Lemma no_elements {A} (l : list A) : (∀ a, a ∉ l) → l = [].
Proof. destruct l as [|a l]; [done|]. intros H. exfalso. apply (H a). by left. Qed.

End harvest_twice.

(** X18: harvesting is idempotent: on a well-formed field and with a
    shovel tier between 0 and 3, handle_harvesting completes, and pressing
    the harvest key again straight away changes nothing at all, because
    the first pass left no ripe plant within range. *)
Theorem harvesting_twice_changes_nothing w :
  field_wf (GameWorld.plants w) (GameWorld.heap w) →
  tier_ok (Player.shovel_level (GameWorld.player w)) →
  ∃ w', GameWorld.handle_harvesting w = Ok w' ∧
        GameWorld.handle_harvesting w' = Ok w'.
Proof.
  intros Hwf Hlev. unfold GameWorld.handle_harvesting.
  destruct (Player.get_tile_position (GameWorld.player w)) as [px py] eqn:Etile.
  unfold Player.get_harvest_range.
  destruct (list_getitem_in_range [1; 4; 8; 15] (Player.shovel_level (GameWorld.player w)))
    as (r & Er & Hr); [unfold tier_ok in Hlev; simpl; lia|].
  assert (0 <= r) as Hr0.
  { repeat (apply elem_of_cons in Hr as [->|Hr]; [lia|]). by apply not_elem_of_nil in Hr. }
  rewrite Er. cbn [mbind result_bind].
  destruct (harvest_scan_spec (GameWorld.heap w) px py r (GameWorld.plants w)
              (Player.inventory (GameWorld.player w)) Hr0 Hwf)
    as (log & _ & Hlog & ->).
  eexists. split; [reflexivity|].
  cbn [GameWorld.map GameWorld.player GameWorld.plants GameWorld.heap GameWorld.next_loc
       GameWorld.weather GameWorld.shop GameWorld.error_message GameWorld.error_timer].
  change (Player.get_tile_position (Shop.set_inventory _ _))
    with (Player.get_tile_position (GameWorld.player w)).
  rewrite Etile.
  change (Player.shovel_level (Shop.set_inventory _ _))
    with (Player.shovel_level (GameWorld.player w)).
  rewrite Er. cbn [mbind result_bind Shop.set_inventory Player.inventory].
  destruct (harvest_scan_spec (GameWorld.heap w) px py r (without log (GameWorld.plants w))
              (credit (GameWorld.heap w) (Player.inventory (GameWorld.player w)) log)
              Hr0 (without_wf log _ _ Hwf))
    as (log2 & _ & Hlog2 & ->).
  assert (log2 = []) as ->.
  { apply no_elements. intros l Hl. apply Hlog2 in Hl as ([k Hk] & Hripe & Hin).
    rewrite lookup_without in Hk.
    destruct (GameWorld.plants w !! k) as [l'|] eqn:E; [|done].
    destruct (decide (l' ∈ log)) as [|Hnot]; [done|]. injection Hk as ->.
    apply Hnot, Hlog. split_and!; try done. by exists k. }
  rewrite without_nil. cbn [credit foldl]. reflexivity.
Qed.

Lemma harvesting_twice_changes_nothing_witness :
  ∃ w', GameWorld.handle_harvesting radish_world = Ok w' ∧
        GameWorld.handle_harvesting w' = Ok w'.
Proof.
  apply (harvesting_twice_changes_nothing radish_world).
  - split; cbn [GameWorld.plants GameWorld.heap radish_world].
    + intros k l [<- <-]%lookup_singleton_Some. left.
    + intros k l k' [<- <-]%lookup_singleton_Some Hk'.
      apply list_elem_of_singleton in Hk' as ->. apply lookup_singleton_eq.
  - unfold tier_ok. simpl. lia.
Defined.

(** ** Growth and the clock *)

Section clock.





End clock.



(** X20: for a plant the game maintains, get_time_remaining returns the
    stored remaining time whatever multipliers it is passed (it ignores
    them); the result is never negative and is zero exactly for a
    harvestable plant. *)
Theorem time_remaining_ignores_multipliers p wm fm :
  plant_inv p →
  Plant.get_time_remaining p wm fm = Plant.time_remaining p ∧
  (0 <= Plant.get_time_remaining p wm fm)%Q ∧
  ((Plant.get_time_remaining p wm fm == 0)%Q ↔ Plant.harvestable p = true).
Proof.
  intros [Hg Hr Hstage Hflag Hfrozen]. unfold Plant.get_time_remaining.
  destruct (Plant.harvestable p) eqn:Hh.
  - rewrite Hfrozen by done. split_and!; done.
  - symmetry in Hflag. apply Qle_bool_false in Hflag.
    unfold pymax. destruct (Qlt_le_dec 0 (Plant.time_remaining p)); [|lra].
    split_and!; try done. split; [lra | done].
Qed.

Lemma time_remaining_ignores_multipliers_witness :
  let p := Plant.init (PlantType_init "Radish" 1 (Some (101 # 100)%Q) 5 None None) 10 10 0 in
  Plant.get_time_remaining p 2 100 = Plant.time_remaining p ∧
  (0 <= Plant.get_time_remaining p 2 100)%Q ∧
  ((Plant.get_time_remaining p 2 100 == 0)%Q ↔ Plant.harvestable p = true).
Proof.
  apply (time_remaining_ignores_multipliers
           (Plant.init (PlantType_init "Radish" 1 (Some (101 # 100)%Q) 5 None None) 10 10 0)
           2 100).
  split; [reflexivity | vm_compute; discriminate | reflexivity | reflexivity
         | intros H; discriminate H].
Defined.

(** ** Weather and the day/night cycle *)

Section sky.

Lemma weather_update_ok s dt r :
weather_ok s → fair_draw (dt, r) → weather_ok (Weather.update s dt r).
Proof.
intros (Hd & Ht & Hsp) [Hdt Hr]. cbn [fst snd] in *. unfold weather_ok, Weather.update.
rewrite Hd. cbv zeta.
destruct (Weather.is_special (Weather.current_weather s)) eqn:Es; cbn [andb negb];
  [specialize (Hsp eq_refl)|];
  repeat match goal with
         | |- context [Qle_bool ?a ?b] => destruct (Qle_bool a b) eqn:?
         end;
  repeat match goal with
         | H : Qle_bool _ _ = true |- _ => apply Qle_bool_iff in H
         | H : Qle_bool _ _ = false |- _ => apply Qle_bool_false in H
         end;
  cbn [Weather.current_weather Weather.weather_timer Weather.weather_duration
       Weather.current_special_duration];
  rewrite ?Es; split_and!;
  first [ done | lra | intros _; lra
        | by destruct (Weather.normal_choice r)
        | by destruct (Weather.current_weather s)
        | by destruct (Weather.special_choice r) ].
Qed.

Lemma weather_run_ok steps : ∀ s,
weather_ok s → Forall fair_draw steps → weather_ok (weather_run s steps).
Proof.
unfold weather_run. induction steps as [|[dt r] steps IH]; intros s Hs Hall; [done|].
apply Forall_cons in Hall as [Hst Hall]. cbn [foldl]. apply IH; [|done].
by apply weather_update_ok.
Qed.

Lemma weather_init_ok : weather_ok Weather.init.
Proof. unfold weather_ok, Weather.init. cbn. split_and!; try done; lra. Qed.

Lemma day_update_ok s dt :
DayNightCycle.day_length s = 600%Q → (0 <= DayNightCycle.time_of_day s < 1)%Q →
(0 <= dt)%Q →
∃ s', DayNightCycle.update s dt = Ok s' ∧
      DayNightCycle.day_length s' = 600%Q ∧
      (0 <= DayNightCycle.time_of_day s' < 1)%Q ∧
      ((1 <= DayNightCycle.time_of_day s + dt / 600)%Q →
       DayNightCycle.time_of_day s' = 0%Q).
Proof.
intros Hd Ht Hdt. unfold DayNightCycle.update. rewrite Hd.
change (Qeq_bool 600 0) with false. cbv zeta.
eexists. split; [reflexivity|]. cbn [DayNightCycle.day_length DayNightCycle.time_of_day].
destruct (Qle_bool 1 _) eqn:E.
- split_and!; try done; lra.
- apply Qle_bool_false in E. split_and!; try done; try lra.
  assert (0 <= dt / 600)%Q; [|lra].
  apply Qle_shift_div_l; lra.
Qed.

(** The darkness is between 0 and 0.6 at every time of day. *)
Lemma darkness_range s : (0 <= DayNightCycle.darkness s <= 6 # 10)%Q.
Proof.
unfold DayNightCycle.darkness. cbv zeta.
set (tod := DayNightCycle.time_of_day s).
assert (Hdiv : ∀ v : Q, (v / (1 # 10) == v * 10)%Q) by (intros v; field).
destruct (Qle_bool tod (2 # 10)) eqn:E1; cbn [orb negb andb]; [lra|].
destruct (Qle_bool (8 # 10) tod) eqn:E2; cbn [orb negb andb]; [lra|].
apply Qle_bool_false in E1, E2.
destruct (Qle_bool tod (3 # 10)) eqn:E3; cbn [orb negb andb].
- apply Qle_bool_iff in E3. rewrite Hdiv. lra.
- apply Qle_bool_false in E3.
  destruct (Qle_bool (7 # 10) tod) eqn:E4; cbn [orb negb andb]; [|lra].
  apply Qle_bool_iff in E4. rewrite Hdiv. lra.
Qed.

Lemma py_int_nonneg v : (0 <= v)%Q → py_int v = Qfloor v.
Proof.
intros Hv. unfold py_int. destruct (Qlt_le_dec v 0); [lra | done].
Qed.

End sky.

(** X21: from start-up, over every run of frames with frame times that are
    not negative and special-weather durations drawn between 80 and 180,
    the check interval stays 85, the weather timer stays in [0, 85), and
    rain or snow always has a positive remaining duration of at most 180;
    the growth multiplier is between 0.75 and 2.  In the next frame, rain
    or snow persists while its remaining duration exceeds the frame time
    and otherwise gives way to sun or clouds, never directly to the other
    special weather; sun or clouds turn into rain or snow only at the
    85-second check and only when the chance draw is below 0.4. *)
Theorem weather_cycle_invariant steps dt r :
  Forall fair_draw steps → fair_draw (dt, r) →
  let s := weather_run Weather.init steps in
  let s' := Weather.update s dt r in
  weather_ok s ∧ weather_ok s' ∧
  ((75 # 100) <= Weather.get_growth_multiplier s <= 2)%Q ∧
  (Weather.is_special (Weather.current_weather s) = true →
   ((dt < Weather.current_special_duration s)%Q →
    Weather.current_weather s' = Weather.current_weather s) ∧
   ((Weather.current_special_duration s <= dt)%Q →
    Weather.is_special (Weather.current_weather s') = false ∧
    Weather.weather_timer s' = 0%Q)) ∧
  (Weather.is_special (Weather.current_weather s) = false →
   Weather.is_special (Weather.current_weather s') = true →
   (85 <= Weather.weather_timer s + dt)%Q ∧ (Weather.chance r < 4 # 10)%Q ∧
   Weather.current_special_duration s' = Weather.duration r).
Proof.
  intros Hsteps Hst s s'.
  pose proof (weather_run_ok steps _ weather_init_ok Hsteps) as Hok. fold s in Hok.
  pose proof (weather_update_ok s dt r Hok Hst) as Hok'. fold s' in Hok'.
  split; [done|]. split; [done|].
  destruct Hok as (Hd & Ht & Hsp). split.
  { unfold Weather.get_growth_multiplier. destruct (Weather.current_weather s); lra. }
  subst s'. unfold Weather.update. rewrite Hd. cbv zeta. split.
  - intros Es. rewrite Es. cbn [andb negb]. split.
    + intros Hlt.
      assert (Qle_bool (Weather.current_special_duration s - dt) 0 = false) as ->
        by (apply Qle_bool_false; lra).
      by destruct (Qle_bool 85 _).
    + intros Hle.
      assert (Qle_bool (Weather.current_special_duration s - dt) 0 = true) as ->
        by (apply Qle_bool_iff; lra).
      cbn. by destruct (Weather.normal_choice r).
  - intros Es. rewrite Es. cbn [andb negb].
    destruct (Qle_bool 85 _) eqn:E2; [|cbn; by rewrite Es].
    apply Qle_bool_iff in E2.
    destruct (Qle_bool (4 # 10) _) eqn:E3; cbn.
    + revert Es. by destruct (Weather.current_weather s).
    + apply Qle_bool_false in E3. done.
Qed.

Lemma weather_cycle_invariant_witness :
  let r := {| Weather.normal_choice := true; Weather.chance := 1 # 10;
              Weather.special_choice := true; Weather.duration := 100 |} in
  let s := weather_run Weather.init [(85%Q, r)] in
  let s' := Weather.update s 30 r in
  weather_ok s ∧ weather_ok s' ∧
  ((75 # 100) <= Weather.get_growth_multiplier s <= 2)%Q ∧
  (Weather.is_special (Weather.current_weather s) = true →
   ((30 < Weather.current_special_duration s)%Q →
    Weather.current_weather s' = Weather.current_weather s) ∧
   ((Weather.current_special_duration s <= 30)%Q →
    Weather.is_special (Weather.current_weather s') = false ∧
    Weather.weather_timer s' = 0%Q)) ∧
  (Weather.is_special (Weather.current_weather s) = false →
   Weather.is_special (Weather.current_weather s') = true →
   (85 <= Weather.weather_timer s + 30)%Q ∧ (Weather.chance r < 4 # 10)%Q ∧
   Weather.current_special_duration s' = Weather.duration r).
Proof.
  intros r.
  assert (fair_draw (85%Q, r)) as H1 by (split; [|split]; vm_compute; discriminate).
  assert (fair_draw (30%Q, r)) as H2 by (split; [|split]; vm_compute; discriminate).
  apply (weather_cycle_invariant [(85%Q, r)] 30 r); [|exact H2].
  apply Forall_cons. split; [exact H1 | exact (Forall_nil_2 _)].
Defined.

(** X22: from start-up (noon, a day of 600 seconds), over every run of
    frames with frame times that are not negative, DayNightCycle.update
    never divides by zero, the day length stays 600 and the time of day
    stays in [0, 1): a frame that reaches 1 resets it to 0 and drops the
    overshoot.  The overlay alpha is always between 0 and 153; it is 153
    at night (time of day at most 0.2 or at least 0.8) and 0 by day
    (strictly between 0.3 and 0.7). *)
Theorem day_night_stays_in_range dts :
  Forall (fun dt => (0 <= dt)%Q) dts →
  ∃ s, day_run DayNightCycle.init dts = Ok s ∧
       DayNightCycle.day_length s = 600%Q ∧
       (0 <= DayNightCycle.time_of_day s < 1)%Q ∧
       0 <= DayNightCycle.get_lighting_alpha s <= 153 ∧
       ((DayNightCycle.time_of_day s <= 2 # 10 ∨ 8 # 10 <= DayNightCycle.time_of_day s)%Q →
        DayNightCycle.get_lighting_alpha s = 153) ∧
       ((3 # 10 < DayNightCycle.time_of_day s < 7 # 10)%Q →
        DayNightCycle.get_lighting_alpha s = 0) ∧
       ∀ dt, (0 <= dt)%Q →
         ∃ s', DayNightCycle.update s dt = Ok s' ∧
               (0 <= DayNightCycle.time_of_day s' < 1)%Q ∧
               ((1 <= DayNightCycle.time_of_day s + dt / 600)%Q →
                DayNightCycle.time_of_day s' = 0%Q).
Proof.
  intros Hdts.
  assert (Hrun : ∀ s0, DayNightCycle.day_length s0 = 600%Q →
            (0 <= DayNightCycle.time_of_day s0 < 1)%Q →
            ∃ s, day_run s0 dts = Ok s ∧ DayNightCycle.day_length s = 600%Q ∧
                 (0 <= DayNightCycle.time_of_day s < 1)%Q).
  { unfold day_run. induction Hdts as [|dt dts Hdt _ IH]; intros s0 Hd Ht.
    - by exists s0.
    - cbn [foldl mbind result_bind].
      destruct (day_update_ok s0 dt Hd Ht Hdt) as (s1 & -> & Hd1 & Ht1 & _).
      by apply IH. }
  destruct (Hrun DayNightCycle.init eq_refl) as (s & Hs & Hd & Ht).
  { cbn. lra. }
  exists s. split; [done|]. split; [done|]. split; [done|].
  pose proof (darkness_range s) as Hdark.
  unfold DayNightCycle.get_lighting_alpha. split_and!.
  - rewrite py_int_nonneg by lra. change 0 with (Qfloor 0). apply Qfloor_resp_le. lra.
  - rewrite py_int_nonneg by lra. change 153 with (Qfloor 153). apply Qfloor_resp_le. lra.
  - intros Hnight. unfold DayNightCycle.darkness. cbv zeta.
    assert (Qle_bool (DayNightCycle.time_of_day s) (2 # 10)
            || Qle_bool (8 # 10) (DayNightCycle.time_of_day s) = true) as ->; [|done].
    apply orb_true_iff. rewrite !Qle_bool_iff. done.
  - intros Hday. unfold DayNightCycle.darkness. cbv zeta.
    assert (Qle_bool (DayNightCycle.time_of_day s) (2 # 10) = false) as ->
      by (apply Qle_bool_false; lra).
    assert (Qle_bool (8 # 10) (DayNightCycle.time_of_day s) = false) as ->
      by (apply Qle_bool_false; lra).
    assert (Qle_bool (DayNightCycle.time_of_day s) (3 # 10) = false) as ->
      by (apply Qle_bool_false; lra).
    assert (Qle_bool (7 # 10) (DayNightCycle.time_of_day s) = false) as ->
      by (apply Qle_bool_false; lra).
    done.
  - intros dt Hdt. destruct (day_update_ok s dt Hd Ht Hdt) as (s' & Hs' & _ & Ht' & Hreset).
    by exists s'.
Qed.

Lemma day_night_stays_in_range_witness :
  ∃ s, day_run DayNightCycle.init [300%Q; 30%Q] = Ok s ∧
       DayNightCycle.day_length s = 600%Q ∧
       (0 <= DayNightCycle.time_of_day s < 1)%Q ∧
       0 <= DayNightCycle.get_lighting_alpha s <= 153 ∧
       ((DayNightCycle.time_of_day s <= 2 # 10 ∨ 8 # 10 <= DayNightCycle.time_of_day s)%Q →
        DayNightCycle.get_lighting_alpha s = 153) ∧
       ((3 # 10 < DayNightCycle.time_of_day s < 7 # 10)%Q →
        DayNightCycle.get_lighting_alpha s = 0) ∧
       ∀ dt, (0 <= dt)%Q →
         ∃ s', DayNightCycle.update s dt = Ok s' ∧
               (0 <= DayNightCycle.time_of_day s' < 1)%Q ∧
               ((1 <= DayNightCycle.time_of_day s + dt / 600)%Q →
                DayNightCycle.time_of_day s' = 0%Q).
Proof.
  apply (day_night_stays_in_range [300%Q; 30%Q]).
  repeat (apply Forall_cons; split; [vm_compute; discriminate|]). exact (Forall_nil_2 _).
Defined.

(** ** Selling one item, buying under any name, footprints and boxes *)





(** X25: when the footprint stays inside the bounding box that
    can_plant_at validates: always for the rectangle and the curved shape;
    for the star as soon as the box is at least 3 x 3; for the circle when
    both sides of the box are odd. *)
Theorem footprint_within_bounding_box (p : Plant.t) :
  match shape (Plant.plant_type p) with
  | rectangle | curved => True
  | star => 3 <= (size (Plant.plant_type p)).1 ∧ 3 <= (size (Plant.plant_type p)).2
  | circle => Z.odd (size (Plant.plant_type p)).1 = true ∧
              Z.odd (size (Plant.plant_type p)).2 = true
  end →
  ∀ c, c ∈ Plant.get_occupied_tiles p →
       c ∈ GameWorld.checked_tiles (Plant.x p) (Plant.y p) (size (Plant.plant_type p)).
Proof.
  intros Hshape c.
  destruct (shape (Plant.plant_type p)) eqn:Es.
  - by rewrite rectangle_footprint.
  - (* circle *)
    unfold Plant.get_occupied_tiles. rewrite Es, elem_of_checked_tiles.
    destruct (size (Plant.plant_type p)) as [wd ht]. cbn [fst snd] in *.
    destruct Hshape as [Hw Hh].
    intros (dy & Hin & Hdy%elem_of_range2)%list_elem_of_bind.
    apply list_elem_of_bind in Hin as (dx & Hin & Hdx%elem_of_range2).
    destruct (_ <=? _); [|by apply not_elem_of_nil in Hin].
    apply list_elem_of_singleton in Hin as ->.
    pose proof (Zmod_odd wd) as Hwm. rewrite Hw in Hwm.
    pose proof (Zmod_odd ht) as Hhm. rewrite Hh in Hhm.
    exists (wd / 2 + dx), (ht / 2 + dy).
    split; [f_equal; lia|].
    assert (Z.min wd ht / 2 <= wd / 2) by (apply Z.div_le_mono; lia).
    assert (Z.min wd ht / 2 <= ht / 2) by (apply Z.div_le_mono; lia).
    pose proof (Z.div_mod wd 2 ltac:(lia)). pose proof (Z.div_mod ht 2 ltac:(lia)).
    lia.
  - (* star *)
    unfold Plant.get_occupied_tiles. rewrite Es, elem_of_checked_tiles.
    destruct (size (Plant.plant_type p)) as [wd ht]. cbn [fst snd] in *.
    cbn. intros Hin.
    repeat (apply elem_of_cons in Hin as [->|Hin];
            [eexists _, _; split; [reflexivity | lia]|]).
    by apply not_elem_of_nil in Hin.
  - by apply curved_in_box.
Qed.

Lemma footprint_within_bounding_box_witness :
  let p := Plant.init (PlantType_init "Round Tree" 1 None 10 (Some (3, 5)) (Some circle))
                      10 10 0 in
  (Z.odd (size (Plant.plant_type p)).1 = true ∧ Z.odd (size (Plant.plant_type p)).2 = true) ∧
  ∀ c, c ∈ Plant.get_occupied_tiles p →
       c ∈ GameWorld.checked_tiles (Plant.x p) (Plant.y p) (size (Plant.plant_type p)).
Proof.
  split; [split; reflexivity|].
  apply (footprint_within_bounding_box
           (Plant.init (PlantType_init "Round Tree" 1 None 10 (Some (3, 5)) (Some circle))
                       10 10 0)).
  simpl. split; reflexivity.
Defined.

(** ** The shop page and the error message *)

Section pages.

Lemma page_step_ok (p : ShopPage.t) (next : bool) :
0 <= ShopPage.current_page p <= ShopPage.max_page p →
let p' := if next then ShopPage.next_page p else ShopPage.prev_page p in
ShopPage.max_page p' = ShopPage.max_page p ∧
0 <= ShopPage.current_page p' <= ShopPage.max_page p'.
Proof.
intros Hp. destruct next; cbn zeta; unfold ShopPage.next_page, ShopPage.prev_page.
- destruct (_ <? _) eqn:E; cbn; [apply Z.ltb_lt in E|]; lia.
- destruct (_ <? _) eqn:E; cbn; [apply Z.ltb_lt in E|]; lia.
Qed.

Lemma page_run_ok clicks : ∀ p,
0 <= ShopPage.current_page p <= ShopPage.max_page p →
ShopPage.max_page (page_run p clicks) = ShopPage.max_page p ∧
0 <= ShopPage.current_page (page_run p clicks) <= ShopPage.max_page p.
Proof.
unfold page_run. induction clicks as [|c clicks IH]; intros p Hp; [done|].
cbn [foldl]. destruct (page_step_ok p c Hp) as [Hmax Hcur].
destruct (IH _ Hcur) as [Hmax' Hcur']. rewrite Hmax in Hmax', Hcur'. done.
Qed.

Lemma init_five_categories draws s :
Shop.init draws = Ok s → length (Shop.plant_categories s) = 5%nat.
Proof.
unfold Shop.init, Shop.create_plant_categories.
destruct (Shop.fill Shop.plants_data _); [|done].
destruct (Shop.fill Shop.rare_data _); [|done].
destruct (Shop.fill Shop.mythic_data _); [|done].
destruct (Shop.fill Shop.legendary_data _); [|done].
by intros [= <-].
Qed.



End pages.

(** X26: in a shop built at start-up there are five categories, and
    whatever sequence of "next" and "prev" clicks is made, the page index
    stays between 0 and 4, so the category the shop draws always exists;
    "next" followed by "prev" returns to the same page except on the last
    page, where "next" does nothing. *)
Theorem shop_page_always_selects_a_category draws s clicks :
  Shop.init draws = Ok s →
  let p := page_run (ShopPage.init s) clicks in
  ShopPage.max_page p = 4 ∧
  0 <= ShopPage.current_page p <= 4 ∧
  (∃ cat, ShopPage.current_category s p = Ok cat ∧ cat ∈ Shop.plant_categories s) ∧
  (ShopPage.current_page p < 4 → ShopPage.prev_page (ShopPage.next_page p) = p) ∧
  (ShopPage.current_page p = 4 → ShopPage.next_page p = p).
Proof.
  intros Hs p. pose proof (init_five_categories draws s Hs) as Hlen.
  destruct (page_run_ok clicks (ShopPage.init s)) as [Hmax Hcur].
  { unfold ShopPage.init. cbn. lia. }
  fold p in Hmax, Hcur. unfold ShopPage.init in Hmax, Hcur.
  cbn [ShopPage.max_page] in Hmax, Hcur. rewrite Hlen in Hmax, Hcur.
  change (Z.of_nat 5 - 1) with 4 in Hmax, Hcur.
  split; [done|]. split; [done|]. split_and!.
  - apply list_getitem_in_range. rewrite Hlen. lia.
  - intros Hlt. unfold ShopPage.next_page, ShopPage.prev_page. rewrite Hmax.
    assert ((ShopPage.current_page p <? 4) = true) as -> by lia.
    cbn [ShopPage.current_page ShopPage.max_page].
    assert ((0 <? ShopPage.current_page p + 1) = true) as -> by lia.
    destruct p as [c m]. cbn in *. f_equal; lia.
  - intros Heq. unfold ShopPage.next_page. rewrite Hmax, Heq. done.
Qed.

Lemma shop_page_always_selects_a_category_witness :
  ∃ s, Shop.init (fun _ => O) = Ok s ∧
  let p := page_run (ShopPage.init s) [true; true; false] in
  ShopPage.max_page p = 4 ∧
  0 <= ShopPage.current_page p <= 4 ∧
  (∃ cat, ShopPage.current_category s p = Ok cat ∧ cat ∈ Shop.plant_categories s) ∧
  (ShopPage.current_page p < 4 → ShopPage.prev_page (ShopPage.next_page p) = p) ∧
  (ShopPage.current_page p = 4 → ShopPage.next_page p = p).
Proof.
  eexists. split; [vm_compute; reflexivity|].
  apply (shop_page_always_selects_a_category (fun _ => O)).
  vm_compute. reflexivity.
Defined.


